(** * PocketFlow orchestration kernel: nodes, transitions, retry engine, flows

    A shallow embedding of [pockerflow-lixx/__init__.py].  A method [m] of
    a class [C] is [C_m]; a method [_m] is [C__m]; [_run], [_orch] and
    [run] are the calls [self._run], [self._orch] and [self.run] after
    method resolution.

    Python objects live in a store: node objects, parameter dicts and
    successor dicts are separate cells, and a node object holds references
    to its dicts, so that [copy.copy] of a node shares both dicts with the
    original, exactly as the shallow copy of the source does.  The
    attributes are typed as the module initialises them: [params] and
    [successors] are dicts, [max_retries] and [wait] are integers, the keys
    of a dict are strings.

    User code (the overridable methods [prep], [exec], [post],
    [exec_fallback] and their [_async] twins) is a function on the store
    that returns a value or raises; it may read and write every object.
    The methods a user class provides are found through the class of the
    object, as Python does.

    Errors are instances of [Exception], the ones [except Exception]
    catches.  A coroutine is modelled by the function it computes when it is
    awaited to completion; the tasks of a [gather] are followed as the
    event loop runs them as long as none of them suspends, and no further.
    The loops of a flow need not end, so a run takes fuel. *)

From stdpp Require Import base option list gmap strings fin_maps.
From Stdlib Require Import ZArith Lia.

Open Scope string_scope.
Open Scope list_scope.
Open Scope Z_scope.

#[local] Set Warnings "-register-all".

(** ** Values *)

Definition loc := nat.
Definition class_id := nat.

Inductive pyval :=
| PNone
| PBool (b : bool)
| PInt (z : Z)
| PStr (s : string)
| PList (l : list pyval)
| PDict (d : loc)
| PNode (n : loc).

Inductive exn := Exn (class_name : string) (msg : string).

Definition RuntimeError (msg : string) : exn := Exn "RuntimeError" msg.
Definition TypeError (msg : string) : exn := Exn "TypeError" msg.

Inductive outcome (A : Type) :=
| Ret (a : A)
| Exc (e : exn).
Arguments Ret {A} a.
Arguments Exc {A} e.

(** ** The store *)

(** The attributes of a node object.  [BaseNode.__init__] creates [params]
    and [successors]; [Node.__init__] adds [max_retries], [wait] and
    [cur_retry]; [Flow.__init__] adds [start_node]. *)
Record obj := mkObj {
  cls : class_id;
  params : loc;
  successors : loc;
  max_retries : Z;
  wait : Z;
  cur_retry : Z;
  start_node : option loc
}.

Record heap := mkHeap {
  nodes : list obj;
  dicts : list (gmap string pyval);
  succs : list (gmap string loc)
}.

Definition empty_heap : heap := mkHeap [] [] [].

Definition with_nodes (h : heap) (ns : list obj) : heap :=
  mkHeap ns (dicts h) (succs h).
Definition with_dicts (h : heap) (ds : list (gmap string pyval)) : heap :=
  mkHeap (nodes h) ds (succs h).
Definition with_succs (h : heap) (ss : list (gmap string loc)) : heap :=
  mkHeap (nodes h) (dicts h) ss.

Definition with_params (o : obj) (p : loc) : obj :=
  mkObj (cls o) p (successors o) (max_retries o) (wait o) (cur_retry o)
        (start_node o).
Definition with_cur_retry (o : obj) (k : Z) : obj :=
  mkObj (cls o) (params o) (successors o) (max_retries o) (wait o) k
        (start_node o).
Definition with_start_node (o : obj) (s : option loc) : obj :=
  mkObj (cls o) (params o) (successors o) (max_retries o) (wait o)
        (cur_retry o) s.

(** ** What a run leaves behind *)

(** The calls the engine makes to user code, each with the arguments it
    passed and what came back, and the visits of a flow.  [EvExec] also
    records the value of [self.cur_retry] at the time of the call, which is
    what user code reads there; [EvVisit] records the [params] attribute of
    the visited object when its run starts, and the events of that run. *)
Inductive event :=
| EvPrep (self : loc) (shared : pyval) (r : outcome pyval)
| EvExec (self : loc) (retry : Z) (prep_res : pyval) (r : outcome pyval)
| EvFallback (self : loc) (prep_res : pyval) (e : exn) (r : outcome pyval)
| EvPost (self : loc) (shared prep_res exec_res : pyval) (r : outcome pyval)
| EvSleep (secs : Z)
| EvVisit (node : loc) (node_params : loc) (r : outcome pyval)
          (inner : list event).

(** [warnings.warn]; the key listing in the text of the third message is
    left out. *)
Inductive warning :=
| Overwriting (action : string)
| WontRunSuccessors
| FlowEnds (action : pyval).

Inductive stuck :=
| OutOfFuel
| BadRef
| Unmodelled.

Inductive result (A : Type) :=
| Done (r : outcome A) (h : heap) (t : list event) (w : list warning)
| Stuck (s : stuck).
Arguments Done {A} r h t w.
Arguments Stuck {A} s.

Definition M (A : Type) : Type := heap → result A.

Definition ret {A} (a : A) : M A := λ h, Done (Ret a) h [] [].

Definition bind {A B} (m : M A) (k : A → M B) : M B := λ h,
  match m h with
  | Stuck s => Stuck s
  | Done (Exc e) h1 t1 w1 => Done (Exc e) h1 t1 w1
  | Done (Ret a) h1 t1 w1 =>
      match k a h1 with
      | Stuck s => Stuck s
      | Done r h2 t2 w2 => Done r h2 (t1 ++ t2) (w1 ++ w2)
      end
  end.

Notation "'let*' x := m 'in' k" := (bind m (λ x, k))
  (at level 10, x name, m at level 100, k at level 200,
   format "'let*'  x  :=  m  'in'  '/' k").
Notation "'do*' m 'in' k" := (bind m (λ _, k))
  (at level 10, m at level 100, k at level 200,
   format "'do*'  m  'in'  '/' k").

Definition raise {A} (e : exn) : M A := λ h, Done (Exc e) h [] [].

(** [try: ... except Exception as e: ...]: the outcome as a value. *)
Definition catch {A} (m : M A) : M (outcome A) := λ h,
  match m h with
  | Stuck s => Stuck s
  | Done r h1 t1 w1 => Done (Ret r) h1 t1 w1
  end.

Definition warn (w : warning) : M unit := λ h, Done (Ret tt) h [] [w].
Definition emit (ev : event) : M unit := λ h, Done (Ret tt) h [ev] [].
Definition halt {A} (s : stuck) : M A := λ _, Stuck s.

Definition get_node (l : loc) : M obj := λ h,
  match nodes h !! l with
  | Some o => Done (Ret o) h [] []
  | None => Stuck BadRef
  end.

Definition put_node (l : loc) (o : obj) : M unit := λ h,
  Done (Ret tt) (with_nodes h (<[l := o]> (nodes h))) [] [].

Definition alloc_node (o : obj) : M loc := λ h,
  Done (Ret (length (nodes h))) (with_nodes h (nodes h ++ [o])) [] [].

Definition get_dict (l : loc) : M (gmap string pyval) := λ h,
  match dicts h !! l with
  | Some d => Done (Ret d) h [] []
  | None => Stuck BadRef
  end.

Definition alloc_dict (d : gmap string pyval) : M loc := λ h,
  Done (Ret (length (dicts h))) (with_dicts h (dicts h ++ [d])) [] [].

Definition get_succs (l : loc) : M (gmap string loc) := λ h,
  match succs h !! l with
  | Some m => Done (Ret m) h [] []
  | None => Stuck BadRef
  end.

Definition put_succs (l : loc) (m : gmap string loc) : M unit := λ h,
  Done (Ret tt) (with_succs h (<[l := m]> (succs h))) [] [].

Definition alloc_succs (m : gmap string loc) : M loc := λ h,
  Done (Ret (length (succs h))) (with_succs h (succs h ++ [m])) [] [].

(** ** Python's truth value, [or], iteration and dict display *)

Definition truthy (v : pyval) : M bool :=
  match v with
  | PNone => ret false
  | PBool b => ret b
  | PInt z => ret (negb (z =? 0))
  | PStr s => ret (negb (String.eqb s EmptyString))
  | PList l => ret (match l with [] => false | _ => true end)
  | PDict d => let* m := get_dict d in ret (negb (bool_decide (m = ∅)))
  | PNode _ => ret true
  end.

(** [a or b] *)
Definition py_or (a b : pyval) : M pyval :=
  let* t := truthy a in ret (if t then a else b).

(** A [str] is held as its UTF-8 bytes, and iterating it gives its code
    points: a byte [10xxxxxx] continues the code point that an earlier byte
    began. *)
Definition continues (c : Ascii.ascii) : bool :=
  match c with Ascii.Ascii _ _ _ _ _ _ b6 b7 => b7 && negb b6 end.

(** The bytes at the head of [s] that continue a code point begun before
    [s], and the code points of the rest. *)
Fixpoint chars_from (s : string) : string * list pyval :=
  match s with
  | EmptyString => (EmptyString, [])
  | String c s' =>
      let (more, l) := chars_from s' in
      if continues c then (String c more, l)
      else (EmptyString, PStr (String c more) :: l)
  end.

Definition chars (s : string) : list pyval :=
  let (more, l) := chars_from s in
  match more with
  | EmptyString => l
  | _ => PStr more :: l
  end.

(** [for x in v]: the items in order.  Iterating a dict yields its keys in
    insertion order, which the map does not keep. *)
Definition py_iter (v : pyval) : M (list pyval) :=
  match v with
  | PList l => ret l
  | PStr s => ret (chars s)
  | PDict _ => halt Unmodelled
  | PNone => raise (TypeError "'NoneType' object is not iterable")
  | PBool _ => raise (TypeError "'bool' object is not iterable")
  | PInt _ => raise (TypeError "'int' object is not iterable")
  | PNode _ => raise (TypeError "object is not iterable")
  end.

(** [{**a, **b}]: a new dict, filled from [a] and then from [b]. *)
Definition dict_update (d src : gmap string pyval) : gmap string pyval :=
  map_fold (λ k v acc, <[k := v]> acc) d src.

Definition dict_display (a b : gmap string pyval) : gmap string pyval :=
  dict_update (dict_update ∅ a) b.

(** The operand of [**] in a dict display must be a mapping. *)
Definition as_mapping (v : pyval) : M (gmap string pyval) :=
  match v with
  | PDict d => get_dict d
  | _ => raise (TypeError "object is not a mapping")
  end.

(** [range(n)] *)
Definition range (n : Z) : list Z := Z.of_nat <$> seq 0 (Z.to_nat n).

(** ** BaseNode: construction and wiring *)

(** The constructors, for an object of class [c].  An object has every
    attribute of the record; those its class does not define hold the
    defaults of [Node.__init__] and are not read. *)
Definition BaseNode___init__ (c : class_id) : M loc :=
  let* p := alloc_dict ∅ in
  let* s := alloc_succs ∅ in
  alloc_node (mkObj c p s 1 0 0 None).

Definition Node___init__ (c : class_id) (max_retries wait : Z) : M loc :=
  let* p := alloc_dict ∅ in
  let* s := alloc_succs ∅ in
  alloc_node (mkObj c p s max_retries wait 0 None).

Definition Flow___init__ (c : class_id) (start_node : option loc) : M loc :=
  let* p := alloc_dict ∅ in
  let* s := alloc_succs ∅ in
  alloc_node (mkObj c p s 1 0 0 start_node).

Definition set_params (self : loc) (params0 : loc) : M unit :=
  let* o := get_node self in
  put_node self (with_params o params0).

Definition next (self : loc) (node : loc) (action : string) : M loc :=
  let* o := get_node self in
  let* m := get_succs (successors o) in
  do* (if bool_decide (is_Some (m !! action))
       then warn (Overwriting action) else ret tt) in
  do* put_succs (successors o) (<[action := node]> m) in
  ret node.

(** [self >> other_node] *)
Definition __rshift__ (self : loc) (other_node : loc) : M loc :=
  next self other_node "default".

Record _ConditionalTransition := mk_ConditionalTransition {
  src : loc;
  action : string
}.

(** [self - action_name] *)
Definition __sub__ (self : loc) (action_name : pyval)
  : M _ConditionalTransition :=
  match action_name with
  | PStr s => ret (mk_ConditionalTransition self s)
  | _ => raise (TypeError "Action must be a string")
  end.

(** [(src - action) >> target_node] *)
Definition _ConditionalTransition___rshift__ (tr : _ConditionalTransition)
    (target_node : loc) : M loc :=
  next (src tr) target_node (action tr).

(** [copy.copy(node)], where [node] may be [None] *)
Definition copy (node : option loc) : M (option loc) :=
  match node with
  | None => ret None
  | Some n => let* o := get_node n in let* c := alloc_node o in ret (Some c)
  end.

(** ** Classes and user code *)

Definition hook : Type := heap → outcome pyval * heap.

(** The classes of the module. *)
Inductive base_class :=
| BaseNode | Node | BatchNode | Flow | BatchFlow
| AsyncNode | AsyncBatchNode | AsyncParallelBatchNode
| AsyncFlow | AsyncBatchFlow | AsyncParallelBatchFlow.

(** A class of the program: the class of the module it derives from, and
    the overridable methods as the method resolution order finds them. *)
Record pyclass := mkClass {
  base : base_class;
  prep : loc → pyval → hook;
  exec : loc → pyval → hook;
  post : loc → pyval → pyval → pyval → hook;
  exec_fallback : loc → pyval → exn → hook;
  exec_async : loc → pyval → hook;
  exec_fallback_async : loc → pyval → exn → hook
}.

(** The methods as the module defines them. *)
Definition BaseNode_prep (self : loc) (shared : pyval) : hook :=
  λ h, (Ret PNone, h).
Definition BaseNode_exec (self : loc) (prep_res : pyval) : hook :=
  λ h, (Ret PNone, h).
Definition BaseNode_post (self : loc) (shared prep_res exec_res : pyval)
  : hook := λ h, (Ret PNone, h).
Definition Node_exec_fallback (self : loc) (prep_res : pyval) (exception : exn)
  : hook := λ h, (Exc exception, h).
Definition Flow_post (self : loc) (shared prep_res exec_res : pyval) : hook :=
  λ h, (Ret exec_res, h).
Definition AsyncNode_exec_async (self : loc) (prep_res : pyval) : hook :=
  λ h, (Ret PNone, h).
Definition AsyncNode_exec_fallback_async (self : loc) (prep_res : pyval)
    (exc : exn) : hook := λ h, (Exc exc, h).

Definition is_flow (b : base_class) : bool :=
  match b with
  | Flow | BatchFlow | AsyncFlow | AsyncBatchFlow | AsyncParallelBatchFlow =>
      true
  | _ => false
  end.

(** A class of the module itself, nothing overridden: [post] is
    [Flow.post] for the flow classes, which precede [BaseNode] in their
    resolution order. *)
Definition module_class (b : base_class) : pyclass :=
  mkClass b BaseNode_prep BaseNode_exec
          (if is_flow b then Flow_post else BaseNode_post)
          Node_exec_fallback AsyncNode_exec_async
          AsyncNode_exec_fallback_async.

(** A call of user code, recorded with what it returned or raised. *)
Definition call (f : hook) (ev : outcome pyval → event) : M pyval := λ h,
  let (r, h') := f h in Done r h' [ev r] [].

Definition sleep (secs : Z) : M unit := emit (EvSleep secs).

(** [EvVisit]: the events of one visit, gathered under the visited node. *)
Definition visit (c : loc) (m : M pyval) : M pyval := λ h,
  match nodes h !! c with
  | None => Stuck BadRef
  | Some o =>
      match m h with
      | Stuck s => Stuck s
      | Done r h1 t w => Done r h1 [EvVisit c (params o) r t] w
      end
  end.

Section Engine.

(** The classes of the program. *)
Variable ct : class_id → pyclass.

Definition call_prep (self : loc) (shared : pyval) : M pyval :=
  let* o := get_node self in
  call (prep (ct (cls o)) self shared) (EvPrep self shared).

Definition call_exec (self : loc) (prep_res : pyval) : M pyval :=
  let* o := get_node self in
  call (exec (ct (cls o)) self prep_res) (EvExec self (cur_retry o) prep_res).

Definition call_post (self : loc) (shared prep_res exec_res : pyval)
  : M pyval :=
  let* o := get_node self in
  call (post (ct (cls o)) self shared prep_res exec_res)
       (EvPost self shared prep_res exec_res).

Definition call_exec_fallback (self : loc) (prep_res : pyval) (e : exn)
  : M pyval :=
  let* o := get_node self in
  call (exec_fallback (ct (cls o)) self prep_res e)
       (EvFallback self prep_res e).

Definition call_exec_async (self : loc) (prep_res : pyval) : M pyval :=
  let* o := get_node self in
  call (exec_async (ct (cls o)) self prep_res)
       (EvExec self (cur_retry o) prep_res).

Definition call_exec_fallback_async (self : loc) (prep_res : pyval) (e : exn)
  : M pyval :=
  let* o := get_node self in
  call (exec_fallback_async (ct (cls o)) self prep_res e)
       (EvFallback self prep_res e).

(** ** BaseNode *)

Definition BaseNode__exec (self : loc) (prep_res : pyval) : M pyval :=
  call_exec self prep_res.

(** [_run] of [BaseNode]; [_exec] is the method the class of [self] has. *)
Definition BaseNode__run (_exec : loc → pyval → M pyval)
    (self : loc) (shared : pyval) : M pyval :=
  let* prep_result := call_prep self shared in
  let* exec_result := _exec self prep_result in
  let* post_result := call_post self shared prep_result exec_result in
  ret post_result.

(** ** Node: the retry engine *)

(** The body of [for self.cur_retry in range(self.max_retries)], over the
    values the range still has to give. *)
Fixpoint Node__exec_for (ks : list Z) (self : loc) (prep_res : pyval)
  : M pyval :=
  match ks with
  | [] => ret PNone
  | k :: ks' =>
      let* o := get_node self in
      do* put_node self (with_cur_retry o k) in
      let* r := catch (call_exec self prep_res) in
      match r with
      | Ret v => ret v
      | Exc e =>
          let* o := get_node self in
          if cur_retry o =? max_retries o - 1
          then call_exec_fallback self prep_res e
          else
            do* (if 0 <? wait o then sleep (wait o) else ret tt) in
            Node__exec_for ks' self prep_res
      end
  end.

Definition Node__exec (self : loc) (prep_res : pyval) : M pyval :=
  let* o := get_node self in
  Node__exec_for (range (max_retries o)) self prep_res.

(** ** BatchNode *)

(** [[super(BatchNode, self)._exec(i) for i in ...]] *)
Fixpoint BatchNode__exec_for (self : loc) (items : list pyval)
  : M (list pyval) :=
  match items with
  | [] => ret []
  | i :: rest =>
      let* r := Node__exec self i in
      let* rs := BatchNode__exec_for self rest in
      ret (r :: rs)
  end.

Definition BatchNode__exec (self : loc) (items : pyval) : M pyval :=
  let* seq := py_or items (PList []) in
  let* l := py_iter seq in
  let* rs := BatchNode__exec_for self l in
  ret (PList rs).

(** ** AsyncNode: the cooperative retry engine *)

Fixpoint AsyncNode__exec_for (ixs : list Z) (self : loc) (prep_res : pyval)
  : M pyval :=
  match ixs with
  | [] => ret PNone
  | i :: ixs' =>
      let* r := catch (call_exec_async self prep_res) in
      match r with
      | Ret v => ret v
      | Exc e =>
          let* o := get_node self in
          if i =? max_retries o - 1
          then call_exec_fallback_async self prep_res e
          else
            do* (if 0 <? wait o then sleep (wait o) else ret tt) in
            AsyncNode__exec_for ixs' self prep_res
      end
  end.

Definition AsyncNode__exec (self : loc) (prep_res : pyval) : M pyval :=
  let* o := get_node self in
  AsyncNode__exec_for (range (max_retries o)) self prep_res.

Definition AsyncNode__run (self : loc) (shared : pyval) : M pyval :=
  raise (RuntimeError "Use run_async for AsyncNode.").

(** ** Flow *)

(** [d.get(key)] on a successor dict, whose keys are strings: a key that
    cannot be hashed raises, any other key that is not a string is not
    found. *)
Definition succs_get (m : gmap string loc) (key : pyval) : M (option loc) :=
  match key with
  | PStr s => ret (m !! s)
  | PList _ => raise (TypeError "unhashable type: 'list'")
  | PDict _ => raise (TypeError "unhashable type: 'dict'")
  | _ => ret None
  end.

Definition get_next_node (self : loc) (current_node : loc) (action : pyval)
  : M (option loc) :=
  let* o := get_node current_node in
  let* m := get_succs (successors o) in
  let* key := py_or action (PStr "default") in
  let* next_node := succs_get m key in
  do* (if negb (bool_decide (is_Some next_node)) && negb (bool_decide (m = ∅))
       then warn (FlowEnds action) else ret tt) in
  ret next_node.

(** [params or {**self.params}], where [params] is [None] or a dict *)
Definition node_params_of (self : loc) (params0 : option loc) : M loc :=
  let own :=
    let* o := get_node self in
    let* d := get_dict (params o) in
    alloc_dict (dict_update ∅ d) in
  match params0 with
  | None => own
  | Some p => let* t := truthy (PDict p) in if t then ret p else own
  end.

(** The [while current_node] loop of [_orch]; [run_node c shared] is
    [c._run(shared)]. *)
Fixpoint _orch_while (run_node : loc → pyval → M pyval) (fuel : nat)
    (self : loc) (shared : pyval) (node_params : loc)
    (current_node : option loc) (last_action : pyval) : M pyval :=
  match current_node with
  | None => ret last_action
  | Some c =>
      match fuel with
      | O => halt OutOfFuel
      | S fuel' =>
          do* set_params c node_params in
          let* last_action := visit c (run_node c shared) in
          let* nx := get_next_node self c last_action in
          let* current_node := copy nx in
          _orch_while run_node fuel' self shared node_params current_node
                      last_action
      end
  end.

Definition _orch (run_node : loc → pyval → M pyval) (fuel : nat)
    (self : loc) (shared : pyval) (params0 : option loc) : M pyval :=
  let* o := get_node self in
  let* current_node := copy (start_node o) in
  let* node_params := node_params_of self params0 in
  _orch_while run_node fuel self shared node_params current_node PNone.

Definition Flow__run (orch : loc → pyval → option loc → M pyval)
    (self : loc) (shared : pyval) : M pyval :=
  let* prep_result := call_prep self shared in
  let* orch_result := orch self shared None in
  call_post self shared prep_result orch_result.

(** ** BatchFlow *)

Fixpoint BatchFlow__run_for (orch : loc → pyval → option loc → M pyval)
    (self : loc) (shared : pyval) (prep_results_list : list pyval) : M unit :=
  match prep_results_list with
  | [] => ret tt
  | batch_params :: rest =>
      let* o := get_node self in
      let* a := get_dict (params o) in
      let* b := as_mapping batch_params in
      let* combined_params := alloc_dict (dict_display a b) in
      do* orch self shared (Some combined_params) in
      BatchFlow__run_for orch self shared rest
  end.

Definition BatchFlow__run (orch : loc → pyval → option loc → M pyval)
    (self : loc) (shared : pyval) : M pyval :=
  let* p := call_prep self shared in
  let* prep_results_list := py_or p (PList []) in
  let* bs := py_iter prep_results_list in
  do* BatchFlow__run_for orch self shared bs in
  call_post self shared prep_results_list PNone.

(** ** Method resolution *)

(** [self._run(shared)]: the [_run] that the resolution order of the class
    of [self] finds first.  [AsyncFlow(Flow, AsyncNode)] finds [Flow._run],
    the two cooperative batch flows find [BatchFlow._run]. *)
Fixpoint _run (fuel : nat) (self : loc) (shared : pyval) {struct fuel}
  : M pyval :=
  match fuel with
  | O => halt OutOfFuel
  | S fuel' =>
      let* o := get_node self in
      match base (ct (cls o)) with
      | BaseNode => BaseNode__run BaseNode__exec self shared
      | Node => BaseNode__run Node__exec self shared
      | BatchNode => BaseNode__run BatchNode__exec self shared
      | Flow | AsyncFlow =>
          Flow__run (_orch (_run fuel') fuel') self shared
      | BatchFlow | AsyncBatchFlow | AsyncParallelBatchFlow =>
          BatchFlow__run (_orch (_run fuel') fuel') self shared
      | AsyncNode | AsyncBatchNode | AsyncParallelBatchNode =>
          AsyncNode__run self shared
      end
  end.

(** [BaseNode.run] *)
Definition run (fuel : nat) (self : loc) (shared : pyval) : M pyval :=
  let* o := get_node self in
  let* m := get_succs (successors o) in
  do* (if negb (bool_decide (m = ∅)) then warn WontRunSuccessors
       else ret tt) in
  _run fuel self shared.

End Engine.

(** * Reading a trace *)

Definition is_exec (ev : event) : bool :=
  match ev with EvExec _ _ _ _ => true | _ => false end.

Definition is_fallback (ev : event) : bool :=
  match ev with EvFallback _ _ _ _ => true | _ => false end.

(** A call of execute that raised. *)
Definition raised (ev : event) : bool :=
  match ev with EvExec _ _ _ (Exc _) => true | _ => false end.

Fixpoint count (f : event → bool) (t : list event) : nat :=
  match t with
  | [] => 0%nat
  | ev :: t' => ((if f ev then 1 else 0) + count f t')%nat
  end.

(** The retry indices user code read in the calls of execute, in order. *)
Fixpoint retries_read (t : list event) : list Z :=
  match t with
  | [] => []
  | EvExec _ k _ _ :: t' => k :: retries_read t'
  | _ :: t' => retries_read t'
  end.

(** What the engine does between two attempts: sleep once, or not. *)
Definition pause (t : list event) : Prop := t = [] ∨ ∃ secs, t = [EvSleep secs].

(** The retry state machine from attempt [k] on, for a budget of [N]
    attempts: the events it leaves and its outcome.  [seen k] is the retry
    index user code reads during attempt [k]. *)
Inductive attempting (self : loc) (prep_res : pyval) (N : Z) (seen : Z → Z)
  : Z → list event → outcome pyval → Prop :=
| succeeded k v :
    k < N →
    attempting self prep_res N seen k
      [EvExec self (seen k) prep_res (Ret v)] (Ret v)
| fallback e r :
    attempting self prep_res N seen (N - 1)
      [EvExec self (seen (N - 1)) prep_res (Exc e);
       EvFallback self prep_res e r] r
| retried k e sl t r :
    k < N - 1 → pause sl →
    attempting self prep_res N seen (k + 1) t r →
    attempting self prep_res N seen k
      (EvExec self (seen k) prep_res (Exc e) :: sl ++ t) r.

(** User code that leaves alone the attributes the retry loop reads back:
    the class of [self], [max_retries] and [cur_retry]. *)
Definition keeps_control (f : hook) (self : loc) : Prop :=
  ∀ h r h' o, f h = (r, h') → nodes h !! self = Some o →
    ∃ o', nodes h' !! self = Some o' ∧ cls o' = cls o ∧
          max_retries o' = max_retries o ∧ cur_retry o' = cur_retry o.

(** P2 on the result [res] of one call of the execute wrapper with
    [prep_res], for a budget of [N] attempts: at most [N] calls of execute;
    at most one call of the fallback, and only after [N] calls that
    raised; and after [N] calls that raised, the fallback is the last
    event, called with [prep_res] and the exception of the last call, and
    its outcome is the outcome of the wrapper. *)
Definition attempt_bound (res : result pyval) (self : loc) (prep_res : pyval)
    (N : Z) : Prop :=
  ∃ r h' t,
    res = Done r h' t [] ∧
    Z.of_nat (count is_exec t) ≤ N ∧
    (count is_fallback t ≤ 1)%nat ∧
    (count is_fallback t = 1%nat → Z.of_nat (count raised t) = N) ∧
    (Z.of_nat (count raised t) = N →
       ∃ t0 k e, t = t0 ++ [EvExec self k prep_res (Exc e);
                           EvFallback self prep_res e r] ∧
                 count is_fallback t0 = 0%nat).

(** * Reading a result *)

Definition trace_of {A} (res : result A) : list event :=
  match res with Done _ _ t _ => t | Stuck _ => [] end.

Definition warnings_of {A} (res : result A) : list warning :=
  match res with Done _ _ _ w => w | Stuck _ => [] end.

(** * Batches item by item *)

(** The items of a batch processed in order from the store [h]: the
    results, the store they leave and the events.  Each item is one call
    of the retry wrapper, within the budget [N]. *)
Inductive per_item (ct : class_id → pyclass) (self : loc) (N : Z)
  : list pyval → heap → list pyval → heap → list event → Prop :=
| per_item_nil h : per_item ct self N [] h [] h []
| per_item_cons i rest h v h1 t1 rs h2 t2 :
    Node__exec ct self i h = Done (Ret v) h1 t1 [] →
    attempt_bound (Node__exec ct self i h) self i N →
    per_item ct self N rest h1 rs h2 t2 →
    per_item ct self N (i :: rest) h (v :: rs) h2 (t1 ++ t2).

(** * Reading a traversal *)

Definition outcome_of (res : result pyval) : outcome pyval :=
  match res with Done r _ _ _ => r | Stuck _ => Ret PNone end.

Definition heap_of {A} (res : result A) : heap :=
  match res with Done _ h _ _ => h | Stuck _ => empty_heap end.

(** What the calls of prepare returned, in order. *)
Fixpoint preps (t : list event) : list (outcome pyval) :=
  match t with
  | [] => []
  | EvPrep _ _ r :: t' => r :: preps t'
  | _ :: t' => preps t'
  end.

(** What prepare returned in each visit of a traversal. *)
Fixpoint visit_preps (t : list event) : list (outcome pyval) :=
  match t with
  | [] => []
  | EvVisit _ _ _ inner :: t' => preps inner ++ visit_preps t'
  | _ :: t' => visit_preps t'
  end.

(** * The shape of a traversal *)

(** A computation that calls no user code and visits nothing. *)
Definition silent {A} (m : M A) : Prop :=
  ∀ h r h' t w, m h = Done r h' t w → t = [].

(** The events end with the call of post on [self] that returned [a]. *)
Definition ends_with_post (self : loc) (shared a : pyval) (t : list event)
  : Prop :=
  ∃ t0 p x, t = t0 ++ [EvPost self shared p x (Ret a)].

(** A top-level event of a traversal: a visit of an object whose [params]
    attribute is [np] when the visit starts. *)
Definition visit_with (np : loc) (ev : event) : Prop :=
  ∃ c r inner, ev = EvVisit c np r inner.

(** The action a traversal ends with, given its events: the result of the
    last visit, which is what the post of the visited node returned; [None]
    if nothing was visited. *)
Definition last_action (shared : pyval) (t : list event) (a : pyval) : Prop :=
  (t = [] ∧ a = PNone) ∨
  ∃ t' c np inner,
    t = t' ++ [EvVisit c np (Ret a) inner] ∧ ends_with_post c shared a inner.

(** * The traversals of a batch flow *)

(** The loop of [BatchFlow._run] over a list of parameter maps, from the
    store [h] to the store [h2]: one traversal per map, in order, each on
    the store the one before left.  A traversal is the loop of [_orch]
    started on a copy of the entry node, with a params object [np] that
    holds the flow's own params overlaid with the map. *)
Inductive batch_chain (ct : class_id → pyclass) (fuel : nat) (self : loc)
    (shared : pyval)
  : list pyval → heap → heap → list event → list warning → Prop :=
| chain_nil h : batch_chain ct fuel self shared [] h h [] []
| chain_cons bl rest h o a b cur h0 np hs r h1 t1 w1 h2 t2 w2 :
    nodes h !! self = Some o →
    dicts h !! params o = Some a →
    dicts h !! bl = Some b →
    copy (start_node o) (with_dicts h (dicts h ++ [dict_display a b]))
      = Done (Ret cur) h0 [] [] →
    node_params_of self (Some (length (dicts h))) h0
      = Done (Ret np) hs [] [] →
    dicts hs !! np = Some (dict_display a b) →
    _orch_while (_run ct fuel) fuel self shared np cur PNone hs
      = Done (Ret r) h1 t1 w1 →
    Forall (visit_with np) t1 →
    batch_chain ct fuel self shared rest h1 h2 t2 w2 →
    batch_chain ct fuel self shared (PDict bl :: rest) h h2
                (t1 ++ t2) (w1 ++ w2).

(** * Fuel *)

(** [m2] gives every result that [m1] gives. *)
Definition at_least {A} (m1 m2 : M A) : Prop :=
  ∀ h r h' t w, m1 h = Done r h' t w → m2 h = Done r h' t w.

(** * Example programs *)

Module Examples.

Definition boom : exn := Exn "ValueError" "boom".

(** A retrying node whose execute always raises and whose fallback returns
    a sentinel; the cooperative methods do the same. *)
Definition Flaky : pyclass :=
  mkClass Node BaseNode_prep
          (λ _ _ h, (Exc boom, h)) BaseNode_post
          (λ _ _ _ h, (Ret (PStr "FALLBACK"), h))
          (λ _ _ h, (Exc boom, h))
          (λ _ _ _ h, (Ret (PStr "FALLBACK"), h)).

(** A retrying node whose execute reads [self.cur_retry], raises on
    attempts 0 and 1 and returns on attempt 2. *)
Definition Eventually : pyclass :=
  mkClass Node BaseNode_prep
          (λ self _ h,
             match nodes h !! self with
             | Some o => if cur_retry o <? 2 then (Exc boom, h)
                         else (Ret (PStr "ok"), h)
             | None => (Exc boom, h)
             end)
          BaseNode_post Node_exec_fallback
          AsyncNode_exec_async AsyncNode_exec_fallback_async.

(** The same as a cooperative node. *)
Definition AsyncFlaky : pyclass :=
  mkClass AsyncNode BaseNode_prep BaseNode_exec BaseNode_post
          Node_exec_fallback
          (λ _ _ h, (Exc boom, h))
          (λ _ _ _ h, (Ret (PStr "FALLBACK"), h)).

Definition classes (c : class_id) : pyclass :=
  match c with
  | 0%nat => Flaky
  | 1%nat => AsyncFlaky
  | 2%nat => module_class Node
  | 3%nat => module_class AsyncFlow
  | 4%nat => Eventually
  | _ => module_class BaseNode
  end.

(** [Flaky(max_retries=2)] alone in the store. *)
Definition flaky_obj : obj := mkObj 0%nat 0%nat 0%nat 2 0 0 None.
Definition flaky_heap : heap := mkHeap [flaky_obj] [∅] [∅].

(** [AsyncFlaky(max_retries=2)] alone in the store. *)
Definition async_flaky_obj : obj := mkObj 1%nat 0%nat 0%nat 2 0 0 None.
Definition async_flaky_heap : heap := mkHeap [async_flaky_obj] [∅] [∅].

(** [Eventually(max_retries=3)] alone in the store. *)
Definition eventually_heap : heap :=
  mkHeap [mkObj 4%nat 0%nat 0%nat 3 0 0 None] [∅] [∅].

(** [Node(max_retries=0)] alone in the store. *)
Definition idle_obj : obj := mkObj 2%nat 0%nat 0%nat 0 0 0 None.
Definition idle_heap : heap := mkHeap [idle_obj] [∅] [∅].

(** Two nodes, not wired. *)
Definition pair_heap : heap :=
  mkHeap [mkObj 2%nat 0%nat 0%nat 1 0 0 None;
          mkObj 2%nat 1%nat 1%nat 1 0 0 None] [∅; ∅] [∅; ∅].

(** A plain synchronous [Node] (object 0) as the entry of an
    [AsyncFlow] (object 1). *)
Definition async_flow_heap : heap :=
  mkHeap [mkObj 2%nat 0%nat 0%nat 1 0 0 None;
          mkObj 3%nat 1%nat 1%nat 1 0 0 (Some 0%nat)]
         [∅; ∅] [∅; ∅].

(** A node (object 0) wired to a second one (object 1) under ["left"]. *)
Definition wired_heap : heap :=
  mkHeap [mkObj 2%nat 0%nat 0%nat 1 0 0 None;
          mkObj 2%nat 1%nat 1%nat 1 0 0 None]
         [∅; ∅] [{["left" := 1%nat]}; ∅].

End Examples.

Module FlowExamples.

(** [d.get(k)] and [d[k] = v] on a dict of the store, for user code. *)
Definition dict_get (h : heap) (d : loc) (k : string) : pyval :=
  default PNone (dicts h !! d ≫= λ m, m !! k).
Definition dict_set (h : heap) (d : loc) (k : string) (v : pyval) : heap :=
  with_dicts h (alter (λ m, <[k := v]> m) d (dicts h)).

(** [prep]: [return self.params.get("seen")] *)
Definition prep_seen (self : loc) (shared : pyval) : hook := λ h,
  match nodes h !! self with
  | Some o => (Ret (dict_get h (params o) "seen"), h)
  | None => (Ret PNone, h)
  end.

(** [post]: [return "again"] on the first call, marking [shared["n"]],
    and ["stop"] afterwards. *)
Definition post_twice (self : loc) (shared prep_res exec_res : pyval)
  : hook := λ h,
  match shared with
  | PDict s =>
      match dict_get h s "n" with
      | PNone => (Ret (PStr "again"), dict_set h s "n" (PInt 1))
      | _ => (Ret (PStr "stop"), h)
      end
  | _ => (Ret (PStr "stop"), h)
  end.

(** [exec]: [self.params["seen"] = True], in place *)
Definition exec_mark (self : loc) (prep_res : pyval) : hook := λ h,
  match nodes h !! self with
  | Some o => (Ret PNone, dict_set h (params o) "seen" (PBool true))
  | None => (Ret PNone, h)
  end.

(** [exec]: [self.params = {"seen": True}], a new dict *)
Definition exec_rebind (self : loc) (prep_res : pyval) : hook := λ h,
  match nodes h !! self with
  | Some o =>
      (Ret PNone,
       with_nodes
         (with_dicts h (dicts h ++ [{["seen" := PBool true]}]))
         (<[self := with_params o (length (dicts h))]> (nodes h)))
  | None => (Ret PNone, h)
  end.

Definition node_class (exec : loc → pyval → hook) : pyclass :=
  mkClass Node prep_seen exec post_twice Node_exec_fallback
          AsyncNode_exec_async AsyncNode_exec_fallback_async.

(** [prep]: [return [self.params.get("i"), self.params.get("j")]] *)
Definition prep_ij (self : loc) (shared : pyval) : hook := λ h,
  match nodes h !! self with
  | Some o =>
      (Ret (PList [dict_get h (params o) "i"; dict_get h (params o) "j"]), h)
  | None => (Ret PNone, h)
  end.

(** A batch flow whose [prep] returns the two dicts at 3 and 4. *)
Definition Sweep : pyclass :=
  mkClass BatchFlow (λ _ _ h, (Ret (PList [PDict 3%nat; PDict 4%nat]), h))
          BaseNode_exec Flow_post Node_exec_fallback
          AsyncNode_exec_async AsyncNode_exec_fallback_async.

Definition Reader : pyclass :=
  mkClass Node prep_ij BaseNode_exec BaseNode_post Node_exec_fallback
          AsyncNode_exec_async AsyncNode_exec_fallback_async.

Definition classes (c : class_id) : pyclass :=
  match c with
  | 0%nat => node_class exec_mark
  | 1%nat => node_class BaseNode_exec
  | 2%nat => node_class exec_rebind
  | 3%nat => module_class Flow
  | 4%nat => Sweep
  | _ => Reader
  end.

(** A node of class [c] (object 0) wired to itself under ["again"], as the
    entry of a flow (object 1); the dict at 2 is the shared state. *)
Definition loop_heap (c : class_id) : heap :=
  mkHeap [mkObj c 0%nat 0%nat 1 0 0 None;
          mkObj 3%nat 1%nat 1%nat 1 0 0 (Some 0%nat)]
         [∅; ∅; ∅] [{["again" := 0%nat]}; ∅].

(** A [Reader] (object 0) as the entry of a [Sweep] (object 1) whose own
    params are [{"i": 9, "j": 5}]; the dicts at 3 and 4 are [{"i": 0}] and
    [{"i": 1}]. *)
Definition sweep_heap : heap :=
  mkHeap [mkObj 5%nat 0%nat 0%nat 1 0 0 None;
          mkObj 4%nat 1%nat 1%nat 1 0 0 (Some 0%nat)]
         [∅; {["i" := PInt 9; "j" := PInt 5]}; ∅;
          {["i" := PInt 0]}; {["i" := PInt 1]}]
         [∅; ∅].

End FlowExamples.

(** * The rest of the module *)

(** [Flow.start] *)
Definition Flow_start (self : loc) (start_node0 : loc) : M loc :=
  let* o := get_node self in
  do* put_node self (with_start_node o (Some start_node0)) in
  ret start_node0.


(** An event of the node [self] itself: a call of one of its methods, or
    a sleep; not a visit. *)
Definition own_event (self : loc) (ev : event) : Prop :=
  match ev with
  | EvPrep s _ _ | EvExec s _ _ _ | EvFallback s _ _ _ | EvPost s _ _ _ _ =>
      s = self
  | EvSleep _ => True
  | EvVisit _ _ _ _ => False
  end.

(** [isinstance(node, AsyncNode)] for an object whose class derives from
    [b]. *)
Definition is_async (b : base_class) : bool :=
  match b with
  | AsyncNode | AsyncBatchNode | AsyncParallelBatchNode
  | AsyncFlow | AsyncBatchFlow | AsyncParallelBatchFlow => true
  | _ => false
  end.

(** The classes whose synchronous [_run] is [AsyncNode._run]. *)
Definition raises_on_sync_run (b : base_class) : bool :=
  match b with
  | AsyncNode | AsyncBatchNode | AsyncParallelBatchNode => true
  | _ => false
  end.

(** Programs for the edges of the engine. *)
Module EdgeExamples.

(** A flow whose prepare raises. *)
Definition Unready : pyclass :=
  mkClass Flow (λ _ _ h, (Exc Examples.boom, h)) BaseNode_exec Flow_post
          Node_exec_fallback AsyncNode_exec_async
          AsyncNode_exec_fallback_async.

(** A [BaseNode] whose execute raises. *)
Definition Fragile : pyclass :=
  mkClass BaseNode BaseNode_prep (λ _ _ h, (Exc Examples.boom, h))
          BaseNode_post Node_exec_fallback AsyncNode_exec_async
          AsyncNode_exec_fallback_async.

(** A retrying node whose execute always raises; the fallback is the one
    of [Node]. *)
Definition Hopeless : pyclass :=
  mkClass Node BaseNode_prep (λ _ _ h, (Exc Examples.boom, h))
          BaseNode_post Node_exec_fallback AsyncNode_exec_async
          AsyncNode_exec_fallback_async.

(** A batch node whose execute raises on the item [0] and returns the
    other items as they are. *)
Definition Picky : pyclass :=
  mkClass BatchNode BaseNode_prep
          (λ _ i h, match i with
                    | PInt 0 => (Exc Examples.boom, h)
                    | _ => (Ret i, h)
                    end)
          BaseNode_post Node_exec_fallback AsyncNode_exec_async
          AsyncNode_exec_fallback_async.

(** A batch flow whose [prep] returns [[5]]. *)
Definition Sloppy : pyclass :=
  mkClass BatchFlow (λ _ _ h, (Ret (PList [PInt 5]), h)) BaseNode_exec
          Flow_post Node_exec_fallback AsyncNode_exec_async
          AsyncNode_exec_fallback_async.

Definition classes (c : class_id) : pyclass :=
  match c with
  | 0%nat => Unready
  | 1%nat => Fragile
  | 2%nat => module_class AsyncNode
  | 3%nat => module_class Flow
  | 4%nat => module_class BatchFlow
  | 5%nat => Hopeless
  | 6%nat => Picky
  | 8%nat => Sloppy
  | _ => module_class Node
  end.

(** One object of class [c], with a budget of [n] attempts and a wait of
    [w] seconds, alone in the store. *)
Definition lone_heap (c : class_id) (n w : Z) : heap :=
  mkHeap [mkObj c 0%nat 0%nat n w 0 None] [∅] [∅].

(** A node of class [c] (object 0) as the entry of a flow of class [f]
    (object 1). *)
Definition entry_heap (c f : class_id) : heap :=
  mkHeap [mkObj c 0%nat 0%nat 1 0 0 None;
          mkObj f 1%nat 1%nat 1 0 0 (Some 0%nat)]
         [∅; ∅] [∅; ∅].

End EdgeExamples.

(** The seconds slept, in order. *)
Fixpoint sleeps (t : list event) : list Z :=
  match t with
  | [] => []
  | EvSleep secs :: t' => secs :: sleeps t'
  | _ :: t' => sleeps t'
  end.

(** User code that leaves the [wait] of [self] alone. *)
Definition keeps_wait (f : hook) (self : loc) : Prop :=
  ∀ h r h' o, f h = (r, h') → nodes h !! self = Some o →
    ∃ o', nodes h' !! self = Some o' ∧ wait o' = wait o.

(** ** What a run leaves of the store *)

(** The store [h'] has the successor dicts of [h] and at least its node
    objects, and the objects of [h] that satisfy [P] are the same in [h']. *)
Definition keeps (P : loc → Prop) (h h' : heap) : Prop :=
  succs h' = succs h ∧ (length (nodes h) ≤ length (nodes h'))%nat ∧
  ∀ i, P i → (i < length (nodes h))%nat → nodes h' !! i = nodes h !! i.

Definition preserves {A} (P : loc → Prop) (m : M A) : Prop :=
  ∀ h r h' t w, m h = Done r h' t w → keeps P h h'.

(** User code that assigns no attribute of a node and wires nothing: it
    works on the dicts. *)
Definition leaves_nodes (f : hook) : Prop :=
  ∀ h r h', f h = (r, h') → nodes h' = nodes h ∧ succs h' = succs h.

Definition works_on_dicts (k : pyclass) : Prop :=
  (∀ self shared, leaves_nodes (prep k self shared)) ∧
  (∀ self p, leaves_nodes (exec k self p)) ∧
  (∀ self shared p x, leaves_nodes (post k self shared p x)) ∧
  (∀ self p e, leaves_nodes (exec_fallback k self p e)).

(** * The cooperative classes *)

(** [await f(x)] is the call of [f], and what a user coroutine does is
    one step on the store, as for the synchronous methods: a user coroutine
    does not suspend.  The coroutines of the module suspend in two places,
    [asyncio.sleep] and [asyncio.gather].  Run as the only task, a
    coroutine that sleeps goes on where it was, on the same store.  The
    tasks of a [gather] are run by the event loop in the order they were
    given, each until it suspends; here they are followed as long as none
    of them suspends, and a task of a [gather] that sleeps or gathers in
    turn stops the computation with [Unmodelled].  The calls of
    [prep_async] and [post_async] are recorded with the events of [prep]
    and [post]. *)

(** The two phases that [pyclass] lacks, as the resolution order finds
    them. *)
Record async_class := mkAsync {
  prep_async : loc → pyval → hook;
  post_async : loc → pyval → pyval → pyval → hook
}.

Definition AsyncNode_prep_async (self : loc) (shared : pyval) : hook :=
  λ h, (Ret PNone, h).
Definition AsyncNode_post_async (self : loc) (shared prep_res exec_res : pyval)
  : hook := λ h, (Ret PNone, h).
Definition AsyncFlow_post_async (self : loc) (shared prep_res exec_res : pyval)
  : hook := λ h, (Ret exec_res, h).

(** A cooperative class of the module itself: [post_async] is
    [AsyncFlow.post_async] for the flows. *)
Definition module_async (b : base_class) : async_class :=
  mkAsync AsyncNode_prep_async
          (if is_flow b then AsyncFlow_post_async else AsyncNode_post_async).

Definition AttributeError (msg : string) : exn := Exn "AttributeError" msg.

Section AsyncEngine.

Variable ct : class_id → pyclass.
Variable act : class_id → async_class.

Definition call_prep_async (self : loc) (shared : pyval) : M pyval :=
  let* o := get_node self in
  call (prep_async (act (cls o)) self shared) (EvPrep self shared).

Definition call_post_async (self : loc) (shared prep_res exec_res : pyval)
  : M pyval :=
  let* o := get_node self in
  call (post_async (act (cls o)) self shared prep_res exec_res)
       (EvPost self shared prep_res exec_res).

(** ** AsyncNode *)

(** [_run_async] of [AsyncNode]; [_exec] is the method the class of
    [self] has. *)
Definition AsyncNode__run_async (_exec : loc → pyval → M pyval)
    (self : loc) (shared : pyval) : M pyval :=
  let* prep_result := call_prep_async self shared in
  let* exec_result := _exec self prep_result in
  let* post_result := call_post_async self shared prep_result exec_result in
  ret post_result.

(** ** AsyncBatchNode *)

(** The loop of [_exec], [results] being the list built so far. *)
Fixpoint AsyncBatchNode__exec_for (self : loc) (items : list pyval)
    (results : list pyval) : M (list pyval) :=
  match items with
  | [] => ret results
  | i :: rest =>
      let* r := AsyncNode__exec ct self i in
      AsyncBatchNode__exec_for self rest (results ++ [r])
  end.

Definition AsyncBatchNode__exec (self : loc) (items : pyval) : M pyval :=
  let* seq := py_or items (PList []) in
  let* l := py_iter seq in
  let* results := AsyncBatchNode__exec_for self l [] in
  ret (PList results).

(** ** asyncio.gather *)

(** A coroutine run as a task of a [gather]: one that has slept has
    suspended, and the other tasks have run in between. *)
Definition never_suspends {A} (m : M A) : M A := λ h,
  match m h with
  | Done r h1 t w =>
      if bool_decide (sleeps t = []) then Done r h1 t w else Stuck Unmodelled
  | Stuck s => Stuck s
  end.

(** The event loop on tasks that do not suspend: it runs the first step
    of each, in the order they were given, and that step is the whole
    task, whatever the tasks before it returned or raised. *)
Fixpoint run_tasks (tasks : list (M pyval)) : M (list (outcome pyval)) :=
  match tasks with
  | [] => ret []
  | m :: rest =>
      let* r := catch m in
      let* rs := run_tasks rest in
      ret (r :: rs)
  end.

(** What [gather] hands to the coroutine that awaits it, from the
    outcomes of the tasks in their order: the first exception, or the list
    of the results. *)
Fixpoint settle (rs : list (outcome pyval)) : outcome (list pyval) :=
  match rs with
  | [] => Ret []
  | Exc e :: _ => Exc e
  | Ret v :: rs' =>
      match settle rs' with
      | Ret vs => Ret (v :: vs)
      | Exc e => Exc e
      end
  end.

(** [await asyncio.gather] on the coroutines [tasks] *)
Definition gather (tasks : list (M pyval)) : M (list pyval) :=
  let* rs := run_tasks tasks in
  match settle rs with
  | Ret vs => ret vs
  | Exc e => raise e
  end.

(** ** AsyncParallelBatchNode *)

(** The comprehension only builds the coroutines; they run in [gather].
    [gathered] says that [_exec] itself runs in a task of a [gather]. *)
Definition AsyncParallelBatchNode__exec (gathered : bool) (self : loc)
    (items : pyval) : M pyval :=
  let* t := truthy items in
  if negb t then ret (PList [])
  else
    let* l := py_iter items in
    if gathered then halt Unmodelled
    else
      let* results :=
        gather ((λ i, never_suspends (AsyncNode__exec ct self i)) <$> l) in
      ret (PList results).

(** ** AsyncFlow *)

(** What the loop of [_orch_async] does with the current node: it awaits
    [_run_async] if the node is an [AsyncNode], and calls [_run] if not. *)
Definition run_either (run_async_node run_node : loc → pyval → M pyval)
    (current_node : loc) (shared : pyval) : M pyval :=
  let* o := get_node current_node in
  if is_async (base (ct (cls o))) then run_async_node current_node shared
  else run_node current_node shared.

(** [_orch_async] is [_orch] with that step in the loop. *)
Definition _orch_async (run_async_node run_node : loc → pyval → M pyval)
    (fuel : nat) (self : loc) (shared : pyval) (params0 : option loc)
  : M pyval :=
  _orch (run_either run_async_node run_node) fuel self shared params0.

Definition AsyncFlow__run_async
    (orch_async : loc → pyval → option loc → M pyval)
    (self : loc) (shared : pyval) : M pyval :=
  let* prep_result := call_prep_async self shared in
  let* orch_result := orch_async self shared None in
  call_post_async self shared prep_result orch_result.

(** ** AsyncBatchFlow *)

(** The loop over the batches is the one of [BatchFlow._run], around
    [_orch_async]. *)
Definition AsyncBatchFlow__run_async
    (orch_async : loc → pyval → option loc → M pyval)
    (self : loc) (shared : pyval) : M pyval :=
  let* p := call_prep_async self shared in
  let* prep_results_list := py_or p (PList []) in
  let* bs := py_iter prep_results_list in
  do* BatchFlow__run_for orch_async self shared bs in
  call_post_async self shared prep_results_list PNone.

(** ** AsyncParallelBatchFlow *)

(** The loop that builds the tasks: one dict display per batch, no
    traversal yet. *)
Fixpoint AsyncParallelBatchFlow_tasks (self : loc)
    (prep_results_list : list pyval) : M (list loc) :=
  match prep_results_list with
  | [] => ret []
  | batch_params :: rest =>
      let* o := get_node self in
      let* a := get_dict (params o) in
      let* b := as_mapping batch_params in
      let* combined_params := alloc_dict (dict_display a b) in
      let* tasks := AsyncParallelBatchFlow_tasks self rest in
      ret (combined_params :: tasks)
  end.

(** [orch_task self shared (Some p)] is [self._orch_async(shared, p)] run
    as a task of the [gather]. *)
Definition AsyncParallelBatchFlow__run_async (gathered : bool)
    (orch_task : loc → pyval → option loc → M pyval)
    (self : loc) (shared : pyval) : M pyval :=
  let* p := call_prep_async self shared in
  let* prep_results_list := py_or p (PList []) in
  let* t := truthy prep_results_list in
  if negb t then call_post_async self shared (PList []) PNone
  else
    let* bs := py_iter prep_results_list in
    let* tasks := AsyncParallelBatchFlow_tasks self bs in
    if gathered then halt Unmodelled
    else
      do* gather ((λ combined_params,
                     orch_task self shared (Some combined_params)) <$> tasks) in
      call_post_async self shared prep_results_list PNone.

(** ** Method resolution *)

Definition in_task {A} (gathered : bool) (m : M A) : M A :=
  if gathered then never_suspends m else m.

(** [await self._run_async(shared)], in a task of a [gather] if
    [gathered].  A class that does not derive from [AsyncNode] has no such
    method; the text of the error, which names the class, is left out. *)
Fixpoint _run_async_in (gathered : bool) (fuel : nat) (self : loc)
    (shared : pyval) {struct fuel} : M pyval :=
  match fuel with
  | O => halt OutOfFuel
  | S fuel' =>
      let* o := get_node self in
      match base (ct (cls o)) with
      | AsyncNode =>
          in_task gathered
            (AsyncNode__run_async (AsyncNode__exec ct) self shared)
      | AsyncBatchNode =>
          in_task gathered
            (AsyncNode__run_async AsyncBatchNode__exec self shared)
      | AsyncParallelBatchNode =>
          AsyncNode__run_async (AsyncParallelBatchNode__exec gathered)
                               self shared
      | AsyncFlow =>
          AsyncFlow__run_async
            (_orch_async (_run_async_in gathered fuel') (_run ct fuel') fuel')
            self shared
      | AsyncBatchFlow =>
          AsyncBatchFlow__run_async
            (_orch_async (_run_async_in gathered fuel') (_run ct fuel') fuel')
            self shared
      | AsyncParallelBatchFlow =>
          AsyncParallelBatchFlow__run_async gathered
            (_orch_async (_run_async_in true fuel') (_run ct fuel') fuel')
            self shared
      | BaseNode | Node | BatchNode | Flow | BatchFlow =>
          raise (AttributeError "object has no attribute '_run_async'")
      end
  end.

(** [await self._run_async(shared)] in the task that is running. *)
Definition _run_async (fuel : nat) (self : loc) (shared : pyval) : M pyval :=
  _run_async_in false fuel self shared.

End AsyncEngine.

(** The results of a batch item by item: each item is one call of the
    cooperative retry wrapper, on the store the item before left. *)
Inductive async_per_item (ct : class_id → pyclass) (self : loc)
  : list pyval → heap → list pyval → heap → list event → list warning → Prop :=
| async_per_item_nil h : async_per_item ct self [] h [] h [] []
| async_per_item_cons i rest h v h1 t1 w1 rs h2 t2 w2 :
    AsyncNode__exec ct self i h = Done (Ret v) h1 t1 w1 →
    async_per_item ct self rest h1 rs h2 t2 w2 →
    async_per_item ct self (i :: rest) h (v :: rs) h2 (t1 ++ t2) (w1 ++ w2).

(** Two programs with the same cooperative methods. *)
Definition same_async_methods (ct1 ct2 : class_id → pyclass) : Prop :=
  ∀ c, base (ct1 c) = base (ct2 c) ∧
       exec_async (ct1 c) = exec_async (ct2 c) ∧
       exec_fallback_async (ct1 c) = exec_fallback_async (ct2 c).

(** Programs with cooperative nodes. *)
Module AsyncExamples.

(** A cooperative node that also overrides the synchronous methods, all
    of which raise; its [exec_async] returns ["ok"]. *)
Definition Loud : pyclass :=
  mkClass AsyncNode (λ _ _ h, (Exc Examples.boom, h))
          (λ _ _ h, (Exc Examples.boom, h))
          (λ _ _ _ _ h, (Exc Examples.boom, h))
          (λ _ _ _ h, (Exc Examples.boom, h))
          (λ _ _ h, (Ret (PStr "ok"), h))
          AsyncNode_exec_fallback_async.

(** The same node without those overrides. *)
Definition Plain : pyclass :=
  mkClass AsyncNode BaseNode_prep BaseNode_exec BaseNode_post
          Node_exec_fallback
          (λ _ _ h, (Ret (PStr "ok"), h))
          AsyncNode_exec_fallback_async.

(** A cooperative batch node whose [exec_async] returns its item. *)
Definition Echo : pyclass :=
  mkClass AsyncBatchNode BaseNode_prep BaseNode_exec BaseNode_post
          Node_exec_fallback
          (λ _ i h, (Ret i, h))
          AsyncNode_exec_fallback_async.

Definition classes (c : class_id) : pyclass :=
  match c with
  | 0%nat => Plain
  | 1%nat => Echo
  | 2%nat => module_class AsyncFlow
  | 3%nat => module_class AsyncBatchFlow
  | 4%nat => module_class AsyncParallelBatchFlow
  | _ => module_class Node
  end.

(** [post_async] returns ["done"] for the nodes. *)
Definition phases (c : class_id) : async_class :=
  match c with
  | 0%nat | 1%nat =>
      mkAsync AsyncNode_prep_async (λ _ _ _ _ h, (Ret (PStr "done"), h))
  | 2%nat => module_async AsyncFlow
  | 3%nat => module_async AsyncBatchFlow
  | 4%nat => module_async AsyncParallelBatchFlow
  | _ => module_async AsyncNode
  end.

(** A cooperative node (object 0) wired under ["done"] to a plain [Node]
    (object 1), as the entry of an [AsyncFlow] (object 2). *)
Definition mixed_heap : heap :=
  mkHeap [mkObj 0%nat 0%nat 0%nat 1 0 0 None;
          mkObj 5%nat 1%nat 1%nat 1 0 0 None;
          mkObj 2%nat 2%nat 2%nat 1 0 0 (Some 0%nat)]
         [∅; ∅; ∅] [{["done" := 1%nat]}; ∅; ∅].

End AsyncExamples.

(** * Visits, copies and traversals side by side *)

(** The visits a traversal makes from the head of its loop, where [cur]
    is the object to visit next and [h] the store.  A visit is made on
    [cur] once the interpreter has set its [params] to [np].  When the
    traversal goes on, the object of the next visit is a new object, the
    shallow copy of the successor [n] that [get_next_node] chose: it is
    appended to the store with the attributes [n] has, and [n] stays as it
    is. *)
Inductive on_copies (rn : loc → pyval → M pyval) (self : loc)
    (shared : pyval) (np : loc) : option loc → heap → list event → Prop :=
| on_copies_end h : on_copies rn self shared np None h []
| on_copies_last c oc h r h1 inner w1 :
    nodes h !! c = Some oc →
    rn c shared (with_nodes h (<[c := with_params oc np]> (nodes h)))
      = Done r h1 inner w1 →
    on_copies rn self shared np (Some c) h [EvVisit c np r inner]
| on_copies_next c oc h a h1 inner w1 n on w2 t :
    nodes h !! c = Some oc →
    rn c shared (with_nodes h (<[c := with_params oc np]> (nodes h)))
      = Done (Ret a) h1 inner w1 →
    get_next_node self c a h1 = Done (Ret (Some n)) h1 [] w2 →
    nodes h1 !! n = Some on →
    on_copies rn self shared np (Some (length (nodes h1)))
              (with_nodes h1 (nodes h1 ++ [on])) t →
    on_copies rn self shared np (Some c) h (EvVisit c np (Ret a) inner :: t).

(** A traversal of the flow [self] started on the store [h] with the
    params [p], and its events [t].  The first object visited is a new
    object, the shallow copy of the entry node, which stays as it is; the
    params object [np] of the traversal is [p or {**self.params}]; every
    visit starts with [np] as the [params] of the object visited; and
    every visit is made on a copy. *)
Definition on_new_copies (rn : loc → pyval → M pyval) (self : loc)
    (shared : pyval) (p : option loc) (h : heap) (t : list event) : Prop :=
  ∃ o cur h0 np hs,
    nodes h !! self = Some o ∧
    copy (start_node o) h = Done (Ret cur) h0 [] [] ∧
    match start_node o with
    | None => cur = None
    | Some n =>
        ∃ on, nodes h !! n = Some on ∧ cur = Some (length (nodes h)) ∧
              h0 = with_nodes h (nodes h ++ [on])
    end ∧
    node_params_of self p h0 = Done (Ret np) hs [] [] ∧
    nodes hs = nodes h0 ∧
    Forall (visit_with np) t ∧
    on_copies rn self shared np cur hs t.

(** The traversals that a [gather] runs, one per params object of
    [tasks], from the store [h]: their outcomes, the store they leave, and
    their events, traversal after traversal. *)
Inductive gathered (rn : loc → pyval → M pyval) (fuel : nat) (self : loc)
    (shared : pyval)
  : list loc → heap → list (outcome pyval) → heap → list event →
    list warning → Prop :=
| gathered_nil h : gathered rn fuel self shared [] h [] h [] []
| gathered_cons cp rest h r h1 t1 w1 rs h2 t2 w2 :
    _orch rn fuel self shared (Some cp) h = Done r h1 t1 w1 →
    on_new_copies rn self shared (Some cp) h t1 →
    gathered rn fuel self shared rest h1 rs h2 t2 w2 →
    gathered rn fuel self shared (cp :: rest) h (r :: rs) h2
             (t1 ++ t2) (w1 ++ w2).

(** A parallel batch flow over a node that marks its params. *)
Module ParallelExamples.

Definition classes (c : class_id) : pyclass :=
  match c with
  | 0%nat => FlowExamples.node_class FlowExamples.exec_mark
  | _ => module_class AsyncParallelBatchFlow
  end.

(** [prep_async] of the flow returns the two dicts at 3 and 4. *)
Definition phases (c : class_id) : async_class :=
  mkAsync (λ _ _ h, (Ret (PList [PDict 3%nat; PDict 4%nat]), h))
          AsyncFlow_post_async.


End ParallelExamples.

(** A computation that only reads the store: it leaves it as it is and
    calls no user code. *)
Definition reader {A} (m : M A) : Prop :=
  ∀ h r h' t w, m h = Done r h' t w → h' = h ∧ t = [].


(** A parallel batch node that fails on one item. *)
Module GatherExamples.

(** [exec_async] raises on the item [0] and returns the other items as
    they are; the fallback is the one of [AsyncNode]. *)
Definition Choosy : pyclass :=
  mkClass AsyncParallelBatchNode BaseNode_prep BaseNode_exec BaseNode_post
          Node_exec_fallback
          (λ _ i h, match i with
                    | PInt 0 => (Exc Examples.boom, h)
                    | _ => (Ret i, h)
                    end)
          AsyncNode_exec_fallback_async.

Definition classes (c : class_id) : pyclass := Choosy.

End GatherExamples.

(** * Properties *)

(** ** The monad *)

Lemma bind_Ret {A B} (m : M A) (k : A → M B) h a h1 t1 w1 :
  m h = Done (Ret a) h1 t1 w1 →
  bind m k h =
    match k a h1 with
    | Stuck s => Stuck s
    | Done r h2 t2 w2 => Done r h2 (t1 ++ t2) (w1 ++ w2)
    end.
Proof. intros E. unfold bind. by rewrite E. Qed.

Lemma bind_Exc {A B} (m : M A) (k : A → M B) h e h1 t1 w1 :
  m h = Done (Exc e) h1 t1 w1 → bind m k h = Done (Exc e) h1 t1 w1.
Proof. intros E. unfold bind. by rewrite E. Qed.

Lemma bind_pure {A B} (m : M A) (k : A → M B) h a :
  m h = Done (Ret a) h [] [] → bind m k h = k a h.
Proof.
  intros E. rewrite (bind_Ret _ _ _ _ _ _ _ E). by destruct (k a h).
Qed.

Lemma bind_Done {A B} (m : M A) (k : A → M B) h r h' t w :
  bind m k h = Done r h' t w →
  (∃ e, m h = Done (Exc e) h' t w ∧ r = Exc e) ∨
  (∃ a h1 t1 w1 t2 w2,
      m h = Done (Ret a) h1 t1 w1 ∧ k a h1 = Done r h' t2 w2 ∧
      t = t1 ++ t2 ∧ w = w1 ++ w2).
Proof.
  unfold bind. destruct (m h) as [[a|e] h1 t1 w1|s]; [| |done].
  - destruct (k a h1) as [r2 h2 t2 w2|s] eqn:E; [|done].
    intros [= <- <- <- <-]. right. by exists a, h1, t1, w1, t2, w2.
  - intros [= <- <- <- <-]. left. by exists e.
Qed.

Lemma get_node_Some l h o :
  nodes h !! l = Some o → get_node l h = Done (Ret o) h [] [].
Proof. intros E. unfold get_node. by rewrite E. Qed.

Lemma get_node_Done l h r h' t w :
  get_node l h = Done r h' t w →
  ∃ o, nodes h !! l = Some o ∧ r = Ret o ∧ h' = h ∧ t = [] ∧ w = [].
Proof.
  unfold get_node. destruct (nodes h !! l) as [o|]; [|done].
  intros [= <- <- <- <-]. by exists o.
Qed.

Lemma get_succs_Some l h m :
  succs h !! l = Some m → get_succs l h = Done (Ret m) h [] [].
Proof. intros E. unfold get_succs. by rewrite E. Qed.

Lemma get_dict_Some l h d :
  dicts h !! l = Some d → get_dict l h = Done (Ret d) h [] [].
Proof. intros E. unfold get_dict. by rewrite E. Qed.

(** Run the first read of the store in the goal, or in [E], from what the
    context knows of the cell. *)
Ltac read :=
  match goal with
  | H : nodes ?h !! ?l = Some _ |- context [bind (get_node ?l) _ ?h] =>
      rewrite (bind_pure _ _ h _ (get_node_Some _ _ _ H))
  | H : succs ?h !! ?l = Some _ |- context [bind (get_succs ?l) _ ?h] =>
      rewrite (bind_pure _ _ h _ (get_succs_Some _ _ _ H))
  | H : dicts ?h !! ?l = Some _ |- context [bind (get_dict ?l) _ ?h] =>
      rewrite (bind_pure _ _ h _ (get_dict_Some _ _ _ H))
  end.

Ltac read_in E :=
  match type of E with
  | context [bind (get_node ?l) _ ?h] =>
      match goal with
      | H : nodes h !! l = Some _ |- _ =>
          rewrite (bind_pure _ _ h _ (get_node_Some _ _ _ H)) in E
      end
  | context [bind (get_dict ?l) _ ?h] =>
      match goal with
      | H : dicts h !! l = Some _ |- _ =>
          rewrite (bind_pure _ _ h _ (get_dict_Some _ _ _ H)) in E
      end
  end.

(** ** Transitions *)

Lemma next_Done self node action h o m :
  nodes h !! self = Some o → succs h !! successors o = Some m →
  next self node action h =
    Done (Ret node)
         (with_succs h (<[successors o := <[action := node]> m]> (succs h)))
         []
         (if bool_decide (is_Some (m !! action))
          then [Overwriting action] else []).
Proof.
  intros Ho Hm. unfold next.
  read.
  read.
  unfold bind, put_succs, warn, ret.
  by destruct (bool_decide (is_Some (m !! action))).
Qed.

(** C9: for nodes [from] and [to] and a string [label], the two-step
    shorthand [(from - label) >> to] is the same computation as
    [from.next(to, label)]: the same store, the same warnings, the same
    result; on a store that holds [from] both return [to] and leave the
    successor dict of [from] with [label] mapped to [to]; and [from - v]
    for a [v] that is not a string raises a TypeError and changes nothing. *)
Theorem shorthand_same_as_next (from to : loc) (label : string) (h : heap)
    (o : obj) (m : gmap string loc) :
  nodes h !! from = Some o → succs h !! successors o = Some m →
  (let* tr := __sub__ from (PStr label) in _ConditionalTransition___rshift__ tr to) h
    = next from to label h ∧
  next from to label h =
    Done (Ret to)
         (with_succs h (<[successors o := <[label := to]> m]> (succs h)))
         []
         (if bool_decide (is_Some (m !! label))
          then [Overwriting label] else []) ∧
  ∀ v, (∀ s, v ≠ PStr s) →
       __sub__ from v h = Done (Exc (TypeError "Action must be a string")) h [] [].
Proof.
  intros Ho Hm. split; [|split].
  - unfold __sub__. by rewrite (bind_pure _ _ h _ eq_refl).
  - by apply next_Done.
  - intros v Hv. destruct v; try done. by destruct (Hv s).
Qed.

Lemma shorthand_same_as_next_witness :
  (let* tr := __sub__ 0%nat (PStr "left") in _ConditionalTransition___rshift__ tr 1%nat)
    Examples.pair_heap
    = next 0%nat 1%nat "left" Examples.pair_heap ∧
  next 0%nat 1%nat "left" Examples.pair_heap =
    Done (Ret 1%nat)
         (with_succs Examples.pair_heap
            (<[0%nat := <["left" := 1%nat]> ∅]> (succs Examples.pair_heap)))
         [] [] ∧
  ∀ v, (∀ s, v ≠ PStr s) →
       __sub__ 0%nat v Examples.pair_heap
       = Done (Exc (TypeError "Action must be a string")) Examples.pair_heap
              [] [].
Proof.
  exact (shorthand_same_as_next 0%nat 1%nat "left" Examples.pair_heap
           (mkObj 2%nat 0%nat 0%nat 1 0 0 None) ∅ eq_refl eq_refl).
Defined.

(** ** Counting in a trace *)

Lemma count_app f t1 t2 : count f (t1 ++ t2) = (count f t1 + count f t2)%nat.
Proof. induction t1 as [|ev t1 IH]; simpl; [done|]. rewrite IH. lia. Qed.

Lemma count_pause f sl :
  (∀ secs, f (EvSleep secs) = false) → pause sl → count f sl = 0%nat.
Proof. intros Hf [->|[secs ->]]; simpl; [done|]. by rewrite Hf. Qed.

Lemma retries_read_app t1 t2 :
  retries_read (t1 ++ t2) = retries_read t1 ++ retries_read t2.
Proof.
  induction t1 as [|ev t1 IH]; simpl; [done|].
  destruct ev; simpl; by rewrite ?IH.
Qed.

Lemma retries_read_pause sl : pause sl → retries_read sl = [].
Proof. by intros [->|[secs ->]]. Qed.

(** ** The retry state machine *)

Lemma attempting_counts self p N seen k t r :
  attempting self p N seen k t r →
  Z.of_nat (count is_exec t) ≤ N - k ∧
  (count is_fallback t ≤ 1)%nat ∧
  (count is_fallback t = 1%nat → Z.of_nat (count raised t) = N - k) ∧
  (Z.of_nat (count raised t) = N - k →
     ∃ t0 e, t = t0 ++ [EvExec self (seen (N - 1)) p (Exc e);
                        EvFallback self p e r] ∧
             count is_fallback t0 = 0%nat).
Proof.
  induction 1 as [k v Hk|e r|k e sl t r Hk Hsl Hat (IH1 & IH2 & IH3 & IH4)].
  - simpl. repeat split; try lia.
  - simpl. repeat split; try lia. intros _. by exists [], e.
  - simpl. rewrite !count_app.
    rewrite (count_pause is_exec sl), (count_pause is_fallback sl),
      (count_pause raised sl) by done.
    simpl. repeat split; try lia.
    intros Hr. destruct IH4 as (t0 & e' & -> & Ht0); [lia|].
    exists (EvExec self (seen k) p (Exc e) :: sl ++ t0), e'. split.
    + simpl. by rewrite <- app_assoc.
    + simpl. rewrite count_app, (count_pause is_fallback sl) by done. lia.
Qed.

Lemma attempting_bound self p N seen t r res h' :
  1 ≤ N → res = Done r h' t [] → attempting self p N seen 0 t r →
  attempt_bound res self p N.
Proof.
  intros HN -> Hat.
  destruct (attempting_counts _ _ _ _ _ _ _ Hat) as (H1 & H2 & H3 & H4).
  exists r, h', t. split; [done|]. split; [lia|]. split; [done|]. split.
  - intros Hf. specialize (H3 Hf). lia.
  - intros Hr. destruct H4 as (t0 & e & -> & Ht0); [lia|].
    by exists t0, (seen (N - 1)), e.
Qed.

(** During attempt [k] of an engine that sets the retry index, user code
    reads [k]: the indices read are [k], [k + 1], ... *)
Lemma attempting_id_retries_read self p N a t r :
  attempting self p N id (Z.of_nat a) t r →
  retries_read t = Z.of_nat <$> seq a (count is_exec t).
Proof.
  remember (Z.of_nat a) as k eqn:Ek. intros Hat. revert a Ek.
  induction Hat as [k v Hk|e r|k e sl t r Hk Hsl Hat IH]; intros a Ek.
  - simpl. unfold id. by rewrite Ek.
  - simpl. unfold id. by rewrite Ek.
  - simpl. rewrite retries_read_app, count_app, (retries_read_pause sl),
      (count_pause is_exec sl) by done.
    simpl. rewrite Ek. f_equal. apply IH. lia.
Qed.

Lemma bind_quiet {A B} (m : M A) (k : A → M B) h a h1 :
  m h = Done (Ret a) h1 [] [] → bind m k h = k a h1.
Proof.
  intros E. rewrite (bind_Ret _ _ _ _ _ _ _ E). by destruct (k a h1).
Qed.

Lemma put_node_lookup l o h o0 :
  nodes h !! l = Some o0 →
  nodes (with_nodes h (<[l := o]> (nodes h))) !! l = Some o.
Proof.
  intros E. simpl. apply list_lookup_insert_eq. by eapply lookup_lt_Some.
Qed.

(** A call of a method of the class of [self]: it needs [self] in the
    store, and leaves one event and no warning. *)
Lemma called_inv (f : obj → hook) (ev : obj → outcome pyval → event)
    self h r h' t w :
  (let* o := get_node self in call (f o) (ev o)) h = Done r h' t w →
  ∃ o, nodes h !! self = Some o ∧ f o h = (r, h') ∧ t = [ev o r] ∧ w = [].
Proof.
  destruct (nodes h !! self) as [o|] eqn:Ho.
  - read. unfold call. destruct (f o h) as [r1 h1] eqn:Ef.
    intros [= <- <- <- <-]. by exists o.
  - unfold bind, get_node. by rewrite Ho.
Qed.

Lemma catch_Done {A} (m : M A) h r h' t w :
  catch m h = Done r h' t w → ∃ r0, r = Ret r0 ∧ m h = Done r0 h' t w.
Proof.
  unfold catch. destruct (m h) as [r0 h0 t0 w0|]; [|done].
  intros [= <- <- <- <-]. by exists r0.
Qed.

Lemma pause_inv (secs : Z) h r h' t w :
  (if 0 <? secs then sleep secs else ret tt) h = Done r h' t w →
  r = Ret tt ∧ h' = h ∧ pause t ∧ w = [].
Proof.
  destruct (0 <? secs); intros [= <- <- <- <-]; repeat split.
  - right. by exists secs.
  - by left.
Qed.

Section Retry.

Variable ct : class_id → pyclass.

(** Whatever user code does, the range bounds the calls of execute, and
    the fallback is called once at most. *)
Lemma Node__exec_for_counts ks : ∀ self p h r h' t w,
  Node__exec_for ct ks self p h = Done r h' t w →
  (count is_exec t ≤ length ks)%nat ∧ (count is_fallback t ≤ 1)%nat.
Proof.
  induction ks as [|k ks IH]; intros self p h r h' t w E.
  { injection E as <- <- <- <-. simpl. lia. }
  cbn [Node__exec_for] in E.
  apply bind_Done in E as [(e & E & _)|E].
  { by apply get_node_Done in E as (? & _ & [=] & _). }
  destruct E as (o & h0 & t0 & w0 & t1 & w1 & Eg & E & -> & ->).
  apply get_node_Done in Eg as (? & Ho & [= <-] & -> & -> & ->).
  rewrite (bind_quiet _ _ h tt _ eq_refl) in E.
  apply bind_Done in E as [(e & E & _)|E].
  { by apply catch_Done in E as (? & [=] & _). }
  destruct E as (r2 & h2 & t2 & w2 & t3 & w3 & Ec & E & -> & ->).
  apply catch_Done in Ec as (? & [= <-] & Ec).
  apply called_inv in Ec as (o1 & _ & _ & -> & ->).
  destruct r2 as [v|e].
  { injection E as <- <- <- <-. simpl. lia. }
  apply bind_Done in E as [(e' & E & _)|E].
  { by apply get_node_Done in E as (? & _ & [=] & _). }
  destruct E as (o2 & h3 & t4 & w4 & t5 & w5 & Eg & E & -> & ->).
  apply get_node_Done in Eg as (? & Ho2 & [= <-] & -> & -> & ->).
  destruct (cur_retry o2 =? max_retries o2 - 1).
  { apply called_inv in E as (o3 & _ & _ & -> & ->). simpl. lia. }
  apply bind_Done in E as [(e' & E & _)|E].
  { by apply pause_inv in E as ([=] & _). }
  destruct E as ([] & h4 & t6 & w6 & t7 & w7 & Ep & E & -> & ->).
  apply pause_inv in Ep as (_ & -> & Hsl & ->).
  destruct (IH _ _ _ _ _ _ _ E) as [IH1 IH2].
  simpl. rewrite !count_app.
  rewrite (count_pause is_exec t6), (count_pause is_fallback t6) by done.
  lia.
Qed.

Lemma AsyncNode__exec_for_counts ixs : ∀ self p h r h' t w,
  AsyncNode__exec_for ct ixs self p h = Done r h' t w →
  (count is_exec t ≤ length ixs)%nat ∧ (count is_fallback t ≤ 1)%nat.
Proof.
  induction ixs as [|i ixs IH]; intros self p h r h' t w E.
  { injection E as <- <- <- <-. simpl. lia. }
  cbn [AsyncNode__exec_for] in E.
  apply bind_Done in E as [(e & E & _)|E].
  { by apply catch_Done in E as (? & [=] & _). }
  destruct E as (r2 & h2 & t2 & w2 & t3 & w3 & Ec & E & -> & ->).
  apply catch_Done in Ec as (? & [= <-] & Ec).
  apply called_inv in Ec as (o1 & _ & _ & -> & ->).
  destruct r2 as [v|e].
  { injection E as <- <- <- <-. simpl. lia. }
  apply bind_Done in E as [(e' & E & _)|E].
  { by apply get_node_Done in E as (? & _ & [=] & _). }
  destruct E as (o2 & h3 & t4 & w4 & t5 & w5 & Eg & E & -> & ->).
  apply get_node_Done in Eg as (? & Ho2 & [= <-] & -> & -> & ->).
  destruct (i =? max_retries o2 - 1).
  { apply called_inv in E as (o3 & _ & _ & -> & ->). simpl. lia. }
  apply bind_Done in E as [(e' & E & _)|E].
  { by apply pause_inv in E as ([=] & _). }
  destruct E as ([] & h4 & t6 & w6 & t7 & w7 & Ep & E & -> & ->).
  apply pause_inv in Ep as (_ & -> & Hsl & ->).
  destruct (IH _ _ _ _ _ _ _ E) as [IH1 IH2].
  simpl. rewrite !count_app.
  rewrite (count_pause is_exec t6), (count_pause is_fallback t6) by done.
  lia.
Qed.

Lemma range_length N : Z.of_nat (length (range N)) = Z.max 0 N.
Proof. unfold range. rewrite length_fmap, length_seq. lia. Qed.

Lemma call_exec_Done self p h o r h' :
  nodes h !! self = Some o → exec (ct (cls o)) self p h = (r, h') →
  call_exec ct self p h = Done r h' [EvExec self (cur_retry o) p r] [].
Proof.
  intros Ho E. unfold call_exec.
  read.
  unfold call. by rewrite E.
Qed.

Lemma call_exec_async_Done self p h o r h' :
  nodes h !! self = Some o → exec_async (ct (cls o)) self p h = (r, h') →
  call_exec_async ct self p h = Done r h' [EvExec self (cur_retry o) p r] [].
Proof.
  intros Ho E. unfold call_exec_async.
  read.
  unfold call. by rewrite E.
Qed.

Lemma call_exec_fallback_Done self p e h o :
  nodes h !! self = Some o →
  ∃ r h', exec_fallback (ct (cls o)) self p e h = (r, h') ∧
          call_exec_fallback ct self p e h
          = Done r h' [EvFallback self p e r] [].
Proof.
  intros Ho. unfold call_exec_fallback.
  read.
  unfold call. destruct (exec_fallback _ _ _ _ _) as [r h']. by exists r, h'.
Qed.

Lemma call_exec_fallback_async_Done self p e h o :
  nodes h !! self = Some o →
  ∃ r h', call_exec_fallback_async ct self p e h
          = Done r h' [EvFallback self p e r] [].
Proof.
  intros Ho. unfold call_exec_fallback_async.
  read.
  unfold call. destruct (exec_fallback_async _ _ _ _ _) as [r h'].
  by exists r, h'.
Qed.

Lemma call_prep_Done self shared h o r h' :
  nodes h !! self = Some o → prep (ct (cls o)) self shared h = (r, h') →
  call_prep ct self shared h = Done r h' [EvPrep self shared r] [].
Proof.
  intros Ho E. unfold call_prep.
  read.
  unfold call. by rewrite E.
Qed.

Lemma call_post_Done self shared p x h o r h' :
  nodes h !! self = Some o → post (ct (cls o)) self shared p x h = (r, h') →
  call_post ct self shared p x h = Done r h' [EvPost self shared p x r] [].
Proof.
  intros Ho E. unfold call_post.
  read.
  unfold call. by rewrite E.
Qed.

(** The pause between two attempts leaves the store alone. *)
Lemma pause_Done (w : Z) h :
  ∃ sl, (if 0 <? w then sleep w else ret tt) h = Done (Ret tt) h sl [] ∧
        pause sl.
Proof.
  destruct (0 <? w).
  - exists [EvSleep w]. split; [done|]. right. by exists w.
  - exists []. split; [done|]. by left.
Qed.

(** The synchronous loop, with [S n] values of the range left, the first
    of them [a], follows the state machine from attempt [a]; if the
    fallback too leaves the loop's attributes alone, the node keeps its
    class and its budget. *)
Lemma Node__exec_for_attempting n : ∀ a self p h o,
  nodes h !! self = Some o →
  Z.of_nat (a + S n) = max_retries o →
  (∀ q, keeps_control (exec (ct (cls o)) self q) self) →
  ∃ r h' t,
    Node__exec_for ct (Z.of_nat <$> seq a (S n)) self p h = Done r h' t [] ∧
    attempting self p (max_retries o) id (Z.of_nat a) t r ∧
    ((∀ q e, keeps_control (exec_fallback (ct (cls o)) self q e) self) →
     ∃ o', nodes h' !! self = Some o' ∧ cls o' = cls o ∧
           max_retries o' = max_retries o).
Proof.
  induction n as [|n IH]; intros a self p h o Ho HN Hk.
  all: change (seq a (S ?m)) with (a :: seq (S a) m).
  all: rewrite fmap_cons; cbn [Node__exec_for].
  all: read.
  all: rewrite (bind_quiet _ _ h tt _ eq_refl).
  all: pose proof (put_node_lookup self (with_cur_retry o (Z.of_nat a)) h o Ho)
         as Ho1.
  all: set (h1 := with_nodes h _) in *.
  all: destruct (exec (ct (cls o)) self p h1) as [r2 h2] eqn:E.
  all: pose proof (call_exec_Done self p h1 _ r2 h2 Ho1 E) as Hc.
  all: assert (catch (call_exec ct self p) h1
         = Done (Ret r2) h2 [EvExec self (Z.of_nat a) p r2] []) as Hcatch
         by (unfold catch; by rewrite Hc).
  all: rewrite (bind_Ret _ _ _ _ _ _ _ Hcatch).
  all: destruct (Hk p h1 _ h2 _ E Ho1) as (o2 & Ho2 & Hcls & Hmr & Hcr).
  all: simpl in Hmr, Hcr, Hcls.
  all: destruct r2 as [v|e].
  all: try (exists (Ret v), h2, [EvExec self (Z.of_nat a) p (Ret v)];
            split; [done|]; split;
            [apply (succeeded _ _ _ id); lia | by exists o2]).
  all: read.
  all: rewrite Hmr, Hcr.
  - replace (Z.of_nat a =? max_retries o - 1) with true by lia.
    destruct (call_exec_fallback_Done self p e h2 o2 Ho2)
      as (r3 & h3 & Eh & Ef).
    rewrite Ef. eexists r3, h3, _. split; [done|]. split.
    + replace (Z.of_nat a) with (max_retries o - 1) by lia.
      apply (fallback _ _ _ id).
    + intros Hkf. rewrite Hcls in Eh.
      destruct (Hkf p e h2 _ h3 _ Eh Ho2) as (o3 & Ho3 & Hcls3 & Hmr3 & _).
      exists o3. split; [done|]. split; congruence.
  - replace (Z.of_nat a =? max_retries o - 1) with false by lia.
    destruct (pause_Done (wait o2) h2) as (sl & Esl & Hsl).
    rewrite (bind_Ret _ _ _ _ _ _ _ Esl).
    destruct (IH (S a) self p h2 o2 Ho2) as (r & h' & t & Et & Hat & Hst).
    { rewrite Hmr. lia. }
    { by rewrite Hcls. }
    rewrite Et. eexists r, h', _. split; [done|].
    rewrite Hmr in Hat. rewrite Hcls, Hmr in Hst. split; [|done].
    apply (retried self p _ id (Z.of_nat a) e sl t r); [lia|done|].
    by replace (Z.of_nat a + 1) with (Z.of_nat (S a)) by lia.
Qed.

(** The cooperative loop follows the same state machine, but it keeps
    the index in a local variable: user code reads the [cur_retry] the
    object had when the loop started, whatever the attempt. *)
Lemma AsyncNode__exec_for_attempting n : ∀ a self p h o,
  nodes h !! self = Some o →
  Z.of_nat (a + S n) = max_retries o →
  (∀ q, keeps_control (exec_async (ct (cls o)) self q) self) →
  ∃ r h' t,
    AsyncNode__exec_for ct (Z.of_nat <$> seq a (S n)) self p h
      = Done r h' t [] ∧
    attempting self p (max_retries o) (λ _, cur_retry o) (Z.of_nat a) t r.
Proof.
  induction n as [|n IH]; intros a self p h o Ho HN Hk.
  all: change (seq a (S ?m)) with (a :: seq (S a) m).
  all: rewrite fmap_cons; cbn [AsyncNode__exec_for].
  all: destruct (exec_async (ct (cls o)) self p h) as [r2 h2] eqn:E.
  all: pose proof (call_exec_async_Done self p h _ r2 h2 Ho E) as Hc.
  all: assert (catch (call_exec_async ct self p) h
         = Done (Ret r2) h2 [EvExec self (cur_retry o) p r2] []) as Hcatch
         by (unfold catch; by rewrite Hc).
  all: rewrite (bind_Ret _ _ _ _ _ _ _ Hcatch).
  all: destruct r2 as [v|e].
  all: try (exists (Ret v), h2, [EvExec self (cur_retry o) p (Ret v)];
            split; [done|];
            apply (succeeded self p _ (λ _, cur_retry o) (Z.of_nat a)); lia).
  all: destruct (Hk p h _ h2 _ E Ho) as (o2 & Ho2 & Hcls & Hmr & Hcr).
  all: read.
  all: rewrite Hmr.
  - replace (Z.of_nat a =? max_retries o - 1) with true by lia.
    destruct (call_exec_fallback_async_Done self p e h2 o2 Ho2)
      as (r3 & h3 & Ef).
    rewrite Ef. eexists r3, h3, _. split; [done|].
    replace (Z.of_nat a) with (max_retries o - 1) by lia.
    apply (fallback self p _ (λ _, cur_retry o)).
  - replace (Z.of_nat a =? max_retries o - 1) with false by lia.
    destruct (pause_Done (wait o2) h2) as (sl & Esl & Hsl).
    rewrite (bind_Ret _ _ _ _ _ _ _ Esl).
    destruct (IH (S a) self p h2 o2 Ho2) as (r & h' & t & Et & Hat).
    { rewrite Hmr. lia. }
    { by rewrite Hcls. }
    rewrite Et. eexists r, h', _. split; [done|].
    rewrite Hmr, Hcr in Hat.
    apply (retried self p _ (λ _, cur_retry o) (Z.of_nat a) e sl t r);
      [lia|done|].
    by replace (Z.of_nat a + 1) with (Z.of_nat (S a)) by lia.
Qed.

Lemma range_pos N : 1 ≤ N → ∃ n, range N = Z.of_nat <$> seq 0 (S n) ∧
                                  Z.of_nat (0 + S n) = N.
Proof.
  intros HN. exists (Nat.pred (Z.to_nat N)). unfold range.
  replace (S (Nat.pred (Z.to_nat N))) with (Z.to_nat N) by lia.
  split; [done|lia].
Qed.

Lemma Node__exec_attempting self p h o :
  nodes h !! self = Some o → 1 ≤ max_retries o →
  (∀ q, keeps_control (exec (ct (cls o)) self q) self) →
  ∃ r h' t,
    Node__exec ct self p h = Done r h' t [] ∧
    attempting self p (max_retries o) id 0 t r ∧
    ((∀ q e, keeps_control (exec_fallback (ct (cls o)) self q e) self) →
     ∃ o', nodes h' !! self = Some o' ∧ cls o' = cls o ∧
           max_retries o' = max_retries o).
Proof.
  intros Ho HN Hk. unfold Node__exec.
  read.
  destruct (range_pos _ HN) as (n & -> & Hn).
  by apply (Node__exec_for_attempting n 0%nat).
Qed.

Lemma AsyncNode__exec_attempting self p h o :
  nodes h !! self = Some o → 1 ≤ max_retries o →
  (∀ q, keeps_control (exec_async (ct (cls o)) self q) self) →
  ∃ r h' t,
    AsyncNode__exec ct self p h = Done r h' t [] ∧
    attempting self p (max_retries o) (λ _, cur_retry o) 0 t r.
Proof.
  intros Ho HN Hk. unfold AsyncNode__exec.
  read.
  destruct (range_pos _ HN) as (n & -> & Hn).
  by apply (AsyncNode__exec_for_attempting n 0%nat).
Qed.

(** C1 (P2): a node with a budget of [N >= 1] attempts.  Whatever user
    code does, one call of the execute wrapper calls execute at most [N]
    times and the fallback at most once.  For an execute that leaves the
    loop's own attributes alone, the fallback is called only if [N] calls
    of execute raised; and when [N] calls raised, the last two events are
    the [N]th failing call and one call of the fallback with the prepare
    value and that call's exception, and what the fallback returns or
    raises is the result of the wrapper.  All of this holds for the
    synchronous and for the cooperative wrapper.  A visit of a retrying
    node is prepare, one call of the wrapper, post. *)
Theorem attempt_bound_both self p h o :
  nodes h !! self = Some o → 1 ≤ max_retries o →
  (∀ r h' t w,
     Node__exec ct self p h = Done r h' t w ∨
     AsyncNode__exec ct self p h = Done r h' t w →
     Z.of_nat (count is_exec t) ≤ max_retries o ∧
     (count is_fallback t ≤ 1)%nat) ∧
  ((∀ q, keeps_control (exec (ct (cls o)) self q) self) →
   attempt_bound (Node__exec ct self p h) self p (max_retries o)) ∧
  ((∀ q, keeps_control (exec_async (ct (cls o)) self q) self) →
   attempt_bound (AsyncNode__exec ct self p h) self p (max_retries o)) ∧
  (base (ct (cls o)) = Node → ∀ fuel shared,
     _run ct (S fuel) self shared h
     = BaseNode__run ct (Node__exec ct) self shared h).
Proof.
  intros Ho HN. split; [|split; [|split]].
  - pose proof (range_length (max_retries o)) as Hlen.
    intros r h' t w [E|E].
    + unfold Node__exec in E. read_in E.
      destruct (Node__exec_for_counts _ _ _ _ _ _ _ _ E). lia.
    + unfold AsyncNode__exec in E. read_in E.
      destruct (AsyncNode__exec_for_counts _ _ _ _ _ _ _ _ E). lia.
  - intros Hk.
    destruct (Node__exec_attempting self p h o Ho HN Hk)
      as (r & h' & t & E & Hat & _).
    by eapply attempting_bound.
  - intros Hka.
    destruct (AsyncNode__exec_attempting self p h o Ho HN Hka)
      as (r & h' & t & E & Hat).
    by eapply attempting_bound.
  - intros Hb fuel shared. cbn [_run]. read. by rewrite Hb.
Qed.

End Retry.

Lemma keeps_control_const (r : outcome pyval) self :
  keeps_control (λ h, (r, h)) self.
Proof. intros h r' h' o [= <- <-] Ho. by exists o. Qed.

Lemma attempt_bound_both_witness :
  attempt_bound (Node__exec Examples.classes 0%nat (PInt 7) Examples.flaky_heap)
                0%nat (PInt 7) 2 ∧
  attempt_bound
    (AsyncNode__exec Examples.classes 0%nat (PInt 7) Examples.flaky_heap)
    0%nat (PInt 7) 2.
Proof.
  destruct (attempt_bound_both Examples.classes 0%nat (PInt 7)
              Examples.flaky_heap Examples.flaky_obj eq_refl)
    as (_ & Hsync & Hasync & _).
  - simpl. lia.
  - split; [apply Hsync|apply Hasync]; intros q; apply keeps_control_const.
Defined.

(** Retry success: two failures, then a value; the fallback is not
    called. *)
Example retry_success :
  ∃ h', Node__exec Examples.classes 0%nat (PInt 7) Examples.eventually_heap
        = Done (Ret (PStr "ok")) h'
               [EvExec 0%nat 0 (PInt 7) (Exc Examples.boom);
                EvExec 0%nat 1 (PInt 7) (Exc Examples.boom);
                EvExec 0%nat 2 (PInt 7) (Ret (PStr "ok"))] [].
Proof. eexists. vm_compute. reflexivity. Qed.

(** Retry exhaustion: two failures, then the fallback, whose value is the
    result. *)
Example retry_exhaustion :
  ∃ h', Node__exec Examples.classes 0%nat (PInt 7) Examples.flaky_heap
        = Done (Ret (PStr "FALLBACK")) h'
               [EvExec 0%nat 0 (PInt 7) (Exc Examples.boom);
                EvExec 0%nat 1 (PInt 7) (Exc Examples.boom);
                EvFallback 0%nat (PInt 7) Examples.boom
                           (Ret (PStr "FALLBACK"))] [].
Proof. eexists. vm_compute. reflexivity. Qed.

Section Runs.

Variable ct : class_id → pyclass.

Lemma Node__exec_zero self p h o :
  nodes h !! self = Some o → max_retries o = 0 →
  Node__exec ct self p h = Done (Ret PNone) h [] [].
Proof.
  intros Ho Hz. unfold Node__exec.
  read. by rewrite Hz.
Qed.

(** C10: nothing checks that the budget is at least 1.  [Node.__init__]
    accepts [max_retries = 0]; on a node whose [max_retries] is 0 the
    execute wrapper calls neither execute nor the fallback and returns
    [None]; and a run of that node calls prepare and then post, which
    receives [None] as the execute result. *)
Theorem zero_budget_yields_none self shared p fuel h o pv h1 o1 :
  nodes h !! self = Some o → max_retries o = 0 →
  base (ct (cls o)) = Node →
  prep (ct (cls o)) self shared h = (Ret pv, h1) →
  nodes h1 !! self = Some o1 → cls o1 = cls o → max_retries o1 = 0 →
  (∀ c w h0, ∃ n h' o',
      Node___init__ c 0 w h0 = Done (Ret n) h' [] [] ∧
      nodes h' !! n = Some o' ∧ max_retries o' = 0) ∧
  Node__exec ct self p h = Done (Ret PNone) h [] [] ∧
  _run ct (S fuel) self shared h =
    (let (r, h2) := post (ct (cls o)) self shared pv PNone h1 in
     Done r h2 [EvPrep self shared (Ret pv); EvPost self shared pv PNone r]
          []).
Proof.
  intros Ho Hz Hb Hp Ho1 Hc1 Hz1. split; [|split].
  - intros c w h0.
    eexists _, _, (mkObj c (length (dicts h0)) (length (succs h0)) 0 w 0 None).
    split; [reflexivity|]. simpl. split; [|done].
    by apply list_lookup_middle.
  - by apply (Node__exec_zero self p h o).
  - cbn [_run]. read.
    rewrite Hb. unfold BaseNode__run.
    rewrite (bind_Ret _ _ _ _ _ _ _ (call_prep_Done ct _ _ _ _ _ _ Ho Hp)).
    rewrite (bind_pure _ _ _ _ (Node__exec_zero self pv h1 o1 Ho1 Hz1)).
    destruct (post (ct (cls o)) self shared pv PNone h1) as [r h2] eqn:Epost.
    rewrite <- Hc1 in Epost.
    pose proof (call_post_Done ct _ _ _ _ _ _ _ _ Ho1 Epost) as Ecall.
    destruct r as [v|e].
    + by rewrite (bind_Ret _ _ _ _ _ _ _ Ecall).
    + by rewrite (bind_Exc _ _ _ _ _ _ _ Ecall).
Qed.

End Runs.

Lemma zero_budget_yields_none_witness :
  (∀ c w h0, ∃ n h' o',
      Node___init__ c 0 w h0 = Done (Ret n) h' [] [] ∧
      nodes h' !! n = Some o' ∧ max_retries o' = 0) ∧
  Node__exec Examples.classes 0%nat PNone Examples.idle_heap
    = Done (Ret PNone) Examples.idle_heap [] [] ∧
  _run Examples.classes 1 0%nat PNone Examples.idle_heap
    = Done (Ret PNone) Examples.idle_heap
           [EvPrep 0%nat PNone (Ret PNone);
            EvPost 0%nat PNone PNone PNone (Ret PNone)] [].
Proof.
  exact (zero_budget_yields_none Examples.classes 0%nat PNone PNone 0%nat
           Examples.idle_heap Examples.idle_obj PNone Examples.idle_heap
           Examples.idle_obj eq_refl eq_refl eq_refl eq_refl eq_refl eq_refl
           eq_refl).
Defined.

(** ** The retry index user code reads *)

Lemma attempting_const_retries_read self p N c k t r :
  attempting self p N (λ _, c) k t r →
  retries_read t = replicate (count is_exec t) c.
Proof.
  induction 1 as [k v Hk|e r|k e sl t r Hk Hsl Hat IH]; [done|done|].
  simpl. rewrite retries_read_app, count_app, (retries_read_pause sl),
    (count_pause is_exec sl) by done.
  simpl. by rewrite IH.
Qed.

Section RetryIndex.

Variable ct : class_id → pyclass.

(** In the synchronous engine the [j]th call of execute reads [j]. *)
Lemma Node__exec_reads_attempt_index self p h o :
  nodes h !! self = Some o → 1 ≤ max_retries o →
  (∀ q, keeps_control (exec (ct (cls o)) self q) self) →
  retries_read (trace_of (Node__exec ct self p h))
    = Z.of_nat <$> seq 0 (count is_exec (trace_of (Node__exec ct self p h))).
Proof.
  intros Ho HN Hk.
  destruct (Node__exec_attempting ct self p h o Ho HN Hk)
    as (r & h' & t & -> & Hat & _).
  simpl. by apply (attempting_id_retries_read self p (max_retries o) 0%nat t r).
Qed.

(** In the cooperative engine every call of execute reads the value
    [cur_retry] had before the first attempt. *)
Lemma AsyncNode__exec_reads_initial_index self p h o :
  nodes h !! self = Some o → 1 ≤ max_retries o →
  (∀ q, keeps_control (exec_async (ct (cls o)) self q) self) →
  retries_read (trace_of (AsyncNode__exec ct self p h))
    = replicate (count is_exec (trace_of (AsyncNode__exec ct self p h)))
                (cur_retry o).
Proof.
  intros Ho HN Hk.
  destruct (AsyncNode__exec_attempting ct self p h o Ho HN Hk)
    as (r & h' & t & -> & Hat).
  simpl. by eapply attempting_const_retries_read.
Qed.

End RetryIndex.

(** C7, at [AsyncFlaky(max_retries=2)] whose [exec_async] raises: the
    cooperative engine calls execute twice and during both calls
    [self.cur_retry] reads 0, where the synchronous engine on the same node
    class gives 0 and then 1. *)
Theorem async_attempts_read_stale_index :
  retries_read (trace_of (AsyncNode__exec Examples.classes 0%nat (PInt 7)
                            Examples.async_flaky_heap)) = [0; 0] ∧
  retries_read (trace_of (Node__exec Examples.classes 0%nat (PInt 7)
                            Examples.flaky_heap)) = [0; 1].
Proof. split; reflexivity. Qed.

(** ** Batch nodes *)

Section Batch.

Variable ct : class_id → pyclass.
Variable self : loc.
Variable c : class_id.
Variable N : Z.
Hypothesis budget : 1 ≤ N.
Hypothesis exec_keeps : ∀ q, keeps_control (exec (ct c) self q) self.
Hypothesis fallback_keeps :
  ∀ q e, keeps_control (exec_fallback (ct c) self q e) self.

Lemma BatchNode__exec_for_per_item l : ∀ h o,
  nodes h !! self = Some o → cls o = c → max_retries o = N →
  ∃ r h' t,
    BatchNode__exec_for ct self l h = Done r h' t [] ∧
    ∀ rs, r = Ret rs →
      per_item ct self N l h rs h' t ∧ length rs = length l.
Proof.
  induction l as [|i rest IH]; intros h o Ho Hc HN.
  - exists (Ret []), h, []. split; [done|]. intros rs [= <-].
    split; [constructor|done].
  - cbn [BatchNode__exec_for].
    destruct (Node__exec_attempting ct self i h o Ho)
      as (r1 & h1 & t1 & E1 & Hat & Hst).
    { by rewrite HN. }
    { by rewrite Hc. }
    destruct Hst as (o1 & Ho1 & Hc1 & HN1); [by rewrite Hc|].
    destruct r1 as [v|e].
    2:{ rewrite (bind_Exc _ _ _ _ _ _ _ E1). by exists (Exc e), h1, t1. }
    rewrite (bind_Ret _ _ _ _ _ _ _ E1).
    destruct (IH h1 o1 Ho1) as (r2 & h2 & t2 & E2 & Hrs); [congruence..|].
    destruct r2 as [rs|e].
    2:{ rewrite (bind_Exc _ _ _ _ _ _ _ E2). by eexists (Exc e), h2, _. }
    rewrite (bind_Ret _ _ _ _ _ _ _ E2). cbn [ret].
    eexists (Ret (v :: rs)), h2, _. split; [by rewrite app_nil_r|].
    intros ? [= <-]. destruct (Hrs rs eq_refl) as [Hper Hlen].
    split; [|simpl; by rewrite Hlen].
    apply per_item_cons with h1; [done| |done].
    rewrite HN in Hat. by eapply attempting_bound.
Qed.

End Batch.

Lemma per_item_lookup ct self N l h rs h' t :
  per_item ct self N l h rs h' t →
  ∀ i item, l !! i = Some item →
    ∃ hi v hi' ti,
      Node__exec ct self item hi = Done (Ret v) hi' ti [] ∧
      attempt_bound (Node__exec ct self item hi) self item N ∧
      rs !! i = Some v.
Proof.
  induction 1 as [h|j rest h v h1 t1 rs h2 t2 E Hb Hper IH]; intros i item.
  - done.
  - destruct i as [|i]; simpl.
    + intros [= ->]. by exists h, v, h1, t1.
    + apply IH.
Qed.

Lemma py_or_list l h :
  py_or (PList l) (PList []) h = Done (Ret (PList l)) h [] [].
Proof. by destruct l. Qed.

(** C4 (P4): a batch node whose execute and fallback leave the loop's
    attributes alone, with a budget of at least one attempt.  On [None]
    and on the empty list the result is the empty list and nothing is
    called.  On a list the wrapper runs to the end of the list or to the
    first item whose fallback raises; when it returns, the result is a
    list of the same length, made item by item in order: position [i]
    holds what the retry wrapper returned for item [i], and each item's
    call of the retry wrapper has the whole budget to itself. *)
Theorem batch_results_in_order ct self h o :
  nodes h !! self = Some o → 1 ≤ max_retries o →
  (∀ q, keeps_control (exec (ct (cls o)) self q) self) →
  (∀ q e, keeps_control (exec_fallback (ct (cls o)) self q e) self) →
  BatchNode__exec ct self PNone h = Done (Ret (PList [])) h [] [] ∧
  BatchNode__exec ct self (PList []) h = Done (Ret (PList [])) h [] [] ∧
  ∀ l, ∃ r h' t,
    BatchNode__exec ct self (PList l) h = Done r h' t [] ∧
    ∀ res, r = Ret res →
      ∃ rs, res = PList rs ∧ length rs = length l ∧
            per_item ct self (max_retries o) l h rs h' t ∧
            ∀ i item, l !! i = Some item →
              ∃ hi v hi' ti,
                Node__exec ct self item hi = Done (Ret v) hi' ti [] ∧
                attempt_bound (Node__exec ct self item hi) self item
                              (max_retries o) ∧
                rs !! i = Some v.
Proof.
  intros Ho HN Hk Hkf. split; [done|]. split; [done|]. intros l.
  unfold BatchNode__exec. rewrite (bind_pure _ _ _ _ (py_or_list l h)).
  rewrite (bind_pure _ _ h l eq_refl).
  destruct (BatchNode__exec_for_per_item ct self (cls o) (max_retries o)
              HN Hk Hkf l h o Ho eq_refl eq_refl)
    as (r & h' & t & E & Hrs).
  destruct r as [rs|e].
  - rewrite (bind_Ret _ _ _ _ _ _ _ E). cbn [ret].
    eexists (Ret (PList rs)), h', _. split; [by rewrite app_nil_r|].
    intros ? [= <-]. destruct (Hrs rs eq_refl) as [Hper Hlen].
    exists rs. split; [done|]. split; [done|]. split; [done|].
    by eapply per_item_lookup.
  - rewrite (bind_Exc _ _ _ _ _ _ _ E). by exists (Exc e), h', t.
Qed.

Lemma batch_results_in_order_witness :
  BatchNode__exec Examples.classes 0%nat PNone Examples.flaky_heap
    = Done (Ret (PList [])) Examples.flaky_heap [] [] ∧
  BatchNode__exec Examples.classes 0%nat (PList []) Examples.flaky_heap
    = Done (Ret (PList [])) Examples.flaky_heap [] [] ∧
  ∀ l, ∃ r h' t,
    BatchNode__exec Examples.classes 0%nat (PList l) Examples.flaky_heap
      = Done r h' t [] ∧
    ∀ res, r = Ret res →
      ∃ rs, res = PList rs ∧ length rs = length l ∧
            per_item Examples.classes 0%nat 2 l Examples.flaky_heap rs h' t ∧
            ∀ i item, l !! i = Some item →
              ∃ hi v hi' ti,
                Node__exec Examples.classes 0%nat item hi
                  = Done (Ret v) hi' ti [] ∧
                attempt_bound (Node__exec Examples.classes 0%nat item hi)
                              0%nat item 2 ∧
                rs !! i = Some v.
Proof.
  apply (batch_results_in_order Examples.classes 0%nat Examples.flaky_heap
           Examples.flaky_obj).
  - reflexivity.
  - simpl. lia.
  - intros q. apply keeps_control_const.
  - intros q e. apply keeps_control_const.
Defined.

(** ** Choosing the successor *)

Section Successor.

Lemma _orch_while_None run_node fuel self shared np last :
  _orch_while run_node fuel self shared np None last = ret last.
Proof. by destruct fuel. Qed.

Lemma get_next_node_Done self cur a key h o m :
  nodes h !! cur = Some o → succs h !! successors o = Some m →
  py_or a (PStr "default") h = Done (Ret (PStr key)) h [] [] →
  get_next_node self cur a h =
    Done (Ret (m !! key)) h []
         (if negb (bool_decide (is_Some (m !! key))) &&
             negb (bool_decide (m = ∅))
          then [FlowEnds a] else []).
Proof.
  intros Ho Hm Hkey. unfold get_next_node.
  read.
  read.
  rewrite (bind_pure _ _ _ _ Hkey). cbn [succs_get].
  rewrite (bind_pure _ _ h (m !! key) eq_refl).
  by destruct (negb (bool_decide (is_Some (m !! key))) &&
               negb (bool_decide (m = ∅))).
Qed.

(** C3 (P6), on the store [h] in which the post of node [cur] has
    returned, [m] being the successor dict of [cur].  An action that is
    [None] or the empty string is looked up under ["default"].  When the
    label looked up has no entry in [m], no successor is chosen, a warning
    is emitted exactly when [m] is not empty, and the traversal ends there,
    returning the action. *)
Theorem default_label_and_termination self cur h o m :
  nodes h !! cur = Some o → succs h !! successors o = Some m →
  (∀ a, a = PNone ∨ a = PStr EmptyString →
     py_or a (PStr "default") h = Done (Ret (PStr "default")) h [] [] ∧
     get_next_node self cur a h =
       Done (Ret (m !! "default")) h []
            (if negb (bool_decide (is_Some (m !! "default"))) &&
                negb (bool_decide (m = ∅))
             then [FlowEnds a] else [])) ∧
  (∀ a label,
     py_or a (PStr "default") h = Done (Ret (PStr label)) h [] [] →
     m !! label = None →
     get_next_node self cur a h =
       Done (Ret None) h []
            (if bool_decide (m = ∅) then [] else [FlowEnds a])) ∧
  (∀ run_node fuel shared np last h0 a t w label,
     (do* set_params cur np in visit cur (run_node cur shared)) h0
       = Done (Ret a) h t w →
     py_or a (PStr "default") h = Done (Ret (PStr label)) h [] [] →
     m !! label = None →
     _orch_while run_node (S fuel) self shared np (Some cur) last h0 =
       Done (Ret a) h t
            (w ++ if bool_decide (m = ∅) then [] else [FlowEnds a])).
Proof.
  intros Ho Hm.
  assert (∀ a label,
     py_or a (PStr "default") h = Done (Ret (PStr label)) h [] [] →
     m !! label = None →
     get_next_node self cur a h =
       Done (Ret None) h []
            (if bool_decide (m = ∅) then [] else [FlowEnds a])) as Hnone.
  { intros a label Hkey Hl.
    rewrite (get_next_node_Done self cur a label h o m Ho Hm Hkey), Hl.
    by destruct (bool_decide (m = ∅)). }
  split; [|split; [done|]].
  - intros a Ha.
    assert (py_or a (PStr "default") h
            = Done (Ret (PStr "default")) h [] []) as Hkey
      by (by destruct Ha as [-> | ->]).
    split; [done|]. by apply get_next_node_Done with o.
  - intros run_node fuel shared np last h0 a t w label Hvisit Hkey Hl.
    cbn [_orch_while].
    apply bind_Done in Hvisit as [(e & _ & [=])|Hvisit].
    destruct Hvisit as (u & h1 & t1 & w1 & t2 & w2 & Hset & Hv & -> & ->).
    rewrite (bind_Ret _ _ _ _ _ _ _ Hset).
    rewrite (bind_Ret _ _ _ _ _ _ _ Hv).
    rewrite (bind_Ret _ _ _ _ _ _ _ (Hnone a label Hkey Hl)).
    cbn [copy]. rewrite (bind_pure _ _ h None eq_refl).
    rewrite _orch_while_None. cbn [ret].
    simpl. by rewrite !app_nil_r, app_assoc.
Qed.

End Successor.

Lemma default_label_and_termination_witness :
  get_next_node 5%nat 0%nat PNone Examples.wired_heap
    = Done (Ret None) Examples.wired_heap [] [FlowEnds PNone] ∧
  get_next_node 5%nat 1%nat (PStr EmptyString) Examples.wired_heap
    = Done (Ret None) Examples.wired_heap [] [].
Proof.
  split.
  - destruct (default_label_and_termination 5%nat 0%nat
                Examples.wired_heap
                (mkObj 2%nat 0%nat 0%nat 1 0 0 None) {["left" := 1%nat]}
                eq_refl eq_refl) as (_ & H & _).
    exact (H PNone "default" eq_refl eq_refl).
  - destruct (default_label_and_termination 5%nat 1%nat
                Examples.wired_heap
                (mkObj 2%nat 1%nat 1%nat 1 0 0 None) ∅
                eq_refl eq_refl) as (_ & H & _).
    exact (H (PStr EmptyString) "default" eq_refl eq_refl).
Defined.

(** ** The synchronous run of the cooperative classes *)

Section SyncRunOfAsync.

Variable ct : class_id → pyclass.

(** On a cooperative node, the synchronous [_run] raises and calls
    nothing, and so does [run] after its warning. *)
Lemma AsyncNode__run_raises fuel self shared h o :
  nodes h !! self = Some o →
  base (ct (cls o)) = AsyncNode ∨ base (ct (cls o)) = AsyncBatchNode ∨
    base (ct (cls o)) = AsyncParallelBatchNode →
  _run ct (S fuel) self shared h
    = Done (Exc (RuntimeError "Use run_async for AsyncNode.")) h [] [].
Proof.
  intros Ho Hb. cbn [_run].
  read.
  by destruct Hb as [-> | [-> | ->]].
Qed.

Lemma run_of_async_node_raises fuel self shared h o m :
  nodes h !! self = Some o → succs h !! successors o = Some m →
  base (ct (cls o)) = AsyncNode ∨ base (ct (cls o)) = AsyncBatchNode ∨
    base (ct (cls o)) = AsyncParallelBatchNode →
  run ct (S fuel) self shared h
    = Done (Exc (RuntimeError "Use run_async for AsyncNode.")) h []
           (if bool_decide (m = ∅) then [] else [WontRunSuccessors]).
Proof.
  intros Ho Hm Hb. unfold run.
  read.
  read.
  destruct (bool_decide (m = ∅)); cbn [negb].
  - rewrite (bind_pure _ _ h tt eq_refl).
    by apply AsyncNode__run_raises with o.
  - rewrite (bind_Ret _ _ h tt h [] [WontRunSuccessors] eq_refl).
    by rewrite (AsyncNode__run_raises fuel self shared h o Ho Hb).
Qed.

End SyncRunOfAsync.

(** C8, at an [AsyncFlow] whose entry is a plain [Node]: the synchronous
    [run] of the flow raises nothing.  It resolves to [Flow._run], calls
    the flow's prepare, visits the entry node through all three phases, calls
    the flow's post and returns.  On a cooperative node the same [run]
    raises at once. *)
Theorem async_flow_sync_run_returns :
  (∃ h',
    run Examples.classes 2 1%nat PNone Examples.async_flow_heap
    = Done (Ret PNone) h'
        [EvPrep 1%nat PNone (Ret PNone);
         EvVisit 2%nat 2%nat (Ret PNone)
           [EvPrep 2%nat PNone (Ret PNone);
            EvExec 2%nat 0 PNone (Ret PNone);
            EvPost 2%nat PNone PNone PNone (Ret PNone)];
         EvPost 1%nat PNone PNone PNone (Ret PNone)]
        []) ∧
  run Examples.classes 2 0%nat PNone Examples.async_flaky_heap
  = Done (Exc (RuntimeError "Use run_async for AsyncNode."))
         Examples.async_flaky_heap [] [].
Proof. split; [eexists|]; vm_compute; reflexivity. Qed.

(** ** Computations that call no user code *)

Lemma silent_ret {A} (a : A) : silent (ret a).
Proof. by intros h r h' t w [= <- <- <- <-]. Qed.

Lemma silent_raise {A} e : silent (@raise A e).
Proof. by intros h r h' t w [= <- <- <- <-]. Qed.

Lemma silent_halt {A} s : silent (@halt A s).
Proof. by intros h r h' t w. Qed.

Lemma silent_warn x : silent (warn x).
Proof. by intros h r h' t w [= <- <- <- <-]. Qed.

Lemma silent_bind {A B} (m : M A) (k : A → M B) :
  silent m → (∀ a, silent (k a)) → silent (bind m k).
Proof.
  intros Hm Hk h r h' t w E.
  apply bind_Done in E as [(e & E & _)|E]; [by eapply Hm|].
  destruct E as (a & h1 & t1 & w1 & t2 & w2 & E1 & E2 & -> & _).
  by rewrite (Hm _ _ _ _ _ E1), (Hk _ _ _ _ _ _ E2).
Qed.

Lemma silent_get_node l : silent (get_node l).
Proof.
  intros h r h' t w E. by destruct (get_node_Done _ _ _ _ _ _ E) as (? & ? & ? & ? & ? & ?).
Qed.

Lemma silent_put_node l o : silent (put_node l o).
Proof. by intros h r h' t w [= <- <- <- <-]. Qed.

Lemma silent_alloc_node o : silent (alloc_node o).
Proof. by intros h r h' t w [= <- <- <- <-]. Qed.

Lemma silent_get_dict l : silent (get_dict l).
Proof.
  intros h r h' t w. unfold get_dict. destruct (dicts h !! l); [|done].
  by intros [= <- <- <- <-].
Qed.

Lemma silent_alloc_dict d : silent (alloc_dict d).
Proof. by intros h r h' t w [= <- <- <- <-]. Qed.

Lemma silent_get_succs l : silent (get_succs l).
Proof.
  intros h r h' t w. unfold get_succs. destruct (succs h !! l); [|done].
  by intros [= <- <- <- <-].
Qed.

Lemma silent_truthy v : silent (truthy v).
Proof.
  destruct v; try apply silent_ret.
  apply silent_bind; [apply silent_get_dict|intros; apply silent_ret].
Qed.

Lemma silent_py_or a b : silent (py_or a b).
Proof. apply silent_bind; [apply silent_truthy|intros; apply silent_ret]. Qed.

Lemma silent_py_iter v : silent (py_iter v).
Proof.
  destruct v; first [apply silent_ret|apply silent_raise|apply silent_halt].
Qed.

Lemma silent_as_mapping v : silent (as_mapping v).
Proof. destruct v; first [apply silent_get_dict|apply silent_raise]. Qed.

Lemma silent_succs_get m key : silent (succs_get m key).
Proof. destruct key; first [apply silent_ret|apply silent_raise]. Qed.

Lemma silent_if {A} (b : bool) (m1 m2 : M A) :
  silent m1 → silent m2 → silent (if b then m1 else m2).
Proof. by destruct b. Qed.

Lemma silent_get_next_node self cur a : silent (get_next_node self cur a).
Proof.
  unfold get_next_node.
  apply silent_bind; [apply silent_get_node|intros o].
  apply silent_bind; [apply silent_get_succs|intros m].
  apply silent_bind; [apply silent_py_or|intros key].
  apply silent_bind; [apply silent_succs_get|intros nx].
  apply silent_bind; [|intros; apply silent_ret].
  apply silent_if; [apply silent_warn|apply silent_ret].
Qed.

Lemma silent_copy n : silent (copy n).
Proof.
  destruct n as [n|]; [|apply silent_ret].
  apply silent_bind; [apply silent_get_node|intros o].
  apply silent_bind; [apply silent_alloc_node|intros; apply silent_ret].
Qed.

Lemma silent_set_params c np : silent (set_params c np).
Proof.
  apply silent_bind; [apply silent_get_node|intros; apply silent_put_node].
Qed.

Lemma silent_node_params_of self p : silent (node_params_of self p).
Proof.
  assert (silent (let* o := get_node self in
                  let* d := get_dict (params o) in
                  alloc_dict (dict_update ∅ d))) as Hown.
  { apply silent_bind; [apply silent_get_node|intros o].
    apply silent_bind; [apply silent_get_dict|intros; apply silent_alloc_dict]. }
  destruct p as [p|]; [|done]. unfold node_params_of.
  apply silent_bind; [apply (silent_truthy (PDict p))|intros t].
  destruct t; [apply silent_ret|done].
Qed.

(** ** The shape of a run *)

Lemma ends_with_post_app self shared a t1 t2 :
  ends_with_post self shared a t2 → ends_with_post self shared a (t1 ++ t2).
Proof.
  intros (t0 & p & x & ->). exists (t1 ++ t0), p, x. by rewrite app_assoc.
Qed.

Lemma bind_ends {A} (m : M A) (k : A → M pyval) self shared a h h' t w :
  bind m k h = Done (Ret a) h' t w →
  (∀ x h1 t2 w2, k x h1 = Done (Ret a) h' t2 w2 →
                 ends_with_post self shared a t2) →
  ends_with_post self shared a t.
Proof.
  intros E Hk. apply bind_Done in E as [(e & _ & [=])|E].
  destruct E as (x & h1 & t1 & w1 & t2 & w2 & _ & E2 & -> & _).
  apply ends_with_post_app. by eapply Hk.
Qed.

Section Shape.

Variable ct : class_id → pyclass.

Lemma call_post_inv self shared p x h r h' t w :
  call_post ct self shared p x h = Done r h' t w →
  ∃ o, nodes h !! self = Some o ∧
       post (ct (cls o)) self shared p x h = (r, h') ∧
       t = [EvPost self shared p x r] ∧ w = [].
Proof.
  unfold call_post. destruct (nodes h !! self) as [o|] eqn:Ho.
  - read. unfold call.
    destruct (post _ _ _ _ _ _) as [r1 h1] eqn:Ep. intros [= <- <- <- <-].
    by exists o.
  - unfold bind, get_node. by rewrite Ho.
Qed.

Lemma call_prep_inv self shared h r h' t w :
  call_prep ct self shared h = Done r h' t w →
  ∃ o, nodes h !! self = Some o ∧
       prep (ct (cls o)) self shared h = (r, h') ∧
       t = [EvPrep self shared r] ∧ w = [].
Proof.
  unfold call_prep. destruct (nodes h !! self) as [o|] eqn:Ho.
  - read. unfold call.
    destruct (prep _ _ _ _) as [r1 h1] eqn:Ep. intros [= <- <- <- <-].
    by exists o.
  - unfold bind, get_node. by rewrite Ho.
Qed.

Lemma call_post_ends self shared p x h a h' t w :
  call_post ct self shared p x h = Done (Ret a) h' t w →
  ends_with_post self shared a t.
Proof.
  intros E. destruct (call_post_inv _ _ _ _ _ _ _ _ _ E) as (o & _ & _ & -> & _).
  by exists [], p, x.
Qed.

Lemma call_post_ret_ends self shared p x h a h' t w :
  (let* post_result := call_post ct self shared p x in ret post_result) h
    = Done (Ret a) h' t w →
  ends_with_post self shared a t.
Proof.
  intros E. apply bind_Done in E as [(e & _ & [=])|E].
  destruct E as (y & h1 & t1 & w1 & t2 & w2 & E1 & [= -> <- <- <-] & -> & _).
  rewrite app_nil_r. by eapply call_post_ends.
Qed.

Lemma BaseNode__run_ends _exec self shared h a h' t w :
  BaseNode__run ct _exec self shared h = Done (Ret a) h' t w →
  ends_with_post self shared a t.
Proof.
  intros E. eapply bind_ends; [exact E|]. intros p h1 t2 w2 E2.
  eapply bind_ends; [exact E2|]. intros x h2 t3 w3 E3.
  eapply call_post_ret_ends. exact E3.
Qed.

Lemma Flow__run_ends orch self shared h a h' t w :
  Flow__run ct orch self shared h = Done (Ret a) h' t w →
  ends_with_post self shared a t.
Proof.
  intros E. eapply bind_ends; [exact E|]. intros p h1 t2 w2 E2.
  eapply bind_ends; [exact E2|]. intros x h2 t3 w3 E3.
  eapply call_post_ends. exact E3.
Qed.

Lemma BatchFlow__run_ends orch self shared h a h' t w :
  BatchFlow__run ct orch self shared h = Done (Ret a) h' t w →
  ends_with_post self shared a t.
Proof.
  intros E. eapply bind_ends; [exact E|]. intros p h1 t2 w2 E2.
  eapply bind_ends; [exact E2|]. intros x h2 t3 w3 E3.
  eapply bind_ends; [exact E3|]. intros bs h3 t4 w4 E4.
  eapply bind_ends; [exact E4|]. intros u h4 t5 w5 E5.
  eapply call_post_ends. exact E5.
Qed.

(** Whatever its class, a run that returns ends with the call of post on
    the node itself, and returns what that call returned. *)
Lemma _run_ends_with_post fuel self shared h a h' t w :
  _run ct fuel self shared h = Done (Ret a) h' t w →
  ends_with_post self shared a t.
Proof.
  destruct fuel as [|fuel]; [done|]. cbn [_run]. intros E.
  eapply bind_ends; [exact E|]. intros o h1 t2 w2 E2.
  cbv beta in E2. destruct (base (ct (cls o)));
    first [eapply BaseNode__run_ends; exact E2
          |eapply Flow__run_ends; exact E2
          |eapply BatchFlow__run_ends; exact E2
          |unfold AsyncNode__run, raise in E2; discriminate].
Qed.

Lemma set_params_Done c np h r h' t w :
  set_params c np h = Done r h' t w →
  ∃ o, nodes h !! c = Some o ∧
       h' = with_nodes h (<[c := with_params o np]> (nodes h)) ∧
       r = Ret tt ∧ t = [] ∧ w = [].
Proof.
  unfold set_params. destruct (nodes h !! c) as [o|] eqn:Ho.
  - read.
    intros [= <- <- <- <-]. by exists o.
  - unfold bind, get_node. by rewrite Ho.
Qed.

Lemma visit_Done c (m : M pyval) h r h' t w :
  visit c m h = Done r h' t w →
  ∃ o inner, nodes h !! c = Some o ∧ m h = Done r h' inner w ∧
             t = [EvVisit c (params o) r inner].
Proof.
  unfold visit. destruct (nodes h !! c) as [o|]; [|done].
  destruct (m h) as [r1 h1 t1 w1|]; [|done].
  intros [= <- <- <- <-]. by exists o, t1.
Qed.

(** The loop of [_orch]: its events are the visits, each of an object whose
    [params] is the traversal's; and the action it returns is the one the
    last visit returned, or the initial one if it visited nothing. *)
Lemma _orch_while_shape rn self shared np fuel : ∀ cur last h r h' t w,
  _orch_while rn fuel self shared np cur last h = Done r h' t w →
  Forall (visit_with np) t ∧
  ∀ a, r = Ret a →
    (t = [] ∧ a = last) ∨
    ∃ t' c inner hc hc' wc,
      t = t' ++ [EvVisit c np (Ret a) inner] ∧
      rn c shared hc = Done (Ret a) hc' inner wc.
Proof.
  induction fuel as [|fuel IH]; intros cur last h r h' t w E.
  all: destruct cur as [c|];
    [|injection E as <- <- <- <-; split; [constructor|];
      intros a [= <-]; by left].
  { done. }
  cbn [_orch_while] in E.
  apply bind_Done in E as [(e & E & _)|E].
  { by destruct (set_params_Done _ _ _ _ _ _ _ E) as (? & _ & _ & [=] & _). }
  destruct E as (u & h0 & t0 & w0 & t1 & w1 & Eset & E & -> & ->).
  destruct (set_params_Done _ _ _ _ _ _ _ Eset) as (o & Ho & -> & _ & -> & _).
  pose proof (put_node_lookup c (with_params o np) h o Ho) as Hc.
  apply bind_Done in E as [(e & E & ->)|E].
  { destruct (visit_Done _ _ _ _ _ _ _ E) as (o1 & inner & Ho1 & Ern & ->).
    assert (Some o1 = Some (with_params o np)) as [= ->]
      by (rewrite <- Ho1; exact Hc).
    simpl. split; [|done].
    repeat constructor. by eexists _, _, _. }
  destruct E as (a1 & h1 & t2 & w2 & t3 & w3 & Ev & E & -> & ->).
  destruct (visit_Done _ _ _ _ _ _ _ Ev) as (o1 & inner & Ho1 & Ern & ->).
  assert (Some o1 = Some (with_params o np)) as [= ->]
    by (rewrite <- Ho1; exact Hc).
  cbn [params with_params].
  assert (visit_with np (EvVisit c np (Ret a1) inner)) as Hv
    by (by eexists _, _, _).
  apply bind_Done in E as [(e & E & ->)|E].
  { rewrite (silent_get_next_node _ _ _ _ _ _ _ _ E). simpl.
    split; [by repeat constructor|done]. }
  destruct E as (nx & h2 & t4 & w4 & t5 & w5 & Enx & E & -> & ->).
  rewrite (silent_get_next_node _ _ _ _ _ _ _ _ Enx).
  apply bind_Done in E as [(e & E & ->)|E].
  { rewrite (silent_copy _ _ _ _ _ _ E). simpl.
    split; [by repeat constructor|done]. }
  destruct E as (cur' & h3 & t6 & w6 & t7 & w7 & Ecp & E & -> & ->).
  rewrite (silent_copy _ _ _ _ _ _ Ecp).
  destruct (IH _ _ _ _ _ _ _ E) as [Hall Hlast]. simpl. split.
  - by constructor.
  - intros a Ha. destruct (Hlast a Ha) as [[-> ->]|Hl].
    + right. by eexists [], c, inner, _, h1, w2.
    + destruct Hl as (t' & c' & inner' & hc & hc' & wc & -> & Hrn).
      right.
      by exists (EvVisit c np (Ret a1) inner :: t'), c', inner', hc, hc', wc.
Qed.

End Shape.

(** ** Starting a traversal *)

Lemma copy_Some n h o :
  nodes h !! n = Some o →
  copy (Some n) h = Done (Ret (Some (length (nodes h))))
                         (with_nodes h (nodes h ++ [o])) [] [].
Proof.
  intros Ho. unfold copy.
  by read.
Qed.

Lemma copy_Done n h r h' t w :
  copy n h = Done r h' t w → ∃ cur, r = Ret cur ∧ t = [] ∧ w = [].
Proof.
  destruct n as [n|].
  - destruct (nodes h !! n) as [o|] eqn:Ho.
    + rewrite (copy_Some _ _ _ Ho). intros [= <- <- <- <-]. by eexists.
    + unfold copy, bind, get_node. by rewrite Ho.
  - intros [= <- <- <- <-]. by eexists.
Qed.

Lemma truthy_dict p h d :
  dicts h !! p = Some d →
  truthy (PDict p) h = Done (Ret (negb (bool_decide (d = ∅)))) h [] [].
Proof.
  intros Hd. cbn [truthy].
  by read.
Qed.

Lemma node_params_of_Done self p h r h' t w :
  node_params_of self p h = Done r h' t w → ∃ np, r = Ret np ∧ t = [] ∧ w = [].
Proof.
  assert (∀ h r h' t w,
    (let* o := get_node self in
     let* d := get_dict (params o) in
     alloc_dict (dict_update ∅ d)) h = Done r h' t w →
    ∃ np, r = Ret np ∧ t = [] ∧ w = []) as Hown.
  { clear. intros h r h' t w. unfold bind, get_node, get_dict, alloc_dict.
    destruct (nodes h !! self) as [o|]; [|done].
    destruct (dicts h !! params o) as [d|]; [|done].
    intros [= <- <- <- <-]. by eexists. }
  destruct p as [p|]; [|apply Hown]. unfold node_params_of.
  destruct (dicts h !! p) as [d|] eqn:Hd.
  - rewrite (bind_pure _ _ _ _ (truthy_dict _ _ _ Hd)).
    destruct (negb (bool_decide (d = ∅))); [|apply Hown].
    intros [= <- <- <- <-]. by eexists.
  - unfold bind, truthy, bind, get_dict. by rewrite Hd.
Qed.

Lemma _orch_Done rn fuel self shared p h r h' t w :
  _orch rn fuel self shared p h = Done r h' t w →
  ∃ o cur h0 np hs,
    nodes h !! self = Some o ∧
    copy (start_node o) h = Done (Ret cur) h0 [] [] ∧
    node_params_of self p h0 = Done (Ret np) hs [] [] ∧
    _orch_while rn fuel self shared np cur PNone hs = Done r h' t w.
Proof.
  unfold _orch. destruct (nodes h !! self) as [o|] eqn:Ho.
  2:{ unfold bind, get_node. by rewrite Ho. }
  read. intros E.
  apply bind_Done in E as [(e & E & _)|E].
  { by destruct (copy_Done _ _ _ _ _ _ E) as (? & [=] & _). }
  destruct E as (cur & h0 & t0 & w0 & t1 & w1 & Ecp & E & -> & ->).
  destruct (copy_Done _ _ _ _ _ _ Ecp) as (? & _ & -> & ->).
  apply bind_Done in E as [(e & E & _)|E].
  { by destruct (node_params_of_Done _ _ _ _ _ _ _ E) as (? & [=] & _). }
  destruct E as (np & hs & t2 & w2 & t3 & w3 & Enp & E & -> & ->).
  destruct (node_params_of_Done _ _ _ _ _ _ _ Enp) as (? & _ & -> & ->).
  by exists o, cur, h0, np, hs.
Qed.

Section FlowRun.

Variable ct : class_id → pyclass.

Lemma _orch_last_action fuel self shared p h a h' t w :
  _orch (_run ct fuel) fuel self shared p h = Done (Ret a) h' t w →
  last_action shared t a.
Proof.
  intros E.
  destruct (_orch_Done _ _ _ _ _ _ _ _ _ _ E)
    as (o & cur & h0 & np & hs & _ & _ & _ & Ew).
  destruct (_orch_while_shape _ _ _ _ _ _ _ _ _ _ _ _ Ew) as [_ Hl].
  destruct (Hl a eq_refl) as [[-> ->]|Hv]; [by left|].
  destruct Hv as (t' & c & inner & hc & hc' & wc & -> & Hrn).
  right. exists t', c, np, inner. split; [done|].
  by eapply _run_ends_with_post.
Qed.

(** C2: a run of a flow whose prepare returns [pv] and whose traversal
    returns [a].  The events of the run are the call of prepare, then the
    events of the traversal, then the call of post with the shared state,
    [pv] and [a], and the run returns what post returns.  The traversal
    is the loop of [_orch] started on a copy of the entry node.  [a] is
    the action the last visit returned, which the post of the visited
    node returned ([None] if the flow has no entry node).  With
    [Flow.post] as the post of the flow, the run returns [a]. *)
Theorem flow_run_order fuel self shared h o pv h1 a h2 t w o2 :
  nodes h !! self = Some o →
  base (ct (cls o)) = Flow →
  prep (ct (cls o)) self shared h = (Ret pv, h1) →
  _orch (_run ct fuel) fuel self shared None h1 = Done (Ret a) h2 t w →
  nodes h2 !! self = Some o2 →
  (∀ r h3, post (ct (cls o2)) self shared pv a h2 = (r, h3) →
     _run ct (S fuel) self shared h =
       Done r h3
            (EvPrep self shared (Ret pv) :: t ++ [EvPost self shared pv a r])
            w) ∧
  (∃ o1 cur h0 np hs,
     nodes h1 !! self = Some o1 ∧
     copy (start_node o1) h1 = Done (Ret cur) h0 [] [] ∧
     node_params_of self None h0 = Done (Ret np) hs [] [] ∧
     _orch_while (_run ct fuel) fuel self shared np cur PNone hs
       = Done (Ret a) h2 t w) ∧
  last_action shared t a ∧
  (post (ct (cls o2)) = Flow_post →
     _run ct (S fuel) self shared h =
       Done (Ret a) h2
            (EvPrep self shared (Ret pv) :: t
               ++ [EvPost self shared pv a (Ret a)])
            w).
Proof.
  intros Ho Hb Hp Eo Ho2.
  assert (∀ r h3, post (ct (cls o2)) self shared pv a h2 = (r, h3) →
     _run ct (S fuel) self shared h =
       Done r h3
            (EvPrep self shared (Ret pv) :: t ++ [EvPost self shared pv a r])
            w) as Hrun.
  { intros r h3 Epost. cbn [_run].
    read. rewrite Hb.
    unfold Flow__run.
    rewrite (bind_Ret _ _ _ _ _ _ _ (call_prep_Done ct _ _ _ _ _ _ Ho Hp)).
    rewrite (bind_Ret _ _ _ _ _ _ _ Eo).
    rewrite (call_post_Done ct _ _ _ _ _ _ _ _ Ho2 Epost).
    simpl. by rewrite app_nil_r. }
  split; [done|]. split; [by apply _orch_Done|].
  split; [by eapply _orch_last_action|].
  intros Hpost. apply Hrun. by rewrite Hpost.
Qed.

End FlowRun.

Lemma flow_run_order_witness :
  let X := _orch (_run FlowExamples.classes 2) 2 1%nat (PDict 2%nat) None
                 (FlowExamples.loop_heap 1%nat) in
  _run FlowExamples.classes 3 1%nat (PDict 2%nat)
       (FlowExamples.loop_heap 1%nat)
  = Done (Ret (PStr "stop")) (heap_of X)
         (EvPrep 1%nat (PDict 2%nat) (Ret PNone) :: trace_of X
            ++ [EvPost 1%nat (PDict 2%nat) PNone (PStr "stop")
                       (Ret (PStr "stop"))])
         (warnings_of X).
Proof.
  intros X.
  assert (X = Done (Ret (PStr "stop")) (heap_of X) (trace_of X)
                   (warnings_of X)) as EX by (vm_compute; reflexivity).
  assert (nodes (heap_of X) !! 1%nat
          = Some (mkObj 3%nat 1%nat 1%nat 1 0 0 (Some 0%nat))) as Ho2
    by (vm_compute; reflexivity).
  destruct (flow_run_order FlowExamples.classes 2 1%nat (PDict 2%nat)
              (FlowExamples.loop_heap 1%nat)
              (mkObj 3%nat 1%nat 1%nat 1 0 0 (Some 0%nat)) PNone
              (FlowExamples.loop_heap 1%nat) (PStr "stop") (heap_of X)
              (trace_of X) (warnings_of X)
              (mkObj 3%nat 1%nat 1%nat 1 0 0 (Some 0%nat))
              eq_refl eq_refl eq_refl EX Ho2) as (_ & _ & _ & H).
  exact (H eq_refl).
Defined.

(** ** Visits and the params of a node *)


(** ** Dict display *)

Lemma dict_update_union (d src : gmap string pyval) :
  dict_update d src = src ∪ d.
Proof.
  unfold dict_update.
  apply (map_fold_weak_ind (λ r (m : gmap string pyval), r = m ∪ d)).
  - by rewrite (left_id_L ∅ (∪)).
  - intros k v m r _ ->. by rewrite insert_union_l.
Qed.

Lemma dict_display_union (a b : gmap string pyval) : dict_display a b = b ∪ a.
Proof.
  unfold dict_display. by rewrite !dict_update_union, (right_id_L ∅ (∪)).
Qed.

(** [{**a, **b}] has the keys of both, with the value of [b] where both
    have the key. *)
Lemma dict_display_lookup (a b : gmap string pyval) k :
  dict_display a b !! k =
    match b !! k with Some v => Some v | None => a !! k end.
Proof.
  rewrite dict_display_union, lookup_union.
  by destruct (b !! k), (a !! k).
Qed.

Lemma dict_display_empty (a b : gmap string pyval) :
  dict_display a b = ∅ → a = ∅.
Proof.
  intros E. apply map_empty. intros k.
  assert (dict_display a b !! k = None) as Hk by (by rewrite E).
  rewrite dict_display_lookup in Hk. by destruct (b !! k).
Qed.

(** ** Batch flows *)

Lemma copy_frame n h cur h0 :
  copy n h = Done (Ret cur) h0 [] [] →
  dicts h0 = dicts h ∧
  ∀ l o, nodes h !! l = Some o → nodes h0 !! l = Some o.
Proof.
  destruct n as [n|].
  - destruct (nodes h !! n) as [on|] eqn:Hn.
    + rewrite (copy_Some _ _ _ Hn). intros [= <- <-]. split; [done|].
      intros l o Hl. simpl. by apply lookup_app_l_Some.
    + unfold copy, bind, get_node. by rewrite Hn.
  - by intros [= <- <-].
Qed.

(** [params or {**self.params}] for a dict [p] that holds the display of
    the flow's params [a] and a map [b]: the result holds that display. *)
Lemma node_params_of_display self p h o a b np hs :
  nodes h !! self = Some o → dicts h !! params o = Some a →
  dicts h !! p = Some (dict_display a b) →
  node_params_of self (Some p) h = Done (Ret np) hs [] [] →
  dicts hs !! np = Some (dict_display a b).
Proof.
  intros Ho Ha Hp. unfold node_params_of.
  rewrite (bind_pure _ _ _ _ (truthy_dict _ _ _ Hp)).
  destruct (bool_decide (dict_display a b = ∅)) eqn:Hd; simpl.
  - apply bool_decide_eq_true in Hd.
    read.
    read.
    intros [= <- <-]. simpl. rewrite Hd.
    rewrite (dict_display_empty _ _ Hd), dict_update_union.
    rewrite (left_id_L ∅ (∪)). by apply list_lookup_middle.
  - by intros [= <- <-].
Qed.

Section BatchFlowRun.

Variable ct : class_id → pyclass.

Lemma BatchFlow__run_for_chain fuel self shared bs : ∀ h h2 tm wm,
  BatchFlow__run_for (_orch (_run ct fuel) fuel) self shared bs h
    = Done (Ret tt) h2 tm wm →
  batch_chain ct fuel self shared bs h h2 tm wm.
Proof.
  induction bs as [|bp rest IH]; intros h h2 tm wm E.
  - injection E as <- <- <-. constructor.
  - cbn [BatchFlow__run_for] in E.
    destruct (nodes h !! self) as [o|] eqn:Ho.
    2:{ unfold bind, get_node in E. by rewrite Ho in E. }
    read_in E.
    destruct (dicts h !! params o) as [a|] eqn:Ha.
    2:{ unfold bind, get_dict in E. by rewrite Ha in E. }
    read_in E.
    destruct bp as [| | | | |bl|]; try done.
    cbn [as_mapping] in E.
    destruct (dicts h !! bl) as [b|] eqn:Hb.
    2:{ unfold bind, get_dict in E. by rewrite Hb in E. }
    read_in E.
    rewrite (bind_quiet _ _ h (length (dicts h)) _ eq_refl) in E.
    set (hd := with_dicts h (dicts h ++ [dict_display a b])) in *.
    apply bind_Done in E as [(e & _ & [=])|E].
    destruct E as (r & h1 & t1 & w1 & t2 & w2 & Eo & E & -> & ->).
    destruct (_orch_Done _ _ _ _ _ _ _ _ _ _ Eo)
      as (o' & cur & h0 & np & hs & Ho' & Ecp & Enp & Ew).
    assert (o' = o) as -> by (simpl in Ho'; congruence).
    destruct (copy_frame _ _ _ _ Ecp) as [Hd0 Hn0].
    assert (dicts hs !! np = Some (dict_display a b)) as Hnp.
    { apply (node_params_of_display self (length (dicts h)) h0 o a b np hs).
      - by apply Hn0.
      - rewrite Hd0. simpl. apply lookup_app_l_Some. done.
      - rewrite Hd0. simpl. by apply list_lookup_middle.
      - done. }
    destruct (_orch_while_shape _ _ _ _ _ _ _ _ _ _ _ _ Ew) as [Hall _].
    by eapply chain_cons; eauto.
Qed.

(** C5: a run of a batch flow whose prepare returns a list of parameter
    maps and which returns.  Between the call of prepare and the call of
    post the traversals of [batch_chain] take place: one per map, in list
    order, on the same shared state, each on the store the one before
    left, and each with the flow's own params overlaid with the map,
    where the map has the last word on a common key.  Post is then called
    with the list and [None]. *)
Theorem batch_flow_runs_per_map fuel self shared h o bs h1 v h' t w :
  nodes h !! self = Some o →
  base (ct (cls o)) = BatchFlow →
  prep (ct (cls o)) self shared h = (Ret (PList bs), h1) →
  _run ct (S fuel) self shared h = Done (Ret v) h' t w →
  (∃ h2 tm o2,
     batch_chain ct fuel self shared bs h1 h2 tm w ∧
     nodes h2 !! self = Some o2 ∧
     post (ct (cls o2)) self shared (PList bs) PNone h2 = (Ret v, h') ∧
     t = EvPrep self shared (Ret (PList bs)) :: tm
           ++ [EvPost self shared (PList bs) PNone (Ret v)]) ∧
  (∀ (a b : gmap string pyval) k,
     dict_display a b !! k =
       match b !! k with Some x => Some x | None => a !! k end).
Proof.
  intros Ho Hb Hp E. split; [|apply dict_display_lookup].
  cbn [_run] in E.
  read_in E. rewrite Hb in E.
  unfold BatchFlow__run in E.
  rewrite (bind_Ret _ _ _ _ _ _ _ (call_prep_Done ct _ _ _ _ _ _ Ho Hp)) in E.
  rewrite (bind_pure _ _ _ _ (py_or_list bs h1)) in E.
  rewrite (bind_pure _ _ h1 bs eq_refl) in E.
  destruct (bind _ _ h1) as [r2 h3 t3 w3|] eqn:E2; [|done].
  injection E as -> -> <- <-.
  apply bind_Done in E2 as [(e & _ & [=])|E2].
  destruct E2 as ([] & h2 & tm & wm & t4 & w4 & Efor & Epost & -> & ->).
  destruct (call_post_inv _ _ _ _ _ _ _ _ _ _ Epost)
    as (o2 & Ho2 & Ep & -> & ->).
  exists h2, tm, o2. rewrite app_nil_r. split; [|done].
  by apply BatchFlow__run_for_chain.
Qed.

End BatchFlowRun.

Lemma visit_preps_app t1 t2 :
  visit_preps (t1 ++ t2) = visit_preps t1 ++ visit_preps t2.
Proof.
  induction t1 as [|ev t1 IH]; simpl; [done|].
  destruct ev; simpl; by rewrite ?IH, ?app_assoc.
Qed.

Lemma batch_flow_runs_per_map_witness :
  let X := _run FlowExamples.classes 3 1%nat (PDict 2%nat)
                FlowExamples.sweep_heap in
  ∃ h2 tm,
    batch_chain FlowExamples.classes 2 1%nat (PDict 2%nat)
                [PDict 3%nat; PDict 4%nat] FlowExamples.sweep_heap h2 tm [] ∧
    trace_of X =
      EvPrep 1%nat (PDict 2%nat) (Ret (PList [PDict 3%nat; PDict 4%nat]))
        :: tm ++ [EvPost 1%nat (PDict 2%nat)
                         (PList [PDict 3%nat; PDict 4%nat]) PNone
                         (Ret PNone)] ∧
    visit_preps tm = [Ret (PList [PInt 0; PInt 5]);
                      Ret (PList [PInt 1; PInt 5])].
Proof.
  intros X.
  assert (X = Done (Ret PNone) (heap_of X) (trace_of X) []) as EX
    by (vm_compute; reflexivity).
  destruct (batch_flow_runs_per_map FlowExamples.classes 2 1%nat
              (PDict 2%nat) FlowExamples.sweep_heap
              (mkObj 4%nat 1%nat 1%nat 1 0 0 (Some 0%nat))
              [PDict 3%nat; PDict 4%nat] FlowExamples.sweep_heap
              PNone (heap_of X) (trace_of X) []
              eq_refl eq_refl eq_refl EX)
    as [(h2 & tm & o2 & Hchain & _ & _ & Ht) _].
  exists h2, tm. split; [done|]. split; [done|].
  assert (visit_preps (trace_of X)
          = [Ret (PList [PInt 0; PInt 5]); Ret (PList [PInt 1; PInt 5])])
    as Hv by (vm_compute; reflexivity).
  rewrite Ht in Hv. simpl in Hv.
  by rewrite visit_preps_app, app_nil_r in Hv.
Defined.

(** ** More fuel gives the same result *)

Lemma at_least_refl {A} (m : M A) : at_least m m.
Proof. by intros h r h' t w E. Qed.

Lemma at_least_bind {A B} (m1 m2 : M A) (k1 k2 : A → M B) :
  at_least m1 m2 → (∀ a, at_least (k1 a) (k2 a)) →
  at_least (bind m1 k1) (bind m2 k2).
Proof.
  intros Hm Hk h r h' t w E.
  apply bind_Done in E as [(e & E & ->)|E].
  - by rewrite (bind_Exc _ _ _ _ _ _ _ (Hm _ _ _ _ _ E)).
  - destruct E as (a & h1 & t1 & w1 & t2 & w2 & E1 & E2 & -> & ->).
    rewrite (bind_Ret _ _ _ _ _ _ _ (Hm _ _ _ _ _ E1)).
    by rewrite (Hk _ _ _ _ _ _ E2).
Qed.

Lemma at_least_visit c (m1 m2 : M pyval) :
  at_least m1 m2 → at_least (visit c m1) (visit c m2).
Proof.
  intros Hm h r h' t w. unfold visit.
  destruct (nodes h !! c) as [o|]; [|done].
  destruct (m1 h) as [r1 h1 t1 w1|] eqn:E; [|done].
  by rewrite (Hm _ _ _ _ _ E).
Qed.

Section Fuel.

Variable ct : class_id → pyclass.

Lemma _orch_while_mono rn1 rn2 self shared np fuel1 : ∀ fuel2 cur last,
  (∀ c s, at_least (rn1 c s) (rn2 c s)) → (fuel1 ≤ fuel2)%nat →
  at_least (_orch_while rn1 fuel1 self shared np cur last)
           (_orch_while rn2 fuel2 self shared np cur last).
Proof.
  induction fuel1 as [|fuel1 IH]; intros fuel2 cur last Hrn Hle.
  all: destruct cur as [c|];
    [|rewrite !_orch_while_None; apply at_least_refl].
  { by intros h r h' t w E. }
  destruct fuel2 as [|fuel2]; [lia|]. cbn [_orch_while].
  apply at_least_bind; [apply at_least_refl|intros _].
  apply at_least_bind; [by apply at_least_visit|intros a].
  apply at_least_bind; [apply at_least_refl|intros nx].
  apply at_least_bind; [apply at_least_refl|intros cur'].
  apply IH; [done|lia].
Qed.

Lemma _orch_mono rn1 rn2 fuel1 fuel2 self shared p :
  (∀ c s, at_least (rn1 c s) (rn2 c s)) → (fuel1 ≤ fuel2)%nat →
  at_least (_orch rn1 fuel1 self shared p) (_orch rn2 fuel2 self shared p).
Proof.
  intros Hrn Hle. unfold _orch.
  apply at_least_bind; [apply at_least_refl|intros o].
  apply at_least_bind; [apply at_least_refl|intros cur].
  apply at_least_bind; [apply at_least_refl|intros np].
  by apply _orch_while_mono.
Qed.

Lemma BatchFlow__run_for_mono orch1 orch2 self shared bs :
  (∀ s sh p, at_least (orch1 s sh p) (orch2 s sh p)) →
  at_least (BatchFlow__run_for orch1 self shared bs)
           (BatchFlow__run_for orch2 self shared bs).
Proof.
  intros Ho. induction bs as [|b rest IH]; [apply at_least_refl|].
  cbn [BatchFlow__run_for].
  apply at_least_bind; [apply at_least_refl|intros o].
  apply at_least_bind; [apply at_least_refl|intros a].
  apply at_least_bind; [apply at_least_refl|intros bd].
  apply at_least_bind; [apply at_least_refl|intros cp].
  by apply at_least_bind.
Qed.

(** A run that has a result with some fuel has the same result with any
    larger fuel. *)
Lemma _run_fuel_mono fuel1 : ∀ fuel2 self shared,
  (fuel1 ≤ fuel2)%nat →
  at_least (_run ct fuel1 self shared) (_run ct fuel2 self shared).
Proof.
  induction fuel1 as [|fuel1 IH]; intros fuel2 self shared Hle.
  { by intros h r h' t w E. }
  destruct fuel2 as [|fuel2]; [lia|]. cbn [_run].
  assert (∀ s sh p, at_least (_orch (_run ct fuel1) fuel1 s sh p)
                             (_orch (_run ct fuel2) fuel2 s sh p)) as Horch.
  { intros s sh p. apply _orch_mono; [|lia]. intros c s'. apply IH. lia. }
  apply at_least_bind; [apply at_least_refl|intros o].
  destruct (base (ct (cls o))); try apply at_least_refl.
  all: unfold Flow__run, BatchFlow__run.
  all: repeat (apply at_least_bind;
               [first [apply Horch
                      |by apply BatchFlow__run_for_mono
                      |apply at_least_refl]
               |intros ?]).
  all: apply at_least_refl.
Qed.

End Fuel.

(** * Further properties of the module *)

(** ** Wiring and the lookup of the successor *)

Lemma succs_after_next self node action h o m :
  nodes h !! self = Some o → succs h !! successors o = Some m →
  succs (with_succs h (<[successors o := <[action := node]> m]> (succs h)))
    !! successors o = Some (<[action := node]> m).
Proof.
  intros _ Hm. simpl. apply list_lookup_insert_eq. by eapply lookup_lt_Some.
Qed.

Lemma truthy_same_dicts v h h1 :
  dicts h1 = dicts h →
  ∀ b, truthy v h = Done (Ret b) h [] [] → truthy v h1 = Done (Ret b) h1 [] [].
Proof.
  intros Hd b. destruct v; try by intros [= <-].
  cbn [truthy]. unfold bind, get_dict. rewrite Hd.
  destruct (dicts h !! d); [|done]. by intros [= <-].
Qed.

Lemma truthy_Done v h r h' t w :
  truthy v h = Done r h' t w →
  ∃ b, r = Ret b ∧ h' = h ∧ t = [] ∧ w = [].
Proof.
  destruct v; try (intros [= <- <- <- <-]; by eexists).
  cbn [truthy]. unfold bind, get_dict.
  destruct (dicts h !! d); [|done]. intros [= <- <- <- <-]. by eexists.
Qed.

Lemma py_or_Done a b h r h' t w :
  py_or a b h = Done r h' t w →
  ∃ tv, truthy a h = Done (Ret tv) h [] [] ∧
        r = Ret (if tv then a else b) ∧ h' = h ∧ t = [] ∧ w = [].
Proof.
  unfold py_or. intros E. apply bind_Done in E as [(e & E & _)|E].
  { by apply truthy_Done in E as (? & [=] & _). }
  destruct E as (tv & h1 & t1 & w1 & t2 & w2 & E1 & [= <- <- <- <-] & -> & ->).
  destruct (truthy_Done _ _ _ _ _ _ E1) as (? & [= <-] & -> & -> & ->).
  by exists tv.
Qed.

(** The key [action or "default"] is never the empty string. *)
Lemma py_or_default_key a h key :
  py_or a (PStr "default") h = Done (Ret (PStr key)) h [] [] →
  key ≠ EmptyString.
Proof.
  intros E. apply py_or_Done in E as (tv & Et & [= E] & _).
  destruct tv; [|by injection E as ->].
  subst a. injection Et as Et. by destruct key.
Qed.

(** X1: after [self.next(node, action)] with a non-empty label, the
    traversal that gets [action] from post finds [node], without a warning,
    and every other label is looked up as before the wiring. *)
Theorem wired_edge_is_followed flow self node action h o m :
  nodes h !! self = Some o → succs h !! successors o = Some m →
  action ≠ EmptyString →
  ∃ h1 w,
    next self node action h = Done (Ret node) h1 [] w ∧
    get_next_node flow self (PStr action) h1
      = Done (Ret (Some node)) h1 [] [] ∧
    ∀ other key,
      py_or other (PStr "default") h1 = Done (Ret (PStr key)) h1 [] [] →
      key ≠ action →
      get_next_node flow self other h1 =
        Done (Ret (m !! key)) h1 []
             (if bool_decide (is_Some (m !! key)) then []
              else [FlowEnds other]).
Proof.
  intros Ho Hm Hne. eexists _, _. split; [by apply next_Done|].
  set (h1 := with_succs h _).
  assert (nodes h1 !! self = Some o) as Ho1 by done.
  pose proof (succs_after_next self node action h o m Ho Hm) as Hm1.
  fold h1 in Hm1.
  assert (<[action := node]> m ≠ ∅) as Hnonempty by apply insert_non_empty.
  split.
  - rewrite (get_next_node_Done flow self (PStr action) action h1 o _ Ho1 Hm1).
    + rewrite lookup_insert_eq. by rewrite bool_decide_eq_true_2 by by eexists.
    + unfold py_or. cbn [truthy].
      rewrite (bind_pure _ _ h1 _ eq_refl).
      by destruct action.
  - intros other key Hkey Hk.
    rewrite (get_next_node_Done flow self other key h1 o _ Ho1 Hm1 Hkey).
    rewrite lookup_insert_ne by done.
    rewrite (bool_decide_eq_false_2 _ Hnonempty).
    by destruct (bool_decide (is_Some (m !! key))).
Qed.

Lemma wired_edge_is_followed_witness :
  ∃ h1 w,
    next 0%nat 1%nat "left" Examples.pair_heap = Done (Ret 1%nat) h1 [] w ∧
    get_next_node 5%nat 0%nat (PStr "left") h1
      = Done (Ret (Some 1%nat)) h1 [] [].
Proof.
  destruct (wired_edge_is_followed 5%nat 0%nat 1%nat "left"
              Examples.pair_heap (mkObj 2%nat 0%nat 0%nat 1 0 0 None) ∅
              eq_refl eq_refl) as (h1 & w & E1 & E2 & _); [done|].
  by exists h1, w.
Defined.

Lemma py_or_same_dicts a b h h1 r :
  dicts h1 = dicts h →
  py_or a b h = Done (Ret r) h [] [] → py_or a b h1 = Done (Ret r) h1 [] [].
Proof.
  intros Hd E. apply py_or_Done in E as (tv & Et & [= ->] & _).
  unfold py_or. by rewrite (bind_pure _ _ _ _ (truthy_same_dicts _ _ _ Hd _ Et)).
Qed.

(** [d.get(key)] does not look at the store. *)
Lemma succs_get_pure m key h :
  ∃ r, ∀ h0, succs_get m key h0 = Done r h0 [] [] ∧ succs_get m key h = Done r h [] [].
Proof. destruct key; by eexists. Qed.

Lemma get_next_node_inv self cur a h o m r h' t w :
  nodes h !! cur = Some o → succs h !! successors o = Some m →
  get_next_node self cur a h = Done r h' t w →
  ∃ key rn,
    py_or a (PStr "default") h = Done (Ret key) h [] [] ∧
    succs_get m key h = Done rn h [] [] ∧
    h' = h ∧ t = [] ∧
    match rn with
    | Ret nx =>
        r = Ret nx ∧
        w = if negb (bool_decide (is_Some nx)) && negb (bool_decide (m = ∅))
            then [FlowEnds a] else []
    | Exc e => r = Exc e ∧ w = []
    end.
Proof.
  intros Ho Hm. unfold get_next_node. read. read. intros E.
  apply bind_Done in E as [(e & E & _)|E].
  { by apply py_or_Done in E as (? & _ & [=] & _). }
  destruct E as (key & h1 & t1 & w1 & t2 & w2 & Ek & E & -> & ->).
  destruct (py_or_Done _ _ _ _ _ _ _ Ek) as (tv & Et & [= Hkey] & -> & -> & ->).
  destruct (succs_get_pure m key h) as (rn & Hrn).
  destruct (Hrn h) as [Eg _]. exists key, rn.
  split; [by rewrite Ek, Hkey|]. split; [done|].
  destruct rn as [nx|e].
  - rewrite (bind_pure _ _ _ _ Eg) in E.
    destruct (negb (bool_decide (is_Some nx)) && negb (bool_decide (m = ∅))).
    + by injection E as <- <- <- <-.
    + by injection E as <- <- <- <-.
  - rewrite (bind_Exc _ _ _ _ _ _ _ Eg) in E. by injection E as <- <- <- <-.
Qed.

Lemma get_next_node_of_key self cur a key nx h o m :
  nodes h !! cur = Some o → succs h !! successors o = Some m →
  py_or a (PStr "default") h = Done (Ret key) h [] [] →
  succs_get m key h = Done (Ret nx) h [] [] →
  get_next_node self cur a h =
    Done (Ret nx) h []
         (if negb (bool_decide (is_Some nx)) && negb (bool_decide (m = ∅))
          then [FlowEnds a] else []).
Proof.
  intros Ho Hm Hkey Hg. unfold get_next_node. read. read.
  rewrite (bind_pure _ _ _ _ Hkey), (bind_pure _ _ _ _ Hg).
  by destruct (negb (bool_decide (is_Some nx)) && negb (bool_decide (m = ∅))).
Qed.

(** X2: an edge wired under the empty label is never followed.  After
    [self.next(node, "")], every action finds the successor it found before
    the wiring: no value of [action or "default"] is the empty string. *)
Theorem empty_label_edge_is_never_followed flow self node h o m :
  nodes h !! self = Some o → succs h !! successors o = Some m →
  ∃ h1 w,
    next self node EmptyString h = Done (Ret node) h1 [] w ∧
    succs h1 !! successors o = Some (<[EmptyString := node]> m) ∧
    ∀ a nx w0,
      get_next_node flow self a h = Done (Ret nx) h [] w0 →
      ∃ w1, get_next_node flow self a h1 = Done (Ret nx) h1 [] w1.
Proof.
  intros Ho Hm. eexists _, _. split; [by apply next_Done|].
  set (h1 := with_succs h _).
  assert (nodes h1 !! self = Some o) as Ho1 by done.
  pose proof (succs_after_next self node EmptyString h o m Ho Hm) as Hm1.
  fold h1 in Hm1. split; [done|].
  intros a nx w0 E.
  destruct (get_next_node_inv _ _ _ _ _ _ _ _ _ _ Ho Hm E)
    as (key & rn & Hkey & Hg & _ & _ & Hr).
  destruct rn as [nx'|e]; [|by destruct Hr]. destruct Hr as [[= <-] _].
  eexists.
  apply (get_next_node_of_key flow self a key nx h1 o _ Ho1 Hm1).
  - by apply (py_or_same_dicts _ _ h).
  - destruct key; cbn [succs_get] in Hg |- *; try done;
      injection Hg as <-; try done.
    rewrite lookup_insert_ne; [done|].
    intros <-. by apply (py_or_default_key _ _ _ Hkey).
Qed.

Lemma empty_label_edge_is_never_followed_witness :
  ∃ h1 w,
    next 0%nat 1%nat EmptyString Examples.pair_heap
      = Done (Ret 1%nat) h1 [] w ∧
    succs h1 !! 0%nat = Some {[EmptyString := 1%nat]} ∧
    ∃ w1, get_next_node 5%nat 0%nat (PStr EmptyString) h1
          = Done (Ret None) h1 [] w1.
Proof.
  destruct (empty_label_edge_is_never_followed 5%nat 0%nat 1%nat
              Examples.pair_heap (mkObj 2%nat 0%nat 0%nat 1 0 0 None) ∅
              eq_refl eq_refl) as (h1 & w & E1 & E2 & H).
  exists h1, w. split; [done|]. split; [done|].
  apply (H (PStr EmptyString) None []). reflexivity.
Defined.

(** X3: after [self >> node], an action that is ["default"], [None], the
    empty string or any other value Python takes for false leads to [node],
    without a warning. *)
Theorem default_edge_is_followed flow self node h o m :
  nodes h !! self = Some o → succs h !! successors o = Some m →
  ∃ h1 w,
    __rshift__ self node h = Done (Ret node) h1 [] w ∧
    ∀ a,
      a = PStr "default" ∨ truthy a h1 = Done (Ret false) h1 [] [] →
      get_next_node flow self a h1 = Done (Ret (Some node)) h1 [] [].
Proof.
  intros Ho Hm. eexists _, _. split; [by apply next_Done|].
  set (h1 := with_succs h _).
  assert (nodes h1 !! self = Some o) as Ho1 by done.
  pose proof (succs_after_next self node "default" h o m Ho Hm) as Hm1.
  fold h1 in Hm1.
  intros a Ha.
  assert (py_or a (PStr "default") h1
          = Done (Ret (PStr "default")) h1 [] []) as Hkey.
  { unfold py_or. destruct Ha as [-> | Ha].
    - by rewrite (bind_pure _ _ h1 true eq_refl).
    - by rewrite (bind_pure _ _ _ _ Ha). }
  rewrite (get_next_node_Done flow self a "default" h1 o _ Ho1 Hm1 Hkey).
  rewrite lookup_insert_eq. by rewrite bool_decide_eq_true_2 by by eexists.
Qed.

Lemma default_edge_is_followed_witness :
  ∃ h1 w,
    __rshift__ 0%nat 1%nat Examples.pair_heap = Done (Ret 1%nat) h1 [] w ∧
    get_next_node 5%nat 0%nat PNone h1 = Done (Ret (Some 1%nat)) h1 [] [] ∧
    get_next_node 5%nat 0%nat (PInt 0) h1 = Done (Ret (Some 1%nat)) h1 [] [].
Proof.
  destruct (default_edge_is_followed 5%nat 0%nat 1%nat
              Examples.pair_heap (mkObj 2%nat 0%nat 0%nat 1 0 0 None) ∅
              eq_refl eq_refl) as (h1 & w & E1 & H).
  exists h1, w. split; [done|]. split; apply H; by right.
Defined.

(** X4: wiring a label twice.  The second call warns that it overwrites,
    the first warns only if the label was already there, and the successor
    dict ends as if only the second call had been made. *)
Theorem rewiring_overwrites self n1 n2 action h o m :
  nodes h !! self = Some o → succs h !! successors o = Some m →
  (let* first := next self n1 action in next self n2 action) h =
    Done (Ret n2)
         (with_succs h (<[successors o := <[action := n2]> m]> (succs h)))
         []
         ((if bool_decide (is_Some (m !! action))
           then [Overwriting action] else []) ++ [Overwriting action]).
Proof.
  intros Ho Hm.
  rewrite (bind_Ret _ _ _ _ _ _ _ (next_Done self n1 action h o m Ho Hm)).
  set (h1 := with_succs h _).
  assert (nodes h1 !! self = Some o) as Ho1 by done.
  pose proof (succs_after_next self n1 action h o m Ho Hm) as Hm1.
  fold h1 in Hm1.
  rewrite (next_Done self n2 action h1 o _ Ho1 Hm1).
  rewrite lookup_insert_eq.
  rewrite (bool_decide_eq_true_2 (is_Some (Some n1))) by by eexists.
  rewrite insert_insert_eq. unfold h1, with_succs. simpl.
  by rewrite list_insert_insert_eq.
Qed.

Lemma rewiring_overwrites_witness :
  (let* first := next 0%nat 1%nat "left" in next 0%nat 0%nat "left")
    Examples.pair_heap
  = Done (Ret 0%nat)
         (with_succs Examples.pair_heap
            (<[0%nat := <["left" := 0%nat]> ∅]> (succs Examples.pair_heap)))
         [] [Overwriting "left"].
Proof.
  exact (rewiring_overwrites 0%nat 1%nat 0%nat "left" Examples.pair_heap
           (mkObj 2%nat 0%nat 0%nat 1 0 0 None) ∅ eq_refl eq_refl).
Defined.

(** ** A node run on its own *)

Section OwnEvents.

Variable ct : class_id → pyclass.

Lemma Node__exec_for_own ks : ∀ self p h r h' t w,
  Node__exec_for ct ks self p h = Done r h' t w →
  Forall (own_event self) t ∧ w = [].
Proof.
  induction ks as [|k ks IH]; intros self p h r h' t w E.
  { by injection E as <- <- <- <-. }
  cbn [Node__exec_for] in E.
  apply bind_Done in E as [(e & E & _)|E].
  { by apply get_node_Done in E as (? & _ & [=] & _). }
  destruct E as (o & h0 & t0 & w0 & t1 & w1 & Eg & E & -> & ->).
  apply get_node_Done in Eg as (? & Ho & [= <-] & -> & -> & ->).
  rewrite (bind_quiet _ _ h tt _ eq_refl) in E.
  apply bind_Done in E as [(e & E & _)|E].
  { by apply catch_Done in E as (? & [=] & _). }
  destruct E as (r2 & h2 & t2 & w2 & t3 & w3 & Ec & E & -> & ->).
  apply catch_Done in Ec as (? & [= <-] & Ec).
  apply called_inv in Ec as (o1 & _ & _ & -> & ->).
  destruct r2 as [v|e].
  { injection E as <- <- <- <-. split; [by repeat constructor|done]. }
  apply bind_Done in E as [(e' & E & _)|E].
  { by apply get_node_Done in E as (? & _ & [=] & _). }
  destruct E as (o2 & h3 & t4 & w4 & t5 & w5 & Eg & E & -> & ->).
  apply get_node_Done in Eg as (? & Ho2 & [= <-] & -> & -> & ->).
  destruct (cur_retry o2 =? max_retries o2 - 1).
  { apply called_inv in E as (o3 & _ & _ & -> & ->).
    split; [by repeat constructor|done]. }
  apply bind_Done in E as [(e' & E & _)|E].
  { by apply pause_inv in E as ([=] & _). }
  destruct E as ([] & h4 & t6 & w6 & t7 & w7 & Ep & E & -> & ->).
  apply pause_inv in Ep as (_ & -> & Hsl & ->).
  destruct (IH _ _ _ _ _ _ _ E) as [IH1 ->]. split; [|done].
  simpl. constructor; [done|]. apply Forall_app. split; [|done].
  destruct Hsl as [->|[secs ->]]; by repeat constructor.
Qed.

Lemma Node__exec_own self p h r h' t w :
  Node__exec ct self p h = Done r h' t w →
  Forall (own_event self) t ∧ w = [].
Proof.
  unfold Node__exec. intros E.
  apply bind_Done in E as [(e & E & _)|E].
  { by apply get_node_Done in E as (? & _ & [=] & _). }
  destruct E as (o & h0 & t0 & w0 & t1 & w1 & Eg & E & -> & ->).
  apply get_node_Done in Eg as (? & Ho & [= <-] & -> & -> & ->).
  by apply Node__exec_for_own in E.
Qed.

Lemma BatchNode__exec_for_own self l : ∀ h r h' t w,
  BatchNode__exec_for ct self l h = Done r h' t w →
  Forall (own_event self) t ∧ w = [].
Proof.
  induction l as [|i rest IH]; intros h r h' t w E.
  { by injection E as <- <- <- <-. }
  cbn [BatchNode__exec_for] in E.
  apply bind_Done in E as [(e & E & _)|E]; [by apply Node__exec_own in E|].
  destruct E as (v & h1 & t1 & w1 & t2 & w2 & E1 & E & -> & ->).
  apply Node__exec_own in E1 as [H1 ->].
  apply bind_Done in E as [(e & E & _)|E].
  { apply IH in E as [H2 ->]. split; [|done]. by apply Forall_app. }
  destruct E as (rs & h2 & t3 & w3 & t4 & w4 & E2 & [= <- <- <- <-] & -> & ->).
  apply IH in E2 as [H2 ->]. split; [|done].
  rewrite app_nil_r. by apply Forall_app.
Qed.

Lemma BatchNode__exec_own self items h r h' t w :
  BatchNode__exec ct self items h = Done r h' t w →
  Forall (own_event self) t ∧ w = [].
Proof.
  unfold BatchNode__exec. intros E.
  apply bind_Done in E as [(e & E & _)|E].
  { by apply py_or_Done in E as (? & _ & [=] & _). }
  destruct E as (sq & h1 & t1 & w1 & t2 & w2 & E1 & E & -> & ->).
  apply py_or_Done in E1 as (? & _ & _ & -> & -> & ->).
  apply bind_Done in E as [(e & E & _)|E].
  { destruct sq; try done; by injection E as <- <- <- <-. }
  destruct E as (l & h2 & t3 & w3 & t4 & w4 & E2 & E & -> & ->).
  assert (h2 = h ∧ t3 = [] ∧ w3 = []) as (-> & -> & ->)
    by (destruct sq; try done; by injection E2 as <- <- <- <-).
  apply bind_Done in E as [(e & E & _)|E].
  { by apply BatchNode__exec_for_own in E. }
  destruct E as (rs & h3 & t5 & w5 & t6 & w6 & E3 & [= <- <- <- <-] & -> & ->).
  apply BatchNode__exec_for_own in E3 as [H ->].
  by rewrite app_nil_r.
Qed.

Lemma BaseNode__run_own _exec self shared h r h' t w :
  (∀ p h r h' t w, _exec self p h = Done r h' t w →
                   Forall (own_event self) t ∧ w = []) →
  BaseNode__run ct _exec self shared h = Done r h' t w →
  Forall (own_event self) t ∧ w = [].
Proof.
  intros Hexec E. unfold BaseNode__run in E.
  apply bind_Done in E as [(e & E & _)|E].
  { apply called_inv in E as (o & _ & _ & -> & ->).
    by repeat constructor. }
  destruct E as (p & h1 & t1 & w1 & t2 & w2 & E1 & E & -> & ->).
  apply called_inv in E1 as (o & _ & _ & -> & ->).
  apply bind_Done in E as [(e & E & _)|E].
  { apply Hexec in E as [H ->]. split; [|done]. by constructor. }
  destruct E as (x & h2 & t3 & w3 & t4 & w4 & E2 & E & -> & ->).
  apply Hexec in E2 as [H ->].
  assert (Forall (own_event self) t4 ∧ w4 = []) as [H4 ->].
  { apply bind_Done in E as [(e & E & _)|E].
    - apply called_inv in E as (o' & _ & _ & -> & ->). by repeat constructor.
    - destruct E as (y & h3 & t5 & w5 & t6 & w6 & E3 & [= <- <- <- <-] & -> & ->).
      apply called_inv in E3 as (o' & _ & _ & -> & ->). by repeat constructor. }
  split; [|done]. simpl. constructor; [done|]. by apply Forall_app.
Qed.

(** X5: [run] on a node that is not a flow runs that node and nothing
    else: whatever the wiring, every call is a call of a method of the node
    itself and nothing is visited; the only warning is the one for a node
    that has successors, emitted exactly when it has some. *)
Theorem lone_node_run_ignores_successors fuel self shared h o m r h' t w :
  nodes h !! self = Some o → succs h !! successors o = Some m →
  base (ct (cls o)) = BaseNode ∨ base (ct (cls o)) = Node ∨
    base (ct (cls o)) = BatchNode →
  run ct fuel self shared h = Done r h' t w →
  Forall (own_event self) t ∧
  w = if bool_decide (m = ∅) then [] else [WontRunSuccessors].
Proof.
  intros Ho Hm Hb E. unfold run in E. read_in E.
  rewrite (bind_pure _ _ h _ (get_succs_Some _ _ _ Hm)) in E.
  assert (∀ h0 r0 h1 t0 w0, nodes h0 = nodes h →
            _run ct fuel self shared h0 = Done r0 h1 t0 w0 →
            Forall (own_event self) t0 ∧ w0 = []) as Hrun.
  { intros h0 r0 h1 t0 w0 Hn E0. destruct fuel as [|fuel]; [done|].
    cbn [_run] in E0.
    assert (nodes h0 !! self = Some o) as Ho0 by by rewrite Hn.
    read_in E0.
    destruct Hb as [Hb|[Hb|Hb]]; rewrite Hb in E0;
      eapply BaseNode__run_own; try exact E0; intros.
    - match goal with H : BaseNode__exec _ _ _ _ = _ |- _ =>
        apply called_inv in H as (? & _ & _ & -> & ->) end.
      by repeat constructor.
    - by eapply Node__exec_own.
    - by eapply BatchNode__exec_own. }
  destruct (bool_decide (m = ∅)); cbn [negb] in E.
  - rewrite (bind_pure _ _ h tt eq_refl) in E. by apply (Hrun h) in E.
  - rewrite (bind_Ret _ _ h tt h [] [WontRunSuccessors] eq_refl) in E.
    destruct (_run ct fuel self shared h) as [r0 h1 t0 w0|] eqn:E0; [|done].
    injection E as <- <- <- <-. apply (Hrun h) in E0 as [H ->]; done.
Qed.

End OwnEvents.

Lemma lone_node_run_ignores_successors_witness :
  ∃ h' t,
    run Examples.classes 1 0%nat PNone Examples.wired_heap
      = Done (Ret PNone) h' t [WontRunSuccessors] ∧
    Forall (own_event 0%nat) t.
Proof.
  assert (∃ h' t, run Examples.classes 1 0%nat PNone Examples.wired_heap
                  = Done (Ret PNone) h' t [WontRunSuccessors])
    as (h' & t & E) by (eexists _, _; vm_compute; reflexivity).
  exists h', t. split; [done|].
  by destruct (lone_node_run_ignores_successors Examples.classes 1 0%nat
                 PNone Examples.wired_heap
                 (mkObj 2%nat 0%nat 0%nat 1 0 0 None) {["left" := 1%nat]}
                 (Ret PNone) h' t [WontRunSuccessors] eq_refl eq_refl
                 (or_intror (or_introl eq_refl)) E).
Defined.

(** ** Building a flow *)

(** X6: [Flow(start_node=n)] and [Flow()] followed by [start(n)] leave the
    same store, and [start] returns [n]. *)
Theorem start_is_the_constructor_argument (c : class_id) (n : loc) (h : heap) :
  (let* f := Flow___init__ c None in
   let* s := Flow_start f n in ret (f, s)) h =
  (let* f := Flow___init__ c (Some n) in ret (f, n)) h.
Proof.
  unfold Flow___init__, Flow_start, bind, alloc_dict, alloc_succs, alloc_node,
    get_node, put_node, ret.
  simpl. rewrite lookup_app_r, Nat.sub_diag by done. simpl.
  do 2 f_equal. unfold with_nodes. simpl. f_equal.
  rewrite insert_app_r_alt, Nat.sub_diag by done. done.
Qed.

(** ** Actions that are not labels *)

(** X7: An action that is a non-empty list cannot be hashed and makes the
    lookup raise; a non-zero integer, [True] or an object is looked up as it
    is, is not among the labels, and ends the flow like a missing label. *)
Theorem actions_that_are_not_strings flow cur h o m :
  nodes h !! cur = Some o → succs h !! successors o = Some m →
  (∀ x l, get_next_node flow cur (PList (x :: l)) h
          = Done (Exc (TypeError "unhashable type: 'list'")) h [] []) ∧
  (∀ a, (∃ z, a = PInt z ∧ z ≠ 0) ∨ a = PBool true ∨ (∃ n, a = PNode n) →
     get_next_node flow cur a h
     = Done (Ret None) h []
            (if bool_decide (m = ∅) then [] else [FlowEnds a])).
Proof.
  intros Ho Hm. split.
  - intros x l. unfold get_next_node. read. read.
    by rewrite (bind_pure _ _ h (PList (x :: l)) eq_refl).
  - intros a Ha.
    assert (py_or a (PStr "default") h = Done (Ret a) h [] [] ∧
            succs_get m a h = Done (Ret None) h [] []) as [Hkey Hg].
    { destruct Ha as [(z & -> & Hz)|[->|(n & ->)]]; split; try done.
      unfold py_or. cbn [truthy].
      rewrite (bind_pure _ _ h (negb (z =? 0)) eq_refl).
      by replace (z =? 0) with false by lia. }
    rewrite (get_next_node_of_key flow cur a a None h o m Ho Hm Hkey Hg).
    rewrite bool_decide_eq_false_2 by by intros [? [=]].
    by destruct (bool_decide (m = ∅)).
Qed.

Lemma actions_that_are_not_strings_witness :
  get_next_node 5%nat 0%nat (PInt 3) Examples.wired_heap
  = Done (Ret None) Examples.wired_heap [] [FlowEnds (PInt 3)].
Proof.
  destruct (actions_that_are_not_strings 5%nat 0%nat Examples.wired_heap
              (mkObj 2%nat 0%nat 0%nat 1 0 0 None) {["left" := 1%nat]}
              eq_refl eq_refl) as [_ H].
  apply (H (PInt 3)). left. by exists 3.
Defined.

(** ** Failures outside the retry wrapper *)

Section Failures.

Variable ct : class_id → pyclass.

(** X8: When prepare raises, nothing else is called: no execute, no traversal,
    no post; the run raises the same exception.  This holds for every class
    whose [_run] starts with prepare, flows included. *)
Theorem prepare_failure_stops_the_run fuel self shared h o e h1 :
  nodes h !! self = Some o →
  raises_on_sync_run (base (ct (cls o))) = false →
  prep (ct (cls o)) self shared h = (Exc e, h1) →
  _run ct (S fuel) self shared h
    = Done (Exc e) h1 [EvPrep self shared (Exc e)] [].
Proof.
  intros Ho Hb Hp. cbn [_run]. read.
  pose proof (call_prep_Done ct _ _ _ _ _ _ Ho Hp) as Ecall.
  destruct (base (ct (cls o))); try done;
    unfold BaseNode__run, Flow__run, BatchFlow__run;
    by rewrite (bind_Exc _ _ _ _ _ _ _ Ecall).
Qed.

(** X9: A [BaseNode] has no retry wrapper: when its execute raises, the run
    raises after that one call, and post is not called. *)
Theorem base_node_execute_is_not_retried fuel self shared h o pv h1 o1 e h2 :
  nodes h !! self = Some o → base (ct (cls o)) = BaseNode →
  prep (ct (cls o)) self shared h = (Ret pv, h1) →
  nodes h1 !! self = Some o1 →
  exec (ct (cls o1)) self pv h1 = (Exc e, h2) →
  _run ct (S fuel) self shared h
    = Done (Exc e) h2
           [EvPrep self shared (Ret pv);
            EvExec self (cur_retry o1) pv (Exc e)] [].
Proof.
  intros Ho Hb Hp Ho1 He. cbn [_run]. read. rewrite Hb.
  unfold BaseNode__run, BaseNode__exec.
  rewrite (bind_Ret _ _ _ _ _ _ _ (call_prep_Done ct _ _ _ _ _ _ Ho Hp)).
  by rewrite (bind_Exc _ _ _ _ _ _ _ (call_exec_Done ct _ _ _ _ _ _ Ho1 He)).
Qed.

End Failures.

Lemma prepare_failure_stops_the_run_witness :
  _run EdgeExamples.classes 1 1%nat PNone (EdgeExamples.entry_heap 7%nat 0%nat)
  = Done (Exc Examples.boom) (EdgeExamples.entry_heap 7%nat 0%nat)
         [EvPrep 1%nat PNone (Exc Examples.boom)] [].
Proof.
  exact (prepare_failure_stops_the_run EdgeExamples.classes 0%nat 1%nat PNone
           (EdgeExamples.entry_heap 7%nat 0%nat)
           (mkObj 0%nat 1%nat 1%nat 1 0 0 (Some 0%nat)) Examples.boom
           (EdgeExamples.entry_heap 7%nat 0%nat) eq_refl eq_refl eq_refl).
Defined.

Lemma base_node_execute_is_not_retried_witness :
  _run EdgeExamples.classes 1 0%nat PNone (EdgeExamples.lone_heap 1%nat 3 0)
  = Done (Exc Examples.boom) (EdgeExamples.lone_heap 1%nat 3 0)
         [EvPrep 0%nat PNone (Ret PNone);
          EvExec 0%nat 0 PNone (Exc Examples.boom)] [].
Proof.
  exact (base_node_execute_is_not_retried EdgeExamples.classes 0%nat 0%nat
           PNone (EdgeExamples.lone_heap 1%nat 3 0)
           (mkObj 1%nat 0%nat 0%nat 3 0 0 None) PNone
           (EdgeExamples.lone_heap 1%nat 3 0)
           (mkObj 1%nat 0%nat 0%nat 3 0 0 None) Examples.boom
           (EdgeExamples.lone_heap 1%nat 3 0)
           eq_refl eq_refl eq_refl eq_refl eq_refl).
Defined.

(** ** A flow and the nodes it cannot run *)

Section FlowEdges.

Variable ct : class_id → pyclass.

(** X10: A flow without an entry node visits nothing, whatever the fuel: its
    run is prepare and then post, which receives [None] as the result of
    the traversal; the only change to the store between the two is the new
    dict [{**self.params}]. *)
Theorem flow_without_entry_node fuel self shared h o pv h1 o1 d :
  nodes h !! self = Some o →
  base (ct (cls o)) = Flow ∨ base (ct (cls o)) = AsyncFlow →
  prep (ct (cls o)) self shared h = (Ret pv, h1) →
  nodes h1 !! self = Some o1 → start_node o1 = None →
  dicts h1 !! params o1 = Some d →
  _run ct (S fuel) self shared h =
    (let (r, h2) := post (ct (cls o1)) self shared pv PNone
                         (with_dicts h1 (dicts h1 ++ [d])) in
     Done r h2 [EvPrep self shared (Ret pv); EvPost self shared pv PNone r]
          []).
Proof.
  intros Ho Hb Hp Ho1 Hs Hd. cbn [_run]. read.
  assert (Flow__run ct (_orch (_run ct fuel) fuel) self shared h =
    (let (r, h2) := post (ct (cls o1)) self shared pv PNone
                         (with_dicts h1 (dicts h1 ++ [d])) in
     Done r h2 [EvPrep self shared (Ret pv); EvPost self shared pv PNone r]
          [])) as E.
  { unfold Flow__run.
    rewrite (bind_Ret _ _ _ _ _ _ _ (call_prep_Done ct _ _ _ _ _ _ Ho Hp)).
    assert (_orch (_run ct fuel) fuel self shared None h1
            = Done (Ret PNone) (with_dicts h1 (dicts h1 ++ [d])) [] []) as Eo.
    { unfold _orch. read. rewrite Hs. cbn [copy].
      rewrite (bind_pure _ _ h1 None eq_refl). unfold node_params_of.
      assert ((let* o := get_node self in
               let* d := get_dict (params o) in
               alloc_dict (dict_update ∅ d)) h1
              = Done (Ret (length (dicts h1)))
                     (with_dicts h1 (dicts h1 ++ [d])) [] []) as Enp.
      { read. read. unfold alloc_dict.
        by rewrite dict_update_union, (right_id_L ∅ (∪)). }
      rewrite (bind_quiet _ _ _ _ _ Enp). by rewrite _orch_while_None. }
    rewrite (bind_quiet _ _ _ _ _ Eo).
    destruct (post _ _ _ _ _ _) as [r h2] eqn:Epost.
    assert (nodes (with_dicts h1 (dicts h1 ++ [d])) !! self = Some o1)
      as Ho2 by done.
    by rewrite (call_post_Done ct _ _ _ _ _ _ _ _ Ho2 Epost). }
  by destruct Hb as [-> | ->].
Qed.

End FlowEdges.

Lemma flow_without_entry_node_witness :
  _run EdgeExamples.classes 1 0%nat PNone (EdgeExamples.lone_heap 3%nat 1 0)
  = Done (Ret PNone)
         (with_dicts (EdgeExamples.lone_heap 3%nat 1 0) [∅; ∅])
         [EvPrep 0%nat PNone (Ret PNone);
          EvPost 0%nat PNone PNone PNone (Ret PNone)] [].
Proof.
  exact (flow_without_entry_node EdgeExamples.classes 0%nat 0%nat PNone
           (EdgeExamples.lone_heap 3%nat 1 0)
           (mkObj 3%nat 0%nat 0%nat 1 0 0 None) PNone
           (EdgeExamples.lone_heap 3%nat 1 0)
           (mkObj 3%nat 0%nat 0%nat 1 0 0 None) ∅
           eq_refl (or_introl eq_refl) eq_refl eq_refl eq_refl eq_refl).
Defined.

Lemma visit_Some c (m : M pyval) h o :
  nodes h !! c = Some o →
  visit c m h = match m h with
                | Stuck s => Stuck s
                | Done r h1 t w => Done r h1 [EvVisit c (params o) r t] w
                end.
Proof. intros Ho. unfold visit. by rewrite Ho. Qed.

Section CooperativeNodeInFlow.

Variable ct : class_id → pyclass.

(** X11: A flow run synchronously cannot run a cooperative node: when its entry
    node is one, the visit raises at once, nothing of the node is called,
    and the flow's post is not called either.  This holds for an
    [AsyncFlow] run synchronously as well. *)
Theorem cooperative_node_in_a_flow_raises fuel self shared h o pv h1 o1 s os
    d :
  nodes h !! self = Some o →
  base (ct (cls o)) = Flow ∨ base (ct (cls o)) = AsyncFlow →
  prep (ct (cls o)) self shared h = (Ret pv, h1) →
  nodes h1 !! self = Some o1 → start_node o1 = Some s →
  nodes h1 !! s = Some os →
  raises_on_sync_run (base (ct (cls os))) = true →
  dicts h1 !! params o1 = Some d →
  ∃ h2,
    _run ct (S (S fuel)) self shared h =
      Done (Exc (RuntimeError "Use run_async for AsyncNode.")) h2
           [EvPrep self shared (Ret pv);
            EvVisit (length (nodes h1)) (length (dicts h1))
              (Exc (RuntimeError "Use run_async for AsyncNode.")) []] [].
Proof.
  intros Ho Hb Hp Ho1 Hs Hos Hr Hd.
  set (c := length (nodes h1)). set (np := length (dicts h1)).
  set (h0 := with_nodes h1 (nodes h1 ++ [os])).
  set (hs := with_dicts h0 (dicts h1 ++ [d])).
  set (hv := with_nodes hs (<[c := with_params os np]> (nodes hs))).
  exists hv.
  assert (_orch (_run ct (S fuel)) (S fuel) self shared None h1
          = Done (Exc (RuntimeError "Use run_async for AsyncNode.")) hv
                 [EvVisit c np
                    (Exc (RuntimeError "Use run_async for AsyncNode.")) []]
                 []) as Eo.
  { unfold _orch. read.
    rewrite Hs, (bind_quiet _ _ _ _ _ (copy_Some _ _ _ Hos)). fold h0.
    assert (node_params_of self None h0 = Done (Ret np) hs [] []) as Enp.
    { unfold node_params_of.
      assert (nodes h0 !! self = Some o1) as Ho0
        by by apply lookup_app_l_Some.
      assert (dicts h0 !! params o1 = Some d) as Hd0 by done.
      read. read. unfold alloc_dict.
      by rewrite dict_update_union, (right_id_L ∅ (∪)). }
    rewrite (bind_quiet _ _ _ _ _ Enp).
    assert (nodes hs !! c = Some os) as Hc by by apply list_lookup_middle.
    assert (set_params c np hs = Done (Ret tt) hv [] []) as Eset.
    { unfold set_params. by read. }
    assert (nodes hv !! c = Some (with_params os np)) as Hcv
      by apply (put_node_lookup c _ hs os Hc).
    assert (visit c (_run ct (S fuel) c shared) hv
            = Done (Exc (RuntimeError "Use run_async for AsyncNode.")) hv
                   [EvVisit c np
                      (Exc (RuntimeError "Use run_async for AsyncNode.")) []]
                   []) as Ev.
    { rewrite (visit_Some _ _ _ _ Hcv). cbn [_run]. read.
      cbn [cls with_params params].
      by destruct (base (ct (cls os))). }
    cbn [_orch_while]. rewrite (bind_quiet _ _ _ _ _ Eset).
    by rewrite (bind_Exc _ _ _ _ _ _ _ Ev). }
  set (f1 := S fuel) in *. clearbody f1.
  cbn [_run]. read.
  assert (Flow__run ct (_orch (_run ct f1) f1) self shared h
          = Done (Exc (RuntimeError "Use run_async for AsyncNode.")) hv
                 [EvPrep self shared (Ret pv);
                  EvVisit c np
                    (Exc (RuntimeError "Use run_async for AsyncNode.")) []]
                 []) as E.
  { unfold Flow__run.
    rewrite (bind_Ret _ _ _ _ _ _ _ (call_prep_Done ct _ _ _ _ _ _ Ho Hp)).
    by rewrite (bind_Exc _ _ _ _ _ _ _ Eo). }
  by destruct Hb as [-> | ->].
Qed.

End CooperativeNodeInFlow.

Lemma cooperative_node_in_a_flow_raises_witness :
  ∃ h2,
    _run EdgeExamples.classes 2 1%nat PNone
         (EdgeExamples.entry_heap 2%nat 3%nat)
    = Done (Exc (RuntimeError "Use run_async for AsyncNode.")) h2
           [EvPrep 1%nat PNone (Ret PNone);
            EvVisit 2%nat 2%nat
              (Exc (RuntimeError "Use run_async for AsyncNode.")) []] [].
Proof.
  exact (cooperative_node_in_a_flow_raises EdgeExamples.classes 0%nat 1%nat
           PNone (EdgeExamples.entry_heap 2%nat 3%nat)
           (mkObj 3%nat 1%nat 1%nat 1 0 0 (Some 0%nat)) PNone
           (EdgeExamples.entry_heap 2%nat 3%nat)
           (mkObj 3%nat 1%nat 1%nat 1 0 0 (Some 0%nat)) 0%nat
           (mkObj 2%nat 0%nat 0%nat 1 0 0 None) ∅
           eq_refl (or_introl eq_refl) eq_refl eq_refl eq_refl eq_refl
           eq_refl eq_refl).
Defined.

(** ** The retry loop in detail *)

Lemma sleeps_app t1 t2 : sleeps (t1 ++ t2) = sleeps t1 ++ sleeps t2.
Proof.
  induction t1 as [|ev t1 IH]; [done|]. destruct ev; simpl; by rewrite ?IH.
Qed.

Lemma pause_exact (w : Z) h :
  (if 0 <? w then sleep w else ret tt) h
  = Done (Ret tt) h (if 0 <? w then [EvSleep w] else []) [].
Proof. by destruct (0 <? w). Qed.

Section RetryDetail.

Variable ct : class_id → pyclass.

Lemma Node__exec_for_detail n : ∀ a self p h o,
  nodes h !! self = Some o →
  Z.of_nat (a + S n) = max_retries o →
  (∀ q, keeps_control (exec (ct (cls o)) self q) self) →
  ∃ r h' t,
    Node__exec_for ct (Z.of_nat <$> seq a (S n)) self p h = Done r h' t [] ∧
    (count is_fallback t ≤ count raised t)%nat ∧
    (exec_fallback (ct (cls o)) = Node_exec_fallback →
       match r with
       | Ret v =>
           count is_fallback t = 0%nat ∧
           ∃ t0, t = t0 ++ [EvExec self (Z.of_nat a + Z.of_nat (count raised t))
                                   p (Ret v)]
       | Exc e =>
           count raised t = S n ∧
           ∃ t0, t = t0 ++ [EvExec self (max_retries o - 1) p (Exc e);
                            EvFallback self p e (Exc e)]
       end) ∧
    ((∀ q, keeps_wait (exec (ct (cls o)) self q) self) →
       sleeps t = if 0 <? wait o
                  then replicate (count raised t - count is_fallback t) (wait o)
                  else []).
Proof.
  induction n as [|n IH]; intros a self p h o Ho HN Hk.
  all: change (seq a (S ?m)) with (a :: seq (S a) m).
  all: rewrite fmap_cons; cbn [Node__exec_for].
  all: read.
  all: rewrite (bind_quiet _ _ h tt _ eq_refl).
  all: pose proof (put_node_lookup self (with_cur_retry o (Z.of_nat a)) h o Ho)
         as Ho1.
  all: set (h1 := with_nodes h _) in *.
  all: destruct (exec (ct (cls o)) self p h1) as [r2 h2] eqn:E.
  all: pose proof (call_exec_Done ct self p h1 _ r2 h2 Ho1 E) as Hc.
  all: assert (catch (call_exec ct self p) h1
         = Done (Ret r2) h2 [EvExec self (Z.of_nat a) p r2] []) as Hcatch
         by (unfold catch; by rewrite Hc).
  all: rewrite (bind_Ret _ _ _ _ _ _ _ Hcatch).
  all: destruct (Hk p h1 _ h2 _ E Ho1) as (o2 & Ho2 & Hcls & Hmr & Hcr).
  all: simpl in Hmr, Hcr, Hcls.
  all: destruct r2 as [v|e].
  all: try (exists (Ret v), h2, [EvExec self (Z.of_nat a) p (Ret v)];
            split; [done|]; split; [simpl; lia|]; split;
            [intros _; split; [done|]; exists []; simpl;
             by rewrite Z.add_0_r
            |intros _; simpl; by destruct (0 <? wait o)]).
  all: read.
  all: rewrite Hmr, Hcr.
  - replace (Z.of_nat a =? max_retries o - 1) with true by lia.
    unfold call_exec_fallback. read. rewrite Hcls. unfold call.
    destruct (exec_fallback (ct (cls o)) self p e h2) as [r3 h3] eqn:Ef.
    eexists r3, h3, _. split; [done|]. split; [simpl; lia|]. split.
    + intros Hdef. rewrite Hdef in Ef. injection Ef as <- <-.
      split; [done|]. exists []. simpl.
      by replace (Z.of_nat a) with (max_retries o - 1) by lia.
    + intros _. simpl. by destruct (0 <? wait o).
  - replace (Z.of_nat a =? max_retries o - 1) with false by lia.
    rewrite (bind_Ret _ _ _ _ _ _ _ (pause_exact (wait o2) h2)).
    destruct (IH (S a) self p h2 o2 Ho2) as (r & h' & t & Et & Hle & Hdef & Hsl).
    { rewrite Hmr. lia. }
    { by rewrite Hcls. }
    rewrite Et. eexists r, h', _. split; [done|].
    assert (∀ f, count f (if 0 <? wait o2 then [EvSleep (wait o2)] else [])
                 = if 0 <? wait o2
                   then (if f (EvSleep (wait o2)) then 1%nat else 0%nat)
                   else 0%nat) as Hcount
      by (intros f; destruct (0 <? wait o2); simpl; lia).
    split; [|split].
    + simpl. rewrite !count_app, !Hcount. destruct (0 <? wait o2); simpl; lia.
    + intros Hd. rewrite Hcls in Hdef. specialize (Hdef Hd).
      destruct r as [v|e'].
      * destruct Hdef as (Hf & t0 & Ht). split.
        { simpl. rewrite count_app, Hcount, Hf.
          destruct (0 <? wait o2); simpl; lia. }
        exists (EvExec self (Z.of_nat a) p (Exc e)
                  :: (if 0 <? wait o2 then [EvSleep (wait o2)] else []) ++ t0).
        assert (count raised
                  ([EvExec self (Z.of_nat a) p (Exc e)] ++
                   (if 0 <? wait o2 then [EvSleep (wait o2)] else []) ++ t)
                = S (count raised t)) as Hr.
        { rewrite !count_app, Hcount. destruct (0 <? wait o2); simpl; lia. }
        simpl in Hr. simpl. rewrite Hr.
        replace (Z.of_nat a + Z.of_nat (S (count raised t)))
          with (Z.of_nat (S a) + Z.of_nat (count raised t)) by lia.
        rewrite Ht at 1. by rewrite <- app_assoc.
      * destruct Hdef as (Hr & t0 & Ht). split.
        { simpl. rewrite count_app, Hcount, Hr.
          destruct (0 <? wait o2); simpl; lia. }
        exists (EvExec self (Z.of_nat a) p (Exc e)
                  :: (if 0 <? wait o2 then [EvSleep (wait o2)] else []) ++ t0).
        rewrite Hmr in Ht. rewrite Ht. simpl. by rewrite <- app_assoc.
    + intros Hw.
      destruct (Hw p h1 _ h2 _ E Ho1) as (o2' & Ho2' & Hwt).
      assert (o2' = o2) as -> by congruence. simpl in Hwt.
      rewrite Hcls, Hwt in Hsl. specialize (Hsl Hw).
      simpl. rewrite sleeps_app, Hsl, !count_app, !Hcount, Hwt.
      destruct (0 <? wait o) eqn:Ew; simpl; [|done].
      by replace (S (count raised t) - count is_fallback t)%nat
        with (S (count raised t - count is_fallback t)) by lia.
Qed.

End RetryDetail.

Section RetryOutcome.

Variable ct : class_id → pyclass.

(** X12: A retrying node that keeps the fallback of [Node], with a budget of
    at least one attempt and an execute that leaves the loop's attributes
    alone.  The wrapper returns what the first attempt that returns gives,
    and then the fallback is not called; it raises only when every attempt
    of the budget raised, and then it raises the exception of the last
    attempt. *)
Theorem default_fallback_reraises_last_exception self p h o :
  nodes h !! self = Some o → 1 ≤ max_retries o →
  (∀ q, keeps_control (exec (ct (cls o)) self q) self) →
  exec_fallback (ct (cls o)) = Node_exec_fallback →
  ∃ r h' t,
    Node__exec ct self p h = Done r h' t [] ∧
    match r with
    | Ret v =>
        count is_fallback t = 0%nat ∧
        ∃ t0, t = t0 ++ [EvExec self (Z.of_nat (count raised t)) p (Ret v)]
    | Exc e =>
        Z.of_nat (count raised t) = max_retries o ∧
        ∃ t0, t = t0 ++ [EvExec self (max_retries o - 1) p (Exc e);
                         EvFallback self p e (Exc e)]
    end.
Proof.
  intros Ho HN Hk Hdef. unfold Node__exec. read.
  destruct (range_pos _ HN) as (n & -> & Hn).
  destruct (Node__exec_for_detail ct n 0%nat self p h o Ho Hn Hk)
    as (r & h' & t & E & _ & Hr & _).
  exists r, h', t. split; [done|]. specialize (Hr Hdef).
  destruct r as [v|e]; [done|]. destruct Hr as [Hr Ht]. split; [lia|done].
Qed.

(** X13: The pauses of the retry loop, for an execute that also leaves [wait]
    alone: with a positive [wait] the loop sleeps [wait] seconds after
    every attempt that raised, except the one the fallback answers; with
    another [wait] it never sleeps. *)
Theorem retry_sleeps_between_attempts self p h o :
  nodes h !! self = Some o → 1 ≤ max_retries o →
  (∀ q, keeps_control (exec (ct (cls o)) self q) self) →
  (∀ q, keeps_wait (exec (ct (cls o)) self q) self) →
  ∃ r h' t,
    Node__exec ct self p h = Done r h' t [] ∧
    (count is_fallback t ≤ count raised t)%nat ∧
    sleeps t = if 0 <? wait o
               then replicate (count raised t - count is_fallback t) (wait o)
               else [].
Proof.
  intros Ho HN Hk Hw. unfold Node__exec. read.
  destruct (range_pos _ HN) as (n & -> & Hn).
  destruct (Node__exec_for_detail ct n 0%nat self p h o Ho Hn Hk)
    as (r & h' & t & E & Hle & _ & Hsl).
  exists r, h', t. split; [done|]. split; [done|]. by apply Hsl.
Qed.

End RetryOutcome.

Lemma keeps_wait_const (r : outcome pyval) self :
  keeps_wait (λ h, (r, h)) self.
Proof. intros h r' h' o [= <- <-] Ho. by exists o. Qed.

Lemma default_fallback_reraises_last_exception_witness :
  ∃ h' t0,
    Node__exec EdgeExamples.classes 0%nat PNone
               (EdgeExamples.lone_heap 5%nat 3 0)
    = Done (Exc Examples.boom) h'
           (t0 ++ [EvExec 0%nat 2 PNone (Exc Examples.boom);
                   EvFallback 0%nat PNone Examples.boom (Exc Examples.boom)])
           [].
Proof.
  destruct (default_fallback_reraises_last_exception EdgeExamples.classes
              0%nat PNone (EdgeExamples.lone_heap 5%nat 3 0)
              (mkObj 5%nat 0%nat 0%nat 3 0 0 None) eq_refl)
    as (r & h' & t & E & Hr).
  - simpl. lia.
  - intros q. apply keeps_control_const.
  - reflexivity.
  - assert (r = Exc Examples.boom) as ->.
    { assert (outcome_of (Node__exec EdgeExamples.classes 0%nat PNone
                            (EdgeExamples.lone_heap 5%nat 3 0))
              = Exc Examples.boom) as Ho by (vm_compute; reflexivity).
      by rewrite E in Ho. }
    destruct Hr as (_ & t0 & ->). by exists h', t0.
Defined.

Lemma retry_sleeps_between_attempts_witness :
  ∃ r h' t,
    Node__exec EdgeExamples.classes 0%nat PNone
               (EdgeExamples.lone_heap 5%nat 3 2)
    = Done r h' t [] ∧
    (count is_fallback t ≤ count raised t)%nat ∧
    sleeps t = replicate (count raised t - count is_fallback t) 2.
Proof.
  apply (retry_sleeps_between_attempts EdgeExamples.classes 0%nat PNone
           (EdgeExamples.lone_heap 5%nat 3 2)
           (mkObj 5%nat 0%nat 0%nat 3 2 0 None)).
  - reflexivity.
  - simpl. lia.
  - intros q. apply keeps_control_const.
  - intros q. apply keeps_wait_const.
Defined.

(** ** What a run leaves of the store *)

Lemma keeps_refl P h : keeps P h h.
Proof. by repeat split. Qed.

Lemma keeps_trans P h h1 h2 : keeps P h h1 → keeps P h1 h2 → keeps P h h2.
Proof.
  intros (Hs1 & Hl1 & Hn1) (Hs2 & Hl2 & Hn2). split; [congruence|].
  split; [lia|]. intros i HP Hi. rewrite Hn2, Hn1; [done..|lia].
Qed.

Lemma keeps_weaken (P Q : loc → Prop) h h' :
  (∀ i, Q i → P i) → keeps P h h' → keeps Q h h'.
Proof.
  intros HQ (Hs & Hl & Hn). split; [done|]. split; [done|].
  intros i Hi. apply Hn. by apply HQ.
Qed.

Lemma keeps_same P h h' :
  nodes h' = nodes h → succs h' = succs h → keeps P h h'.
Proof. intros Hn Hs. split; [done|]. rewrite Hn. by split. Qed.

Lemma keeps_put P l o h :
  ¬ P l → keeps P h (with_nodes h (<[l := o]> (nodes h))).
Proof.
  intros Hl. split; [done|]. simpl. rewrite length_insert. split; [done|].
  intros i Hi _. apply list_lookup_insert_ne. by intros ->.
Qed.

Lemma keeps_alloc P o h : keeps P h (with_nodes h (nodes h ++ [o])).
Proof.
  split; [done|]. simpl. rewrite length_app. split; [lia|].
  intros i _ Hi. by apply lookup_app_l.
Qed.

Lemma preserves_bind {A B} P (m : M A) (k : A → M B) :
  preserves P m → (∀ a, preserves P (k a)) → preserves P (bind m k).
Proof.
  intros Hm Hk h r h' t w E. apply bind_Done in E as [(e & E & _)|E].
  { by eapply Hm. }
  destruct E as (a & h1 & t1 & w1 & t2 & w2 & E1 & E2 & _).
  eapply keeps_trans; [by eapply Hm|by eapply Hk].
Qed.

Lemma preserves_weaken {A} (P Q : loc → Prop) (m : M A) :
  (∀ i, Q i → P i) → preserves P m → preserves Q m.
Proof. intros HQ Hm h r h' t w E. eapply keeps_weaken; [done|by eapply Hm]. Qed.

(** A computation that leaves the store as it is. *)
Lemma preserves_reader {A} P (m : M A) :
  (∀ h r h' t w, m h = Done r h' t w → h' = h) → preserves P m.
Proof. intros Hm h r h' t w E. rewrite (Hm _ _ _ _ _ E). apply keeps_refl. Qed.

Lemma preserves_ret {A} P (a : A) : preserves P (ret a).
Proof. apply preserves_reader. by intros h r h' t w [= _ <- _ _]. Qed.

Lemma preserves_raise {A} P e : preserves P (@raise A e).
Proof. apply preserves_reader. by intros h r h' t w [= _ <- _ _]. Qed.

Lemma preserves_halt {A} P s : preserves P (@halt A s).
Proof. by intros h r h' t w E. Qed.

Lemma preserves_warn P x : preserves P (warn x).
Proof. apply preserves_reader. by intros h r h' t w [= _ <- _ _]. Qed.

Lemma preserves_get_node P l : preserves P (get_node l).
Proof.
  apply preserves_reader. intros h r h' t w E.
  by apply get_node_Done in E as (? & _ & _ & -> & _).
Qed.

Lemma preserves_get_dict P l : preserves P (get_dict l).
Proof.
  apply preserves_reader. intros h r h' t w. unfold get_dict.
  destruct (dicts h !! l); [|done]. by intros [= _ <- _ _].
Qed.

Lemma preserves_get_succs P l : preserves P (get_succs l).
Proof.
  apply preserves_reader. intros h r h' t w. unfold get_succs.
  destruct (succs h !! l); [|done]. by intros [= _ <- _ _].
Qed.

Lemma preserves_alloc_dict P d : preserves P (alloc_dict d).
Proof. intros h r h' t w [= _ <- _ _]. by apply keeps_same. Qed.

Lemma preserves_alloc_node P o : preserves P (alloc_node o).
Proof. intros h r h' t w [= _ <- _ _]. apply keeps_alloc. Qed.

Lemma preserves_put_node (P : loc → Prop) l o :
  ¬ P l → preserves P (put_node l o).
Proof. intros Hl h r h' t w [= _ <- _ _]. by apply keeps_put. Qed.

Lemma preserves_if {A} P (b : bool) (m1 m2 : M A) :
  preserves P m1 → preserves P m2 → preserves P (if b then m1 else m2).
Proof. by destruct b. Qed.

Lemma preserves_truthy P v : preserves P (truthy v).
Proof.
  apply preserves_reader. intros h r h' t w E.
  by apply truthy_Done in E as (? & _ & -> & _).
Qed.

Lemma preserves_py_or P a b : preserves P (py_or a b).
Proof.
  apply preserves_reader. intros h r h' t w E.
  by apply py_or_Done in E as (? & _ & _ & -> & _).
Qed.

Lemma preserves_py_iter P v : preserves P (py_iter v).
Proof.
  destruct v; first [apply preserves_ret|apply preserves_raise
                    |apply preserves_halt].
Qed.

Lemma preserves_as_mapping P v : preserves P (as_mapping v).
Proof. destruct v; first [apply preserves_get_dict|apply preserves_raise]. Qed.

Lemma preserves_succs_get P m key : preserves P (succs_get m key).
Proof. destruct key; first [apply preserves_ret|apply preserves_raise]. Qed.

Lemma preserves_catch {A} P (m : M A) : preserves P m → preserves P (catch m).
Proof.
  intros Hm h r h' t w E. apply catch_Done in E as (r0 & _ & E).
  by eapply Hm.
Qed.

Lemma preserves_visit P c (m : M pyval) :
  preserves P m → preserves P (visit c m).
Proof.
  intros Hm h r h' t w E.
  destruct (visit_Done _ _ _ _ _ _ _ E) as (o & inner & _ & E1 & _).
  by eapply Hm.
Qed.

Lemma preserves_call P (f : hook) ev : leaves_nodes f → preserves P (call f ev).
Proof.
  intros Hf h r h' t w. unfold call. destruct (f h) as [r1 h1] eqn:E.
  intros [= _ <- _ _]. destruct (Hf _ _ _ E). by apply keeps_same.
Qed.

Lemma preserves_copy P n : preserves P (copy n).
Proof.
  destruct n as [n|]; [|apply preserves_ret].
  apply preserves_bind; [apply preserves_get_node|]. intros o.
  apply preserves_bind; [apply preserves_alloc_node|]. intros c.
  apply preserves_ret.
Qed.

Lemma preserves_set_params (P : loc → Prop) c np :
  ¬ P c → preserves P (set_params c np).
Proof.
  intros Hc. apply preserves_bind; [apply preserves_get_node|]. intros o.
  by apply preserves_put_node.
Qed.

Lemma preserves_get_next_node P self cur a :
  preserves P (get_next_node self cur a).
Proof.
  apply preserves_bind; [apply preserves_get_node|]. intros o.
  apply preserves_bind; [apply preserves_get_succs|]. intros m.
  apply preserves_bind; [apply preserves_py_or|]. intros key.
  apply preserves_bind; [apply preserves_succs_get|]. intros nx.
  apply preserves_bind; [|intros; apply preserves_ret].
  apply preserves_if; [apply preserves_warn|apply preserves_ret].
Qed.

Lemma preserves_node_params_of P self p :
  preserves P (node_params_of self p).
Proof.
  assert (preserves P (let* o := get_node self in
                       let* d := get_dict (params o) in
                       alloc_dict (dict_update ∅ d))) as Hown.
  { apply preserves_bind; [apply preserves_get_node|]. intros o.
    apply preserves_bind; [apply preserves_get_dict|]. intros d.
    apply preserves_alloc_dict. }
  destruct p as [p|]; [|done]. unfold node_params_of.
  apply preserves_bind; [apply preserves_truthy|]. intros b.
  apply preserves_if; [apply preserves_ret|done].
Qed.

Lemma preserves_sleep P secs : preserves P (sleep secs).
Proof. apply preserves_reader. by intros h r h' t w [= _ <- _ _]. Qed.

Lemma copy_fresh n h c h' t w :
  copy n h = Done (Ret (Some c)) h' t w → c = length (nodes h).
Proof.
  destruct n as [n|]; [|done]. destruct (nodes h !! n) as [o|] eqn:Ho.
  - rewrite (copy_Some _ _ _ Ho). by intros [= <- _ _ _].
  - unfold copy, bind, get_node. by rewrite Ho.
Qed.

(** The loop of [_orch] works on copies: it leaves alone the objects that
    were there before the first copy was made. *)
Lemma _orch_while_keeps rn self shared np L fuel :
  (∀ c, preserves (λ i, i ≠ c) (rn c shared)) →
  ∀ cur last h r h' t w,
    (L ≤ length (nodes h))%nat → (∀ c, cur = Some c → (L ≤ c)%nat) →
    _orch_while rn fuel self shared np cur last h = Done r h' t w →
    keeps (λ i, (i < L)%nat) h h'.
Proof.
  intros Hrn.
  induction fuel as [|fuel IH]; intros cur last h r h' t w HL Hcur E.
  all: destruct cur as [c|]; [|injection E as _ <- _ _; apply keeps_refl].
  { done. }
  cbn [_orch_while] in E. specialize (Hcur c eq_refl).
  assert (∀ i, (i < L)%nat → i ≠ c) as Hne by (intros i; lia).
  assert (¬ (c < L)%nat) as Hc by lia.
  apply bind_Done in E as [(e & E & _)|E].
  { by eapply (preserves_set_params (λ i, (i < L)%nat)). }
  destruct E as (u & h0 & t0 & w0 & t1 & w1 & Eset & E & _).
  pose proof (preserves_set_params (λ i, (i < L)%nat) c np Hc _ _ _ _ _ Eset)
    as K0.
  eapply keeps_trans; [exact K0|].
  pose proof (preserves_visit _ c _
                (preserves_weaken _ (λ i, (i < L)%nat) _ Hne (Hrn c))) as Hv.
  apply bind_Done in E as [(e & E & _)|E].
  { by eapply Hv. }
  destruct E as (a1 & h1 & t2 & w2 & t3 & w3 & Ev & E & _).
  pose proof (Hv _ _ _ _ _ Ev) as K1.
  eapply keeps_trans; [exact K1|].
  apply bind_Done in E as [(e & E & _)|E].
  { by eapply preserves_get_next_node. }
  destruct E as (nx & h2 & t4 & w4 & t5 & w5 & Enx & E & _).
  pose proof (preserves_get_next_node (λ i, (i < L)%nat) _ _ _ _ _ _ _ _ Enx)
    as K2.
  eapply keeps_trans; [exact K2|].
  apply bind_Done in E as [(e & E & _)|E].
  { by eapply preserves_copy. }
  destruct E as (cur' & h3 & t6 & w6 & t7 & w7 & Ecp & E & _).
  pose proof (preserves_copy (λ i, (i < L)%nat) _ _ _ _ _ _ Ecp) as K3.
  eapply keeps_trans; [exact K3|].
  destruct K0 as (_ & L0 & _), K1 as (_ & L1 & _), K2 as (_ & L2 & _),
    K3 as (_ & L3 & _).
  eapply IH; [| |exact E]; [lia|].
  intros c' ->. rewrite (copy_fresh _ _ _ _ _ _ Ecp). lia.
Qed.

Lemma _orch_keeps rn fuel self shared p :
  (∀ c, preserves (λ i, i ≠ c) (rn c shared)) →
  preserves (λ _, True) (_orch rn fuel self shared p).
Proof.
  intros Hrn h r h' t w E.
  destruct (_orch_Done _ _ _ _ _ _ _ _ _ _ E)
    as (o & cur & h0 & np & hs & Ho & Ecp & Enp & Ew).
  pose proof (preserves_copy (λ _, True) _ _ _ _ _ _ Ecp) as K0.
  pose proof (preserves_node_params_of (λ _, True) _ _ _ _ _ _ _ Enp) as K1.
  pose proof (keeps_trans _ _ _ _ K0 K1) as (Hs1 & Hl1 & Hn1).
  destruct K0 as (_ & Hl0 & _).
  destruct (_orch_while_keeps rn self shared np (length (nodes h)) fuel Hrn
              cur PNone hs r h' t w) as (Hs2 & Hl2 & Hn2); [done| |done|].
  { intros c ->. by rewrite (copy_fresh _ _ _ _ _ _ Ecp). }
  split; [congruence|]. split; [lia|].
  intros i _ Hi. rewrite Hn2; [by apply Hn1|done|lia].
Qed.

Section StoreFrame.

Variable ct : class_id → pyclass.
Hypothesis Hct : ∀ c, works_on_dicts (ct c).

Lemma preserves_call_prep P self shared :
  preserves P (call_prep ct self shared).
Proof.
  apply preserves_bind; [apply preserves_get_node|]. intros o.
  apply preserves_call, Hct.
Qed.

Lemma preserves_call_exec P self p : preserves P (call_exec ct self p).
Proof.
  apply preserves_bind; [apply preserves_get_node|]. intros o.
  apply preserves_call, Hct.
Qed.

Lemma preserves_call_post P self shared p x :
  preserves P (call_post ct self shared p x).
Proof.
  apply preserves_bind; [apply preserves_get_node|]. intros o.
  apply preserves_call, Hct.
Qed.

Lemma preserves_call_exec_fallback P self p e :
  preserves P (call_exec_fallback ct self p e).
Proof.
  apply preserves_bind; [apply preserves_get_node|]. intros o.
  apply preserves_call, Hct.
Qed.

Lemma preserves_Node__exec_for (P : loc → Prop) ks self p :
  ¬ P self → preserves P (Node__exec_for ct ks self p).
Proof.
  intros Hs. induction ks as [|k ks IH]; [apply preserves_ret|].
  cbn [Node__exec_for].
  apply preserves_bind; [apply preserves_get_node|]. intros o.
  apply preserves_bind; [by apply preserves_put_node|]. intros _.
  apply preserves_bind; [apply preserves_catch, preserves_call_exec|].
  intros [v|e]; [apply preserves_ret|].
  apply preserves_bind; [apply preserves_get_node|]. intros o2.
  apply preserves_if; [apply preserves_call_exec_fallback|].
  apply preserves_bind; [|done].
  apply preserves_if; [apply preserves_sleep|apply preserves_ret].
Qed.

Lemma preserves_Node__exec (P : loc → Prop) self p :
  ¬ P self → preserves P (Node__exec ct self p).
Proof.
  intros Hs. apply preserves_bind; [apply preserves_get_node|]. intros o.
  by apply preserves_Node__exec_for.
Qed.

Lemma preserves_BatchNode__exec (P : loc → Prop) self items :
  ¬ P self → preserves P (BatchNode__exec ct self items).
Proof.
  intros Hs. apply preserves_bind; [apply preserves_py_or|]. intros s.
  apply preserves_bind; [apply preserves_py_iter|]. intros l.
  apply preserves_bind; [|intros; apply preserves_ret].
  induction l as [|i l IH]; [apply preserves_ret|]. cbn [BatchNode__exec_for].
  apply preserves_bind; [by apply preserves_Node__exec|]. intros r.
  apply preserves_bind; [done|]. intros rs. apply preserves_ret.
Qed.

Lemma preserves_BaseNode__run P _exec self shared :
  (∀ p, preserves P (_exec self p)) →
  preserves P (BaseNode__run ct _exec self shared).
Proof.
  intros He. apply preserves_bind; [apply preserves_call_prep|]. intros p.
  apply preserves_bind; [apply He|]. intros x.
  apply preserves_bind; [apply preserves_call_post|]. intros y.
  apply preserves_ret.
Qed.

Lemma preserves_Flow__run orch self shared :
  (∀ p, preserves (λ _, True) (orch self shared p)) →
  preserves (λ _, True) (Flow__run ct orch self shared).
Proof.
  intros Ho. apply preserves_bind; [apply preserves_call_prep|]. intros p.
  apply preserves_bind; [apply Ho|]. intros x. apply preserves_call_post.
Qed.

Lemma preserves_BatchFlow__run orch self shared :
  (∀ p, preserves (λ _, True) (orch self shared p)) →
  preserves (λ _, True) (BatchFlow__run ct orch self shared).
Proof.
  intros Ho. apply preserves_bind; [apply preserves_call_prep|]. intros p.
  apply preserves_bind; [apply preserves_py_or|]. intros s.
  apply preserves_bind; [apply preserves_py_iter|]. intros l.
  apply preserves_bind; [|intros; apply preserves_call_post].
  induction l as [|b l IH]; [apply preserves_ret|]. cbn [BatchFlow__run_for].
  apply preserves_bind; [apply preserves_get_node|]. intros o.
  apply preserves_bind; [apply preserves_get_dict|]. intros a.
  apply preserves_bind; [apply preserves_as_mapping|]. intros b0.
  apply preserves_bind; [apply preserves_alloc_dict|]. intros c.
  apply preserves_bind; [apply Ho|]. by intros _.
Qed.

Lemma _run_keeps fuel : ∀ self shared,
  preserves (λ i, i ≠ self) (_run ct fuel self shared) ∧
  ∀ h r h' t w o,
    nodes h !! self = Some o → is_flow (base (ct (cls o))) = true →
    _run ct fuel self shared h = Done r h' t w → keeps (λ _, True) h h'.
Proof.
  induction fuel as [|fuel IH]; intros self shared; [by split|].
  assert (∀ p, preserves (λ _, True)
                 (_orch (_run ct fuel) fuel self shared p)) as Ho.
  { intros p. apply _orch_keeps. intros c. apply IH. }
  assert (∀ i : loc, i ≠ self → True) as Htriv by done.
  assert (¬ self ≠ self) as Hs by (by intros []).
  split.
  - intros h r h' t w E. cbn [_run] in E.
    destruct (nodes h !! self) as [o|] eqn:Hn.
    2:{ unfold bind, get_node in E. by rewrite Hn in E. }
    read_in E. revert E. destruct (base (ct (cls o))).
    + apply preserves_BaseNode__run. intros p. apply preserves_call_exec.
    + apply preserves_BaseNode__run. intros p. by apply preserves_Node__exec.
    + apply preserves_BaseNode__run. intros p.
      by apply preserves_BatchNode__exec.
    + by apply (preserves_weaken _ _ _ Htriv), preserves_Flow__run.
    + by apply (preserves_weaken _ _ _ Htriv), preserves_BatchFlow__run.
    + apply preserves_raise.
    + apply preserves_raise.
    + apply preserves_raise.
    + by apply (preserves_weaken _ _ _ Htriv), preserves_Flow__run.
    + by apply (preserves_weaken _ _ _ Htriv), preserves_BatchFlow__run.
    + by apply (preserves_weaken _ _ _ Htriv), preserves_BatchFlow__run.
  - intros h r h' t w o Hn Hf E. cbn [_run] in E. read_in E. revert E.
    destruct (base (ct (cls o))); try discriminate Hf.
    + by apply preserves_Flow__run.
    + by apply preserves_BatchFlow__run.
    + by apply preserves_Flow__run.
    + by apply preserves_BatchFlow__run.
    + by apply preserves_BatchFlow__run.
Qed.

(** X14: Run on a program whose methods only work on dicts, [_run] wires
    nothing and leaves every other node object as it was; the run of a
    flow leaves every node object as it was, the flow and the nodes wired
    into it included: it only adds the copies it visits. *)
Theorem run_works_on_copies fuel self shared h o r h' t w :
  nodes h !! self = Some o →
  _run ct fuel self shared h = Done r h' t w →
  succs h' = succs h ∧
  (∀ i, i ≠ self → (i < length (nodes h))%nat →
        nodes h' !! i = nodes h !! i) ∧
  (is_flow (base (ct (cls o))) = true →
     ∃ new, nodes h' = nodes h ++ new).
Proof.
  intros Hn E. destruct (_run_keeps fuel self shared) as [H1 H2].
  destruct (H1 _ _ _ _ _ E) as (Hs & Hl & Hi). split; [done|].
  split; [done|]. intros Hf.
  destruct (H2 _ _ _ _ _ _ Hn Hf E) as (_ & _ & Hall).
  exists (drop (length (nodes h)) (nodes h')).
  rewrite <- (take_drop (length (nodes h)) (nodes h')) at 1. f_equal.
  apply list_eq. intros i.
  destruct (decide (i < length (nodes h))%nat) as [Hlt|Hge].
  - rewrite lookup_take_lt by done. by apply Hall.
  - rewrite lookup_take_ge by lia. symmetry. apply lookup_ge_None. lia.
Qed.

End StoreFrame.

Lemma leaves_nodes_const (r : outcome pyval) : leaves_nodes (λ h, (r, h)).
Proof. by intros h r' h' [= _ <-]. Qed.

Lemma edge_examples_work_on_dicts c : works_on_dicts (EdgeExamples.classes c).
Proof.
  assert (∀ k, (∀ self shared, leaves_nodes (prep k self shared)) →
               (∀ self p, leaves_nodes (exec k self p)) →
               (∀ self shared p x, leaves_nodes (post k self shared p x)) →
               (∀ self p e, leaves_nodes (exec_fallback k self p e)) →
               works_on_dicts k) as Hk by (by intros; red).
  destruct c as [|[|[|[|[|[|[|[|[|c]]]]]]]]].
  all: apply Hk; intros; try apply leaves_nodes_const.
  intros h r h'. simpl. repeat case_match; by intros [= _ <-].
Qed.

Lemma run_works_on_copies_witness :
  let X := _run EdgeExamples.classes 3 1%nat PNone
                (EdgeExamples.entry_heap 7%nat 3%nat) in
  succs (heap_of X) = [∅; ∅] ∧
  ∃ new, nodes (heap_of X) = nodes (EdgeExamples.entry_heap 7%nat 3%nat) ++ new.
Proof.
  intros X.
  assert (X = Done (outcome_of X) (heap_of X) (trace_of X) (warnings_of X))
    as EX by (vm_compute; reflexivity).
  destruct (run_works_on_copies EdgeExamples.classes
              edge_examples_work_on_dicts 3 1%nat PNone
              (EdgeExamples.entry_heap 7%nat 3%nat)
              (mkObj 3%nat 1%nat 1%nat 1 0 0 (Some 0%nat))
              (outcome_of X) (heap_of X) (trace_of X) (warnings_of X)
              eq_refl EX) as (Hs & _ & Hf).
  split; [exact Hs|exact (Hf eq_refl)].
Defined.

(** ** Batches that stop early *)

Section BatchEdges.

Variable ct : class_id → pyclass.

Lemma BatchNode__exec_for_abort self l1 : ∀ h rs h1 t1 w1 i l2 e h2 t2 w2,
  BatchNode__exec_for ct self l1 h = Done (Ret rs) h1 t1 w1 →
  Node__exec ct self i h1 = Done (Exc e) h2 t2 w2 →
  BatchNode__exec_for ct self (l1 ++ i :: l2) h
    = Done (Exc e) h2 (t1 ++ t2) (w1 ++ w2).
Proof.
  induction l1 as [|j l1 IH]; intros h rs h1 t1 w1 i l2 e h2 t2 w2.
  - intros [= <- <- <- <-] E. cbn [app BatchNode__exec_for].
    by rewrite (bind_Exc _ _ _ _ _ _ _ E).
  - cbn [BatchNode__exec_for]. intros E1 E2.
    apply bind_Done in E1 as [(e' & _ & [=])|E1].
    destruct E1 as (v & ha & ta & wa & tb & wb & Ea & E1 & -> & ->).
    apply bind_Done in E1 as [(e' & _ & [=])|E1].
    destruct E1
      as (rs' & hb & tc & wc & td & wd & Eb & [= _ <- <- <-] & -> & ->).
    rewrite <- app_comm_cons. cbn [BatchNode__exec_for].
    rewrite (bind_Ret _ _ _ _ _ _ _ Ea).
    rewrite (bind_Exc _ _ _ _ _ _ _ (IH _ _ _ _ _ _ l2 _ _ _ _ Eb E2)).
    by rewrite !app_nil_r, !app_assoc.
Qed.

(** X15: When the retry wrapper raises for an item, the batch stops there:
    [_exec] raises that exception, the items after it are not executed,
    and the results of the items before it are lost. *)
Theorem failing_item_aborts_the_batch self l1 i l2 h rs h1 t1 w1 e h2 t2 w2 :
  BatchNode__exec ct self (PList l1) h = Done (Ret (PList rs)) h1 t1 w1 →
  Node__exec ct self i h1 = Done (Exc e) h2 t2 w2 →
  BatchNode__exec ct self (PList (l1 ++ i :: l2)) h
    = Done (Exc e) h2 (t1 ++ t2) (w1 ++ w2).
Proof.
  unfold BatchNode__exec. rewrite !(bind_pure _ _ _ _ (py_or_list _ h)).
  rewrite (bind_pure _ _ h l1 eq_refl).
  rewrite (bind_pure _ _ h (l1 ++ i :: l2) eq_refl). intros E1 E2.
  apply bind_Done in E1 as [(e' & _ & [=])|E1].
  destruct E1 as (rs' & hb & tc & wc & td & wd & Eb & [= _ <- <- <-] & -> & ->).
  rewrite (bind_Exc _ _ _ _ _ _ _
             (BatchNode__exec_for_abort _ _ _ _ _ _ _ _ l2 _ _ _ _ Eb E2)).
  by rewrite !app_nil_r.
Qed.

(** X16: A batch flow whose prepare returns a value that is false ([None], an
    empty list, ...) traverses nothing, and its post receives the empty
    list in place of that value, and [None] as the execute result. *)
Theorem batch_flow_without_batches fuel self shared h o pv h1 o1 :
  nodes h !! self = Some o →
  base (ct (cls o)) = BatchFlow ∨ base (ct (cls o)) = AsyncBatchFlow ∨
    base (ct (cls o)) = AsyncParallelBatchFlow →
  prep (ct (cls o)) self shared h = (Ret pv, h1) →
  truthy pv h1 = Done (Ret false) h1 [] [] →
  nodes h1 !! self = Some o1 →
  _run ct (S fuel) self shared h =
    (let (r, h2) := post (ct (cls o1)) self shared (PList []) PNone h1 in
     Done r h2
          [EvPrep self shared (Ret pv);
           EvPost self shared (PList []) PNone r] []).
Proof.
  intros Ho Hb Hp Ht Ho1. cbn [_run]. read.
  assert (BatchFlow__run ct (_orch (_run ct fuel) fuel) self shared h =
    (let (r, h2) := post (ct (cls o1)) self shared (PList []) PNone h1 in
     Done r h2
          [EvPrep self shared (Ret pv);
           EvPost self shared (PList []) PNone r] [])) as E.
  { unfold BatchFlow__run.
    rewrite (bind_Ret _ _ _ _ _ _ _ (call_prep_Done ct _ _ _ _ _ _ Ho Hp)).
    assert (py_or pv (PList []) h1 = Done (Ret (PList [])) h1 [] []) as Hor
      by (unfold py_or; by rewrite (bind_pure _ _ _ _ Ht)).
    rewrite (bind_pure _ _ _ _ Hor). cbn [py_iter].
    rewrite (bind_pure _ _ h1 [] eq_refl). cbn [BatchFlow__run_for].
    rewrite (bind_pure _ _ h1 tt eq_refl).
    destruct (post _ _ _ _ _ _) as [r h2] eqn:Epost.
    by rewrite (call_post_Done ct _ _ _ _ _ _ _ _ Ho1 Epost). }
  by destruct Hb as [-> | [-> | ->]].
Qed.

Lemma BatchFlow__run_for_abort orch self shared l1 : ∀ h h1 t1 w1 v l2 o1 a,
  BatchFlow__run_for orch self shared l1 h = Done (Ret tt) h1 t1 w1 →
  nodes h1 !! self = Some o1 → dicts h1 !! params o1 = Some a →
  (∀ d, v ≠ PDict d) →
  BatchFlow__run_for orch self shared (l1 ++ v :: l2) h
    = Done (Exc (TypeError "object is not a mapping")) h1 t1 w1.
Proof.
  induction l1 as [|b l1 IH]; intros h h1 t1 w1 v l2 o1 a.
  - intros [= <- <- <-] Ho Hd Hv. cbn [app BatchFlow__run_for]. read. read.
    destruct v; try done. by destruct (Hv d).
  - cbn [BatchFlow__run_for]. intros E Ho Hd Hv.
    rewrite <- app_comm_cons. cbn [BatchFlow__run_for].
    repeat (apply bind_Done in E as [(e' & _ & [=])|E];
            let E0 := fresh "E0" in
            destruct E as (? & ? & ? & ? & ? & ? & E0 & E & -> & ->);
            rewrite (bind_Ret _ _ _ _ _ _ _ E0); cbv beta in E |- *).
    rewrite (IH _ _ _ _ v l2 _ _ E Ho Hd Hv).
    by rewrite !app_assoc.
Qed.

(** X17: The elements of the list a batch flow's prepare returns must be
    dicts: when the turn of one that is not a dict comes, the run raises a
    TypeError; the traversals for the elements before it have run, and
    post is not called. *)
Theorem batch_flow_element_must_be_a_dict fuel self shared h o l1 v l2 h1 h2
    t1 w1 o2 a :
  nodes h !! self = Some o →
  base (ct (cls o)) = BatchFlow ∨ base (ct (cls o)) = AsyncBatchFlow ∨
    base (ct (cls o)) = AsyncParallelBatchFlow →
  prep (ct (cls o)) self shared h = (Ret (PList (l1 ++ v :: l2)), h1) →
  BatchFlow__run_for (_orch (_run ct fuel) fuel) self shared l1 h1
    = Done (Ret tt) h2 t1 w1 →
  nodes h2 !! self = Some o2 → dicts h2 !! params o2 = Some a →
  (∀ d, v ≠ PDict d) →
  ∃ msg,
    _run ct (S fuel) self shared h
    = Done (Exc (TypeError msg)) h2 (EvPrep self shared (Ret (PList (l1 ++ v :: l2))) :: t1) w1.
Proof.
  intros Ho Hb Hp E Ho2 Ha Hv. exists "object is not a mapping".
  cbn [_run]. read.
  assert (BatchFlow__run ct (_orch (_run ct fuel) fuel) self shared h
          = Done (Exc (TypeError "object is not a mapping")) h2
                 (EvPrep self shared (Ret (PList (l1 ++ v :: l2))) :: t1) w1)
    as Er.
  { unfold BatchFlow__run.
    rewrite (bind_Ret _ _ _ _ _ _ _ (call_prep_Done ct _ _ _ _ _ _ Ho Hp)).
    rewrite (bind_pure _ _ _ _ (py_or_list _ h1)). cbn [py_iter].
    rewrite (bind_pure _ _ h1 (l1 ++ v :: l2) eq_refl).
    by rewrite (bind_Exc _ _ _ _ _ _ _
                  (BatchFlow__run_for_abort _ _ _ _ _ _ _ _ v l2 _ _
                     E Ho2 Ha Hv)). }
  by destruct Hb as [-> | [-> | ->]].
Qed.

End BatchEdges.

Lemma failing_item_aborts_the_batch_witness :
  let X := BatchNode__exec EdgeExamples.classes 0%nat (PList [PInt 1])
             (EdgeExamples.lone_heap 6%nat 1 0) in
  let Y := Node__exec EdgeExamples.classes 0%nat (PInt 0) (heap_of X) in
  BatchNode__exec EdgeExamples.classes 0%nat (PList [PInt 1; PInt 0; PInt 2])
                  (EdgeExamples.lone_heap 6%nat 1 0)
  = Done (Exc Examples.boom) (heap_of Y) (trace_of X ++ trace_of Y) [].
Proof.
  intros X Y.
  assert (X = Done (Ret (PList [PInt 1])) (heap_of X) (trace_of X) [])
    as EX by (vm_compute; reflexivity).
  assert (Y = Done (Exc Examples.boom) (heap_of Y) (trace_of Y) [])
    as EY by (vm_compute; reflexivity).
  exact (failing_item_aborts_the_batch EdgeExamples.classes 0%nat [PInt 1]
           (PInt 0) [PInt 2] (EdgeExamples.lone_heap 6%nat 1 0) [PInt 1]
           (heap_of X) (trace_of X) [] Examples.boom (heap_of Y) (trace_of Y)
           [] EX EY).
Defined.

Lemma batch_flow_without_batches_witness :
  _run EdgeExamples.classes 1 1%nat PNone (EdgeExamples.entry_heap 7%nat 4%nat)
  = Done (Ret PNone) (EdgeExamples.entry_heap 7%nat 4%nat)
         [EvPrep 1%nat PNone (Ret PNone);
          EvPost 1%nat PNone (PList []) PNone (Ret PNone)] [].
Proof.
  exact (batch_flow_without_batches EdgeExamples.classes 0%nat 1%nat PNone
           (EdgeExamples.entry_heap 7%nat 4%nat)
           (mkObj 4%nat 1%nat 1%nat 1 0 0 (Some 0%nat)) PNone
           (EdgeExamples.entry_heap 7%nat 4%nat)
           (mkObj 4%nat 1%nat 1%nat 1 0 0 (Some 0%nat))
           eq_refl (or_introl eq_refl) eq_refl eq_refl eq_refl).
Defined.

Lemma batch_flow_element_must_be_a_dict_witness :
  ∃ msg,
    _run EdgeExamples.classes 1 1%nat PNone
         (EdgeExamples.entry_heap 7%nat 8%nat)
    = Done (Exc (TypeError msg)) (EdgeExamples.entry_heap 7%nat 8%nat)
           [EvPrep 1%nat PNone (Ret (PList [PInt 5]))] [].
Proof.
  apply (batch_flow_element_must_be_a_dict EdgeExamples.classes 0%nat 1%nat
           PNone (EdgeExamples.entry_heap 7%nat 8%nat)
           (mkObj 8%nat 1%nat 1%nat 1 0 0 (Some 0%nat)) [] (PInt 5) []
           (EdgeExamples.entry_heap 7%nat 8%nat)
           (EdgeExamples.entry_heap 7%nat 8%nat) [] []
           (mkObj 8%nat 1%nat 1%nat 1 0 0 (Some 0%nat)) ∅
           eq_refl (or_introl eq_refl) eq_refl eq_refl eq_refl eq_refl).
  intros d. discriminate.
Defined.

(** * The cooperative classes *)

Lemma bind_ext {A B} (m1 m2 : M A) (k1 k2 : A → M B) h :
  m1 h = m2 h → (∀ a h1, k1 a h1 = k2 a h1) → bind m1 k1 h = bind m2 k2 h.
Proof.
  intros Em Ek. unfold bind. rewrite Em.
  destruct (m2 h) as [[a|e] h1 t1 w1|]; [|done..]. by rewrite Ek.
Qed.

Section SameAsync.

Variables ct1 ct2 : class_id → pyclass.
Variable act : class_id → async_class.
Hypothesis Hsame : same_async_methods ct1 ct2.

Lemma call_exec_async_same self p h :
  call_exec_async ct1 self p h = call_exec_async ct2 self p h.
Proof.
  apply bind_ext; [done|]. intros o h1.
  by destruct (Hsame (cls o)) as (_ & -> & _).
Qed.

Lemma call_exec_fallback_async_same self p e h :
  call_exec_fallback_async ct1 self p e h
  = call_exec_fallback_async ct2 self p e h.
Proof.
  apply bind_ext; [done|]. intros o h1.
  by destruct (Hsame (cls o)) as (_ & _ & ->).
Qed.

Lemma AsyncNode__exec_for_same ixs self p : ∀ h,
  AsyncNode__exec_for ct1 ixs self p h = AsyncNode__exec_for ct2 ixs self p h.
Proof.
  induction ixs as [|i ixs IH]; [done|]. intros h. cbn [AsyncNode__exec_for].
  apply bind_ext.
  { unfold catch. by rewrite call_exec_async_same. }
  intros [v|e] h1; [done|]. apply bind_ext; [done|]. intros o h2.
  destruct (i =? max_retries o - 1); [apply call_exec_fallback_async_same|].
  apply bind_ext; [done|]. intros _ h3. apply IH.
Qed.

Lemma AsyncNode__exec_same self p h :
  AsyncNode__exec ct1 self p h = AsyncNode__exec ct2 self p h.
Proof.
  apply bind_ext; [done|]. intros o h1. apply AsyncNode__exec_for_same.
Qed.

Lemma AsyncBatchNode__exec_same self items h :
  AsyncBatchNode__exec ct1 self items h = AsyncBatchNode__exec ct2 self items h.
Proof.
  apply bind_ext; [done|]. intros s h1. apply bind_ext; [done|]. intros l h2.
  apply bind_ext; [|done]. generalize (@nil pyval). revert h2.
  induction l as [|i l IH]; [done|]. intros h2 acc.
  cbn [AsyncBatchNode__exec_for].
  apply bind_ext; [apply AsyncNode__exec_same|]. intros r h3. apply IH.
Qed.

(** X18: The run of an [AsyncNode] or of an [AsyncBatchNode] through
    [_run_async] does not depend on the synchronous methods of its class:
    two programs that differ only in [prep], [exec], [post] and
    [exec_fallback] run it alike.  Overriding those on such a node has no
    effect there. *)
Theorem async_node_ignores_sync_methods fuel self shared h o :
  nodes h !! self = Some o →
  base (ct1 (cls o)) = AsyncNode ∨ base (ct1 (cls o)) = AsyncBatchNode →
  _run_async ct1 act fuel self shared h = _run_async ct2 act fuel self shared h.
Proof.
  intros Ho Hb. destruct fuel as [|fuel]; [done|].
  unfold _run_async. cbn [_run_async_in].
  read. read. destruct (Hsame (cls o)) as (Hbase & _). rewrite <- Hbase.
  destruct Hb as [-> | ->]; cbn [in_task]; unfold AsyncNode__run_async.
  - apply bind_ext; [done|]. intros p h1.
    apply bind_ext; [apply AsyncNode__exec_same|done].
  - apply bind_ext; [done|]. intros p h1.
    apply bind_ext; [apply AsyncBatchNode__exec_same|done].
Qed.

End SameAsync.

Lemma async_node_ignores_sync_methods_witness :
  _run_async (λ _, AsyncExamples.Loud) AsyncExamples.phases 1 0%nat PNone
             (EdgeExamples.lone_heap 0%nat 1 0)
  = Done (Ret (PStr "done")) (EdgeExamples.lone_heap 0%nat 1 0)
         [EvPrep 0%nat PNone (Ret PNone);
          EvExec 0%nat 0 PNone (Ret (PStr "ok"));
          EvPost 0%nat PNone PNone (PStr "ok") (Ret (PStr "done"))] [].
Proof.
  rewrite (async_node_ignores_sync_methods (λ _, AsyncExamples.Loud)
             (λ _, AsyncExamples.Plain) AsyncExamples.phases
             (λ c, conj eq_refl (conj eq_refl eq_refl)) 1 0%nat PNone
             (EdgeExamples.lone_heap 0%nat 1 0)
             (mkObj 0%nat 0%nat 0%nat 1 0 0 None) eq_refl
             (or_introl eq_refl)).
  reflexivity.
Defined.

Section AsyncBatches.

Variable ct : class_id → pyclass.
Variable act : class_id → async_class.

Lemma AsyncBatchNode__exec_for_chain self l : ∀ acc h r h' t w,
  AsyncBatchNode__exec_for ct self l acc h = Done (Ret r) h' t w →
  ∃ rs, r = acc ++ rs ∧ async_per_item ct self l h rs h' t w.
Proof.
  induction l as [|i l IH]; intros acc h r h' t w E.
  - injection E as <- <- <- <-. exists []. split; [by rewrite app_nil_r|].
    constructor.
  - cbn [AsyncBatchNode__exec_for] in E.
    apply bind_Done in E as [(e & _ & [=])|E].
    destruct E as (v & h1 & t1 & w1 & t2 & w2 & E1 & E2 & -> & ->).
    destruct (IH _ _ _ _ _ _ E2) as (rs & -> & Hrs).
    exists (v :: rs). split; [by rewrite <- app_assoc|].
    by apply async_per_item_cons with h1.
Qed.

Lemma async_per_item_length self l h rs h' t w :
  async_per_item ct self l h rs h' t w → length rs = length l.
Proof. induction 1; simpl; congruence. Qed.

(** X19: A cooperative batch node handles its items one after the other, in
    order: when [_exec] returns, the result is a list as long as the
    items, and position [i] holds what the retry wrapper returned for item
    [i], run on the store the items before it left. *)
Theorem async_batch_results_in_order self l h v h' t w :
  AsyncBatchNode__exec ct self (PList l) h = Done (Ret v) h' t w →
  ∃ rs, v = PList rs ∧ length rs = length l ∧
        async_per_item ct self l h rs h' t w.
Proof.
  unfold AsyncBatchNode__exec. rewrite (bind_pure _ _ _ _ (py_or_list l h)).
  rewrite (bind_pure _ _ h l eq_refl). intros E.
  apply bind_Done in E as [(e & _ & [=])|E].
  destruct E as (r & h1 & t1 & w1 & t2 & w2 & E1 & [= <- <- <- <-] & -> & ->).
  destruct (AsyncBatchNode__exec_for_chain _ _ _ _ _ _ _ _ E1)
    as (rs & -> & Hrs).
  exists rs. rewrite !app_nil_r. split; [done|]. split; [|done].
  by eapply async_per_item_length.
Qed.

End AsyncBatches.

Lemma async_batch_results_in_order_witness :
  let X := AsyncBatchNode__exec AsyncExamples.classes 0%nat
             (PList [PInt 1; PInt 2]) (EdgeExamples.lone_heap 1%nat 1 0) in
  ∃ rs, PList [PInt 1; PInt 2] = PList rs ∧ length rs = 2%nat ∧
        async_per_item AsyncExamples.classes 0%nat [PInt 1; PInt 2]
          (EdgeExamples.lone_heap 1%nat 1 0) rs (heap_of X) (trace_of X) [].
Proof.
  intros X.
  assert (X = Done (Ret (PList [PInt 1; PInt 2])) (heap_of X) (trace_of X) [])
    as EX by (vm_compute; reflexivity).
  exact (async_batch_results_in_order AsyncExamples.classes 0%nat
           [PInt 1; PInt 2] (EdgeExamples.lone_heap 1%nat 1 0)
           (PList [PInt 1; PInt 2]) (heap_of X) (trace_of X) [] EX).
Defined.

Section AsyncFlows.

Variable ct : class_id → pyclass.
Variable act : class_id → async_class.

Lemma call_prep_async_Done self shared h o r h' :
  nodes h !! self = Some o → prep_async (act (cls o)) self shared h = (r, h') →
  call_prep_async act self shared h = Done r h' [EvPrep self shared r] [].
Proof.
  intros Ho E. unfold call_prep_async. read. unfold call. by rewrite E.
Qed.

Lemma call_post_async_Done self shared p x h o r h' :
  nodes h !! self = Some o →
  post_async (act (cls o)) self shared p x h = (r, h') →
  call_post_async act self shared p x h
    = Done r h' [EvPost self shared p x r] [].
Proof.
  intros Ho E. unfold call_post_async. read. unfold call. by rewrite E.
Qed.

(** X20: On a batch that is false, the two cooperative batch flows do the
    same: no traversal, and [post_async] receives the empty list and
    [None].  The two cooperative batch nodes return the empty list and
    call nothing. *)
Theorem cooperative_batches_without_items fuel self shared h o pv h1 o1 :
  nodes h !! self = Some o →
  base (ct (cls o)) = AsyncBatchFlow ∨
    base (ct (cls o)) = AsyncParallelBatchFlow →
  prep_async (act (cls o)) self shared h = (Ret pv, h1) →
  truthy pv h1 = Done (Ret false) h1 [] [] →
  nodes h1 !! self = Some o1 →
  _run_async ct act (S fuel) self shared h =
    (let (r, h2) := post_async (act (cls o1)) self shared (PList []) PNone h1 in
     Done r h2
          [EvPrep self shared (Ret pv);
           EvPost self shared (PList []) PNone r] []) ∧
  ∀ n items hx, truthy items hx = Done (Ret false) hx [] [] →
    AsyncBatchNode__exec ct n items hx = Done (Ret (PList [])) hx [] [] ∧
    ∀ g, AsyncParallelBatchNode__exec ct g n items hx
         = Done (Ret (PList [])) hx [] [].
Proof.
  intros Ho Hb Hp Ht Ho1. split.
  - unfold _run_async. cbn [_run_async_in]. read.
    assert (py_or pv (PList []) h1 = Done (Ret (PList [])) h1 [] []) as Hor
      by (unfold py_or; by rewrite (bind_pure _ _ _ _ Ht)).
    pose proof (call_prep_async_Done _ _ _ _ _ _ Ho Hp) as Eprep.
    destruct (post_async _ _ _ _ _ _) as [r h2] eqn:Epost.
    pose proof (call_post_async_Done _ _ _ _ _ _ _ _ Ho1 Epost) as Ecall.
    destruct Hb as [-> | ->].
    + unfold AsyncBatchFlow__run_async.
      rewrite (bind_Ret _ _ _ _ _ _ _ Eprep), (bind_pure _ _ _ _ Hor).
      cbn [py_iter]. rewrite (bind_pure _ _ h1 [] eq_refl).
      cbn [BatchFlow__run_for]. rewrite (bind_pure _ _ h1 tt eq_refl).
      by rewrite Ecall.
    + unfold AsyncParallelBatchFlow__run_async.
      rewrite (bind_Ret _ _ _ _ _ _ _ Eprep), (bind_pure _ _ _ _ Hor).
      rewrite (bind_pure _ _ h1 false eq_refl). cbn [negb].
      by rewrite Ecall.
  - intros n items hx Hf. split.
    + assert (py_or items (PList []) hx = Done (Ret (PList [])) hx [] [])
        as Hor by (unfold py_or; by rewrite (bind_pure _ _ _ _ Hf)).
      unfold AsyncBatchNode__exec. by rewrite (bind_pure _ _ _ _ Hor).
    + intros g. unfold AsyncParallelBatchNode__exec.
      by rewrite (bind_pure _ _ _ _ Hf).
Qed.

Lemma call_post_async_ends self shared p x h a h' t w :
  call_post_async act self shared p x h = Done (Ret a) h' t w →
  ends_with_post self shared a t.
Proof.
  intros E. apply called_inv in E as (o & _ & _ & -> & _). by exists [], p, x.
Qed.

Lemma AsyncNode__run_async_ends _exec self shared h a h' t w :
  AsyncNode__run_async act _exec self shared h = Done (Ret a) h' t w →
  ends_with_post self shared a t.
Proof.
  intros E. eapply bind_ends; [exact E|]. intros p h1 t2 w2 E2.
  eapply bind_ends; [exact E2|]. intros x h2 t3 w3 E3.
  apply bind_Done in E3 as [(e & _ & [=])|E3].
  destruct E3 as (y & h3 & t4 & w4 & t5 & w5 & E4 & [= -> <- <- <-] & -> & _).
  rewrite app_nil_r. by eapply call_post_async_ends.
Qed.

Lemma never_suspends_Done {A} (m : M A) h r h' t w :
  never_suspends m h = Done r h' t w → m h = Done r h' t w ∧ sleeps t = [].
Proof.
  unfold never_suspends. destruct (m h) as [r1 h1 t1 w1|]; [|done].
  destruct (bool_decide (sleeps t1 = [])) eqn:Hs; [|done].
  apply bool_decide_eq_true in Hs. by intros [= <- <- <- <-].
Qed.

Lemma in_task_Done {A} g (m : M A) h r h' t w :
  in_task g m h = Done r h' t w → m h = Done r h' t w.
Proof.
  destruct g; [|done]. intros E. by apply never_suspends_Done in E as [E _].
Qed.

(** Whatever its class, a run through [_run_async] that returns ends
    with the call of [post_async] on the node itself, and returns what that
    call returned. *)
Lemma _run_async_ends_with_post g fuel self shared h a h' t w :
  _run_async_in ct act g fuel self shared h = Done (Ret a) h' t w →
  ends_with_post self shared a t.
Proof.
  destruct fuel as [|fuel]; [done|]. cbn [_run_async_in]. intros E.
  eapply bind_ends; [exact E|]. intros o h1 t2 w2 E2. cbv beta in E2.
  destruct (base (ct (cls o)));
    try (unfold raise in E2; discriminate);
    try (apply in_task_Done in E2);
    try (eapply AsyncNode__run_async_ends; exact E2).
  - eapply bind_ends; [exact E2|]. intros p h2 t3 w3 E3.
    eapply bind_ends; [exact E3|]. intros x h3 t4 w4 E4.
    eapply call_post_async_ends. exact E4.
  - eapply bind_ends; [exact E2|]. intros p h2 t3 w3 E3.
    eapply bind_ends; [exact E3|]. intros x h3 t4 w4 E4.
    eapply bind_ends; [exact E4|]. intros bs h4 t5 w5 E5.
    eapply bind_ends; [exact E5|]. intros u h5 t6 w6 E6.
    eapply call_post_async_ends. exact E6.
  - eapply bind_ends; [exact E2|]. intros p h2 t3 w3 E3.
    eapply bind_ends; [exact E3|]. intros x h3 t4 w4 E4.
    eapply bind_ends; [exact E4|]. intros b h4 t5 w5 E5.
    destruct b; cbn [negb] in E5.
    + eapply bind_ends; [exact E5|]. intros bs h5 t6 w6 E6.
      eapply bind_ends; [exact E6|]. intros cps h6 t7 w7 E7.
      destruct g; [done|].
      eapply bind_ends; [exact E7|]. intros u h7 t8 w8 E8.
      eapply call_post_async_ends. exact E8.
    + eapply call_post_async_ends. exact E5.
Qed.

Lemma run_either_ends g fuel c shared h a h' t w :
  run_either ct (_run_async_in ct act g fuel) (_run ct fuel) c shared h
    = Done (Ret a) h' t w →
  ends_with_post c shared a t.
Proof.
  intros E. eapply bind_ends; [exact E|]. intros o h1 t2 w2 E2. cbv beta in E2.
  destruct (is_async (base (ct (cls o)))).
  - by eapply _run_async_ends_with_post.
  - by eapply _run_ends_with_post.
Qed.

(** X21: The run of an [AsyncFlow] through [_run_async], when [prep_async]
    returns [pv] and the traversal returns [a]: the events are the call of
    [prep_async], then the visits of the traversal, then the call of
    [post_async] with the shared state, [pv] and [a], and the run returns
    what that call returns.  The traversal visits cooperative nodes through
    [_run_async] and the other nodes through [_run]; [a] is what the
    [post] or [post_async] of the last node visited returned, [None] if
    nothing was visited.  With [AsyncFlow.post_async] the run returns
    [a]. *)
Theorem async_flow_run_order fuel self shared h o pv h1 a h2 t w o2 :
  nodes h !! self = Some o →
  base (ct (cls o)) = AsyncFlow →
  prep_async (act (cls o)) self shared h = (Ret pv, h1) →
  _orch_async ct (_run_async ct act fuel) (_run ct fuel) fuel self shared None
              h1 = Done (Ret a) h2 t w →
  nodes h2 !! self = Some o2 →
  (∀ r h3, post_async (act (cls o2)) self shared pv a h2 = (r, h3) →
     _run_async ct act (S fuel) self shared h =
       Done r h3
            (EvPrep self shared (Ret pv) :: t ++ [EvPost self shared pv a r])
            w) ∧
  (∃ np, Forall (visit_with np) t) ∧
  last_action shared t a ∧
  (post_async (act (cls o2)) = AsyncFlow_post_async →
     _run_async ct act (S fuel) self shared h =
       Done (Ret a) h2
            (EvPrep self shared (Ret pv) :: t
               ++ [EvPost self shared pv a (Ret a)])
            w).
Proof.
  intros Ho Hb Hp Eo Ho2.
  assert (∀ r h3, post_async (act (cls o2)) self shared pv a h2 = (r, h3) →
     _run_async ct act (S fuel) self shared h =
       Done r h3
            (EvPrep self shared (Ret pv) :: t ++ [EvPost self shared pv a r])
            w) as Hrun.
  { intros r h3 Epost. unfold _run_async. cbn [_run_async_in]. read.
    rewrite Hb. unfold AsyncFlow__run_async.
    rewrite (bind_Ret _ _ _ _ _ _ _ (call_prep_async_Done _ _ _ _ _ _ Ho Hp)).
    rewrite (bind_Ret _ _ _ _ _ _ _ Eo).
    rewrite (call_post_async_Done _ _ _ _ _ _ _ _ Ho2 Epost).
    simpl. by rewrite app_nil_r. }
  split; [done|].
  destruct (_orch_Done _ _ _ _ _ _ _ _ _ _ Eo)
    as (o1 & cur & h0 & np & hs & _ & _ & _ & Ew).
  destruct (_orch_while_shape _ _ _ _ _ _ _ _ _ _ _ _ Ew) as [Hall Hl].
  split; [by exists np|]. split.
  - destruct (Hl a eq_refl) as [[-> ->]|Hv]; [by left|].
    destruct Hv as (t' & c & inner & hc & hc' & wc & -> & Hrn).
    right. exists t', c, np, inner. split; [done|].
    by eapply run_either_ends.
  - intros Hpost. apply Hrun. by rewrite Hpost.
Qed.

End AsyncFlows.

Lemma cooperative_batches_without_items_witness :
  _run_async AsyncExamples.classes AsyncExamples.phases 1 1%nat PNone
             (EdgeExamples.entry_heap 0%nat 4%nat)
  = Done (Ret PNone) (EdgeExamples.entry_heap 0%nat 4%nat)
         [EvPrep 1%nat PNone (Ret PNone);
          EvPost 1%nat PNone (PList []) PNone (Ret PNone)] [].
Proof.
  exact (proj1 (cooperative_batches_without_items AsyncExamples.classes
                  AsyncExamples.phases 0%nat 1%nat PNone
                  (EdgeExamples.entry_heap 0%nat 4%nat)
                  (mkObj 4%nat 1%nat 1%nat 1 0 0 (Some 0%nat)) PNone
                  (EdgeExamples.entry_heap 0%nat 4%nat)
                  (mkObj 4%nat 1%nat 1%nat 1 0 0 (Some 0%nat))
                  eq_refl (or_intror eq_refl) eq_refl eq_refl eq_refl)).
Defined.

Lemma async_flow_run_order_witness :
  let X := _orch_async AsyncExamples.classes
             (_run_async AsyncExamples.classes AsyncExamples.phases 2)
             (_run AsyncExamples.classes 2) 2 2%nat PNone None
             AsyncExamples.mixed_heap in
  _run_async AsyncExamples.classes AsyncExamples.phases 3 2%nat PNone
             AsyncExamples.mixed_heap
  = Done (Ret PNone) (heap_of X)
         (EvPrep 2%nat PNone (Ret PNone) :: trace_of X
            ++ [EvPost 2%nat PNone PNone PNone (Ret PNone)])
         (warnings_of X) ∧
  trace_of X =
    [EvVisit 3%nat 3%nat (Ret (PStr "done"))
       [EvPrep 3%nat PNone (Ret PNone);
        EvExec 3%nat 0 PNone (Ret (PStr "ok"));
        EvPost 3%nat PNone PNone (PStr "ok") (Ret (PStr "done"))];
     EvVisit 4%nat 3%nat (Ret PNone)
       [EvPrep 4%nat PNone (Ret PNone);
        EvExec 4%nat 0 PNone (Ret PNone);
        EvPost 4%nat PNone PNone PNone (Ret PNone)]].
Proof.
  intros X.
  assert (X = Done (Ret PNone) (heap_of X) (trace_of X) (warnings_of X))
    as EX by (vm_compute; reflexivity).
  assert (nodes (heap_of X) !! 2%nat
          = Some (mkObj 2%nat 2%nat 2%nat 1 0 0 (Some 0%nat))) as Ho2
    by (vm_compute; reflexivity).
  destruct (async_flow_run_order AsyncExamples.classes AsyncExamples.phases
              2 2%nat PNone AsyncExamples.mixed_heap
              (mkObj 2%nat 2%nat 2%nat 1 0 0 (Some 0%nat)) PNone
              AsyncExamples.mixed_heap PNone (heap_of X)
              (trace_of X) (warnings_of X)
              (mkObj 2%nat 2%nat 2%nat 1 0 0 (Some 0%nat))
              eq_refl eq_refl eq_refl EX Ho2) as (_ & _ & _ & H).
  split; [exact (H eq_refl)|]. vm_compute. reflexivity.
Defined.

(** * Wiring, copies and params *)

(** X22: Chaining: [a >> b >> c] wires [a] to [b] and [b] to [c], both under
    ["default"], and gives [c], for nodes [a] and [b] that do not share a
    successor dict. *)
Theorem chain_wires_a_path a b c h oa ob ma mb :
  nodes h !! a = Some oa → nodes h !! b = Some ob →
  succs h !! successors oa = Some ma → succs h !! successors ob = Some mb →
  successors oa ≠ successors ob →
  ∃ h',
    (let* x := __rshift__ a b in __rshift__ x c) h
      = Done (Ret c) h' []
             ((if bool_decide (is_Some (ma !! "default"))
               then [Overwriting "default"] else []) ++
              (if bool_decide (is_Some (mb !! "default"))
               then [Overwriting "default"] else [])) ∧
    nodes h' = nodes h ∧
    succs h' !! successors oa = Some (<["default" := b]> ma) ∧
    succs h' !! successors ob = Some (<["default" := c]> mb).
Proof.
  intros Ha Hb Hma Hmb Hne. unfold __rshift__.
  set (h1 := with_succs h (<[successors oa := <["default" := b]> ma]> (succs h))).
  assert (succs h1 !! successors ob = Some mb) as Hmb1.
  { unfold h1. simpl. by rewrite list_lookup_insert_ne. }
  assert (nodes h1 !! b = Some ob) as Hb1 by done.
  eexists. rewrite (bind_Ret _ _ _ _ _ _ _ (next_Done a b _ h oa ma Ha Hma)).
  fold h1. rewrite (next_Done b c _ h1 ob mb Hb1 Hmb1). unfold h1. simpl.
  split; [done|]. split; [done|]. split.
  - simpl. rewrite list_lookup_insert_ne by done.
    apply list_lookup_insert_eq. by eapply lookup_lt_Some.
  - simpl. apply list_lookup_insert_eq. rewrite length_insert.
    by eapply lookup_lt_Some.
Qed.

Lemma chain_wires_a_path_witness :
  ∃ h',
    (let* x := __rshift__ 0%nat 1%nat in __rshift__ x 0%nat) Examples.pair_heap
      = Done (Ret 0%nat) h' [] [] ∧
    nodes h' = nodes Examples.pair_heap ∧
    succs h' !! 0%nat = Some {["default" := 1%nat]} ∧
    succs h' !! 1%nat = Some {["default" := 0%nat]}.
Proof.
  apply (chain_wires_a_path 0%nat 1%nat 0%nat Examples.pair_heap
           (mkObj 2%nat 0%nat 0%nat 1 0 0 None)
           (mkObj 2%nat 1%nat 1%nat 1 0 0 None) ∅ ∅
           eq_refl eq_refl eq_refl eq_refl).
  simpl. lia.
Defined.

(** X23: The copy a flow visits is shallow: it shares the successor dict of
    the node it was made from.  A transition wired on the node after the
    copy was made is followed from the copy. *)
Theorem copy_shares_the_successors flow n target action h o m :
  nodes h !! n = Some o → succs h !! successors o = Some m →
  action ≠ EmptyString →
  ∃ h0 h1 w,
    copy (Some n) h = Done (Ret (Some (length (nodes h)))) h0 [] [] ∧
    next n target action h0 = Done (Ret target) h1 [] w ∧
    get_next_node flow (length (nodes h)) (PStr action) h1
      = Done (Ret (Some target)) h1 [] [].
Proof.
  intros Hn Hm Ha.
  set (h0 := with_nodes h (nodes h ++ [o])).
  assert (nodes h0 !! n = Some o) as Hn0 by by apply lookup_app_l_Some.
  assert (succs h0 !! successors o = Some m) as Hm0 by done.
  eexists h0, _, _. split; [by apply copy_Some|].
  split; [by apply next_Done|].
  set (h1 := with_succs h0 _).
  assert (nodes h1 !! length (nodes h) = Some o) as Hc
    by by apply list_lookup_middle.
  pose proof (succs_after_next n target action h0 o m Hn0 Hm0) as Hs.
  assert (py_or (PStr action) (PStr "default") h1
          = Done (Ret (PStr action)) h1 [] []) as Hkey.
  { unfold py_or. cbn [truthy]. rewrite (bind_pure _ _ h1 _ eq_refl).
    by destruct action. }
  rewrite (get_next_node_Done flow _ _ action h1 o _ Hc Hs Hkey).
  rewrite lookup_insert_eq.
  by rewrite (bool_decide_eq_true_2 (is_Some (Some target))) by by eexists.
Qed.

Lemma copy_shares_the_successors_witness :
  ∃ h0 h1 w,
    copy (Some 1%nat) Examples.wired_heap = Done (Ret (Some 2%nat)) h0 [] [] ∧
    next 1%nat 0%nat "back" h0 = Done (Ret 0%nat) h1 [] w ∧
    get_next_node 5%nat 2%nat (PStr "back") h1
      = Done (Ret (Some 0%nat)) h1 [] [].
Proof.
  apply (copy_shares_the_successors 5%nat 1%nat 0%nat "back"
           Examples.wired_heap (mkObj 2%nat 1%nat 1%nat 1 0 0 None) ∅
           eq_refl eq_refl).
  discriminate.
Defined.

(** X24: A traversal started without params, as [Flow._run] starts it, gives
    the nodes it visits one new dict that starts as a copy of the flow's
    own params: the same contents in another object.  What an outer flow
    has set as the params of a nested flow reaches the nodes of the nested
    flow this way. *)
Theorem own_params_reach_the_nodes_by_copy rn fuel self shared h o d r h' t w :
  nodes h !! self = Some o → dicts h !! params o = Some d →
  _orch rn fuel self shared None h = Done r h' t w →
  Forall (visit_with (length (dicts h))) t ∧
  params o ≠ length (dicts h) ∧
  ∃ cur h0,
    copy (start_node o) h = Done (Ret cur) h0 [] [] ∧
    dicts (with_dicts h0 (dicts h ++ [d])) !! length (dicts h) = Some d ∧
    _orch_while rn fuel self shared (length (dicts h)) cur PNone
                (with_dicts h0 (dicts h ++ [d])) = Done r h' t w.
Proof.
  intros Ho Hd E.
  destruct (_orch_Done _ _ _ _ _ _ _ _ _ _ E)
    as (o' & cur & h0 & np & hs & Ho' & Ecp & Enp & Ew).
  assert (o' = o) as -> by congruence.
  destruct (copy_frame _ _ _ _ Ecp) as [Hd0 Hn0].
  assert (nodes h0 !! self = Some o) as Ho0 by by apply Hn0.
  assert (dicts h0 !! params o = Some d) as Hd0' by by rewrite Hd0.
  unfold node_params_of in Enp. read_in Enp. read_in Enp.
  unfold alloc_dict in Enp. rewrite dict_update_union, Hd0 in Enp.
  rewrite (right_id_L ∅ (∪)) in Enp. injection Enp as <- <-.
  split; [by destruct (_orch_while_shape _ _ _ _ _ _ _ _ _ _ _ _ Ew)|].
  split; [apply lookup_lt_Some in Hd; lia|].
  exists cur, h0. split; [done|]. split; [|done].
  by apply list_lookup_middle.
Qed.

Lemma own_params_reach_the_nodes_by_copy_witness :
  let X := _orch (_run FlowExamples.classes 2) 2 1%nat (PDict 2%nat) None
                 FlowExamples.sweep_heap in
  Forall (visit_with 5%nat) (trace_of X) ∧
  visit_preps (trace_of X) = [Ret (PList [PInt 9; PInt 5])].
Proof.
  intros X.
  assert (X = Done (outcome_of X) (heap_of X) (trace_of X) (warnings_of X))
    as EX by (vm_compute; reflexivity).
  destruct (own_params_reach_the_nodes_by_copy (_run FlowExamples.classes 2)
              2 1%nat (PDict 2%nat) FlowExamples.sweep_heap
              (mkObj 4%nat 1%nat 1%nat 1 0 0 (Some 0%nat))
              {["i" := PInt 9; "j" := PInt 5]}
              (outcome_of X) (heap_of X) (trace_of X) (warnings_of X)
              eq_refl eq_refl EX) as (H & _).
  split; [exact H|]. vm_compute. reflexivity.
Defined.

(** * Visits, copies and traversals side by side *)



Lemma reader_raise {A} e : reader (@raise A e).
Proof. by intros h r h' t w [= _ <- <- _]. Qed.




Lemma reader_get_dict l : reader (get_dict l).
Proof.
  intros h r h' t w. unfold get_dict. destruct (dicts h !! l); [|done].
  by intros [= _ <- <- _].
Qed.






Lemma reader_as_mapping v : reader (as_mapping v).
Proof. destruct v; first [apply reader_get_dict|apply reader_raise]. Qed.












(** * Parallel batches *)



Section ParallelBatch.

Variable ct : class_id → pyclass.



End ParallelBatch.

